(** * LivePreview: the live editing and synchronisation engine

    A shallow embedding of the [LivePreview] component of
    [src/components/InputArea.tsx] as it is mounted by [App] in
    [src/App.tsx]: the editable buffer, the debounced copy that feeds the
    editor-view iframe, the bounded undo/redo history, the two [setTimeout]
    channels armed by the component's effects, and the [onUpdate] bridge to
    the parent.

    React is modelled by explicit state passing.  One [State] holds the
    component's [useState] cells, its two refs, the [creation] prop, the
    pending timers (with the values their closures captured), a millisecond
    clock and three traces of outward actions.  An event handler produces the
    next cell values; [commit] then plays the effects whose dependency arrays
    changed, in declaration order, and plays them a second time when the load
    effect queued a reset.

    Time is a millisecond clock: [Tick] advances it by one and runs the
    timers that are due.  The other events are the component's handlers and
    [App] handing over another [activeCreation]; renders of [App] that leave
    the [creation] prop alone are not events of this model.

    A [string] character stands for one UTF-16 code unit: the component only
    compares strings, tests them for emptiness and takes their length. *)

From Stdlib Require Import String List NArith ZArith Bool Arith Lia.
From Stdlib Require Floats.
Import ListNotations.
Open Scope string_scope.

(** ** Data *)

(** The [Creation] record of [./CreationHistory], with the fields the
    component and [App] read and write. *)
Record Creation := mkCreation {
  id : string;
  name : string;
  html : string;
  originalImage : option string;
  timestamp : N
}.

(** The closure of the 800 ms timer: the [editableCode] and [creation] of the
    render that armed it. *)
Record PreviewTimer := mkPreviewTimer {
  pDue : N;
  pStamp : N;
  pCode : string;
  pCreation : option Creation
}.

(** The closure of the 1000 ms timer: the [editableCode], [history] and
    [historyIndex] of the render that armed it. *)
Record SnapshotTimer := mkSnapshotTimer {
  sDue : N;
  sStamp : N;
  sCode : string;
  sHistory : list string;
  sIndex : Z
}.

Record State := mkState {
  (* prop *)
  creation : option Creation;
  (* useState *)
  editableCode : string;
  debouncedCode : string;
  isSyncing : bool;
  lastSaved : option N;
  history : list string;
  historyIndex : Z;
  (* useRef *)
  isInternalChange : bool;
  prevCreationId : option string;
  (* pending setTimeout handles *)
  previewTimer : option PreviewTimer;
  snapshotTimer : option SnapshotTimer;
  (* clock (ms) and timer registration counter *)
  now : N;
  nextStamp : N;
  (* traces, newest first *)
  onUpdateCalls : list Creation;
  historyPushes : list string;
  srcDocs : list string
}.

(** Which dependencies differ, under [Object.is], from the previous render.
    Strings and numbers compare by value; the [creation] object and the
    [history] array compare by reference, so every assignment of a freshly
    built one counts as a change. *)
Record Dirty := mkDirty {
  dCreation : bool;
  dEditable : bool;
  dDebounced : bool;
  dHistory : bool;
  dIndex : bool
}.

Inductive Event :=
| SetCreation (c : option Creation)   (* App passes another [activeCreation] *)
| Edit (text : string)                (* textarea [onChange] *)
| Undo
| Redo
| Save
| Tick.                               (* one millisecond passes *)

(** ** Setters *)

Definition set_creation v s := mkState v (editableCode s) (debouncedCode s) (isSyncing s) (lastSaved s) (history s) (historyIndex s) (isInternalChange s) (prevCreationId s) (previewTimer s) (snapshotTimer s) (now s) (nextStamp s) (onUpdateCalls s) (historyPushes s) (srcDocs s).
Definition set_editableCode v s := mkState (creation s) v (debouncedCode s) (isSyncing s) (lastSaved s) (history s) (historyIndex s) (isInternalChange s) (prevCreationId s) (previewTimer s) (snapshotTimer s) (now s) (nextStamp s) (onUpdateCalls s) (historyPushes s) (srcDocs s).
Definition set_debouncedCode v s := mkState (creation s) (editableCode s) v (isSyncing s) (lastSaved s) (history s) (historyIndex s) (isInternalChange s) (prevCreationId s) (previewTimer s) (snapshotTimer s) (now s) (nextStamp s) (onUpdateCalls s) (historyPushes s) (srcDocs s).
Definition set_isSyncing v s := mkState (creation s) (editableCode s) (debouncedCode s) v (lastSaved s) (history s) (historyIndex s) (isInternalChange s) (prevCreationId s) (previewTimer s) (snapshotTimer s) (now s) (nextStamp s) (onUpdateCalls s) (historyPushes s) (srcDocs s).
Definition set_lastSaved v s := mkState (creation s) (editableCode s) (debouncedCode s) (isSyncing s) v (history s) (historyIndex s) (isInternalChange s) (prevCreationId s) (previewTimer s) (snapshotTimer s) (now s) (nextStamp s) (onUpdateCalls s) (historyPushes s) (srcDocs s).
Definition set_history v s := mkState (creation s) (editableCode s) (debouncedCode s) (isSyncing s) (lastSaved s) v (historyIndex s) (isInternalChange s) (prevCreationId s) (previewTimer s) (snapshotTimer s) (now s) (nextStamp s) (onUpdateCalls s) (historyPushes s) (srcDocs s).
Definition set_historyIndex v s := mkState (creation s) (editableCode s) (debouncedCode s) (isSyncing s) (lastSaved s) (history s) v (isInternalChange s) (prevCreationId s) (previewTimer s) (snapshotTimer s) (now s) (nextStamp s) (onUpdateCalls s) (historyPushes s) (srcDocs s).
Definition set_isInternalChange v s := mkState (creation s) (editableCode s) (debouncedCode s) (isSyncing s) (lastSaved s) (history s) (historyIndex s) v (prevCreationId s) (previewTimer s) (snapshotTimer s) (now s) (nextStamp s) (onUpdateCalls s) (historyPushes s) (srcDocs s).
Definition set_prevCreationId v s := mkState (creation s) (editableCode s) (debouncedCode s) (isSyncing s) (lastSaved s) (history s) (historyIndex s) (isInternalChange s) v (previewTimer s) (snapshotTimer s) (now s) (nextStamp s) (onUpdateCalls s) (historyPushes s) (srcDocs s).
Definition set_previewTimer v s := mkState (creation s) (editableCode s) (debouncedCode s) (isSyncing s) (lastSaved s) (history s) (historyIndex s) (isInternalChange s) (prevCreationId s) v (snapshotTimer s) (now s) (nextStamp s) (onUpdateCalls s) (historyPushes s) (srcDocs s).
Definition set_snapshotTimer v s := mkState (creation s) (editableCode s) (debouncedCode s) (isSyncing s) (lastSaved s) (history s) (historyIndex s) (isInternalChange s) (prevCreationId s) (previewTimer s) v (now s) (nextStamp s) (onUpdateCalls s) (historyPushes s) (srcDocs s).
Definition set_now v s := mkState (creation s) (editableCode s) (debouncedCode s) (isSyncing s) (lastSaved s) (history s) (historyIndex s) (isInternalChange s) (prevCreationId s) (previewTimer s) (snapshotTimer s) v (nextStamp s) (onUpdateCalls s) (historyPushes s) (srcDocs s).
Definition set_nextStamp v s := mkState (creation s) (editableCode s) (debouncedCode s) (isSyncing s) (lastSaved s) (history s) (historyIndex s) (isInternalChange s) (prevCreationId s) (previewTimer s) (snapshotTimer s) (now s) v (onUpdateCalls s) (historyPushes s) (srcDocs s).
Definition set_onUpdateCalls v s := mkState (creation s) (editableCode s) (debouncedCode s) (isSyncing s) (lastSaved s) (history s) (historyIndex s) (isInternalChange s) (prevCreationId s) (previewTimer s) (snapshotTimer s) (now s) (nextStamp s) v (historyPushes s) (srcDocs s).
Definition set_historyPushes v s := mkState (creation s) (editableCode s) (debouncedCode s) (isSyncing s) (lastSaved s) (history s) (historyIndex s) (isInternalChange s) (prevCreationId s) (previewTimer s) (snapshotTimer s) (now s) (nextStamp s) (onUpdateCalls s) v (srcDocs s).
Definition set_srcDocs v s := mkState (creation s) (editableCode s) (debouncedCode s) (isSyncing s) (lastSaved s) (history s) (historyIndex s) (isInternalChange s) (prevCreationId s) (previewTimer s) (snapshotTimer s) (now s) (nextStamp s) (onUpdateCalls s) (historyPushes s) v.

(** ** JavaScript primitives *)

(** [a !== b] on strings. *)
Definition strNeq (a b : string) : bool := negb (String.eqb a b).

(** Truthiness of a string: every string but the empty one. *)
Definition truthy (a : string) : bool := strNeq a "".

(** [arr[i]] for a number [i]: [undefined] (here [None]) outside the array. *)
Definition jsIndex (arr : list string) (i : Z) : option string :=
  if (i <? 0)%Z then None else nth_error arr (Z.to_nat i).

(** [a !== arr[i]]: a string never equals [undefined]. *)
Definition neqEntry (a : string) (e : option string) : bool :=
  match e with
  | Some b => strNeq a b
  | None => true
  end.

(** [arr.length] as a number. *)
Definition jsLength (arr : list string) : Z := Z.of_nat (length arr).

(** [arr.slice(0, k)]: a negative [k] counts from the end. *)
Definition slice0 (arr : list string) (k : Z) : list string :=
  if (k <? 0)%Z
  then firstn (Z.to_nat (Z.max (jsLength arr + k) 0)) arr
  else firstn (Z.to_nat k) arr.

(** The [setHistory] updater of the snapshot timer:
    [slice(0, historyIndex + 1)], [push], and [shift] above 100 entries. *)
Definition pushHistory (prev : list string) (idx : Z) (code : string) : list string :=
  let newHistory := (slice0 prev (idx + 1)%Z ++ [code])%list in
  if (100 <? jsLength newHistory)%Z then tl newHistory else newHistory.

(** The [setHistoryIndex] updater of the snapshot timer. *)
Definition pushIndex (prev : Z) : Z := Z.min (prev + 1) 99.

(** ** Effects *)

Definition changed (old new : State) (refCreation refHistory : bool) : Dirty :=
  mkDirty refCreation
          (strNeq (editableCode old) (editableCode new))
          (strNeq (debouncedCode old) (debouncedCode new))
          refHistory
          (negb (historyIndex old =? historyIndex new)%Z).

(** [creation?.id !== prevCreationId.current]: [undefined] differs from
    [null] and from every string. *)
Definition idDiffers (c : option Creation) (prev : option string) : bool :=
  match c, prev with
  | Some c, Some p => strNeq (id c) p
  | _, _ => true
  end.

(** [creation?.id || null]. *)
Definition idOrNull (c : option Creation) : option string :=
  match c with
  | Some c => if truthy (id c) then Some (id c) else None
  | None => None
  end.

(** The load effect, dependencies [[creation]].  Its five [setState] calls
    are queued for the next render: the effect returns the content to reset
    to, if any. *)
Definition loadEffect (s : State) : State * option string :=
  if idDiffers (creation s) (prevCreationId s) then
    let s1 := set_prevCreationId (idOrNull (creation s)) s in
    match creation s with
    | Some c => if truthy (html c) then (s1, Some (html c)) else (s1, None)
    | None => (s1, None)
    end
  else (s, None).

(** The queued reset of the load effect. *)
Definition applyReset (content : string) (s : State) : State :=
  set_lastSaved None
    (set_historyIndex 0%Z
      (set_history [content]
        (set_debouncedCode content
          (set_editableCode content s)))).

(** The preview effect, dependencies
    [[editableCode, debouncedCode, creation, onUpdate]]: the cleanup of the
    previous run clears its timer, then the body runs. *)
Definition previewEffect (s : State) : State :=
  let s0 := set_previewTimer None s in
  if String.eqb (editableCode s) (debouncedCode s) then s0
  else
    set_nextStamp (N.succ (nextStamp s))
      (set_previewTimer
         (Some (mkPreviewTimer (now s + 800)%N (nextStamp s) (editableCode s) (creation s)))
         (set_isSyncing true s0)).

(** The snapshot effect, dependencies [[editableCode, history, historyIndex]]. *)
Definition snapshotEffect (s : State) : State :=
  let s0 := set_snapshotTimer None s in
  if isInternalChange s then set_isInternalChange false s0
  else
    set_nextStamp (N.succ (nextStamp s))
      (set_snapshotTimer
         (Some (mkSnapshotTimer (now s + 1000)%N (nextStamp s)
                                (editableCode s) (history s) (historyIndex s)))
         s0).

(** One pass of effects after a render, in declaration order. *)
Definition effects (d : Dirty) (s : State) : State * option string :=
  let '(s1, reset) := if dCreation d then loadEffect s else (s, None) in
  let s2 := if dEditable d || dDebounced d || dCreation d then previewEffect s1 else s1 in
  let s3 := if dEditable d || dHistory d || dIndex d then snapshotEffect s2 else s2 in
  (s3, reset).

(** The editor-view iframe receives a new [srcDoc] when [debouncedCode]
    changed. *)
Definition paint (d : Dirty) (s : State) : State :=
  if dDebounced d then set_srcDocs (debouncedCode s :: srcDocs s) s else s.

(** Render and effects after an event, up to quiescence: a reset queued by
    the load effect gives a second render, whose effects queue nothing more
    ([isSyncing] is in no dependency array). *)
Definition commit (d : Dirty) (s : State) : State :=
  let '(s1, reset) := effects d (paint d s) in
  match reset with
  | None => s1
  | Some content =>
      let s2 := applyReset content s1 in
      let d2 := changed s1 s2 false true in
      fst (effects d2 (paint d2 s2))
  end.

(** ** Mounting *)

Definition blank : State :=
  mkState None "" "" false None [] (-1)%Z false None None None 0%N 0%N [] [] [].

(** The first render runs every effect. *)
Definition mount : State :=
  fst (effects (mkDirty true true true true true) blank).

(** ** Event handlers *)

(** The object [onUpdate] receives: [{...creation, html, timestamp: new Date()}]. *)
Definition updated (c : Creation) (code : string) (t : N) : Creation :=
  mkCreation (id c) (name c) code (originalImage c) t.

(** [onUpdate] is [App]'s [handleUpdateCreation]: the object becomes the
    [activeCreation], hence the [creation] prop of the next render. *)
Definition onUpdate (u : Creation) (s : State) : State :=
  set_onUpdateCalls (u :: onUpdateCalls s) (set_creation (Some u) s).

(** [App] hands another [activeCreation] (or [null]) to the component. *)
Definition setCreation (c : option Creation) (s : State) : State :=
  let s' := set_creation c s in
  commit (changed s s' true false) s'.

(** The textarea's [onChange], that is [setEditableCode]. *)
Definition edit (text : string) (s : State) : State :=
  let s' := set_editableCode text s in
  commit (changed s s' false false) s'.

(** [handleUndo].  Past the array's end [history[nextIdx]] is [undefined];
    [CodeEditor] then throws on [code.split] in the next render, which is
    the [None] here. *)
Definition handleUndo (s : State) : option State :=
  if (0 <? historyIndex s)%Z then
    let nextIdx := (historyIndex s - 1)%Z in
    match jsIndex (history s) nextIdx with
    | Some code =>
        let s' := set_editableCode code
                    (set_historyIndex nextIdx (set_isInternalChange true s)) in
        Some (commit (changed s s' false false) s')
    | None => None
    end
  else Some s.

(** [handleRedo]. *)
Definition handleRedo (s : State) : option State :=
  if (historyIndex s <? jsLength (history s) - 1)%Z then
    let nextIdx := (historyIndex s + 1)%Z in
    match jsIndex (history s) nextIdx with
    | Some code =>
        let s' := set_editableCode code
                    (set_historyIndex nextIdx (set_isInternalChange true s)) in
        Some (commit (changed s s' false false) s')
    | None => None
    end
  else Some s.

(** [handleSave]. *)
Definition handleSave (s : State) : State :=
  match creation s with
  | Some c =>
      let s' := set_debouncedCode (editableCode s)
                  (set_lastSaved (Some (now s))
                    (onUpdate (updated c (editableCode s) (now s)) s)) in
      commit (changed s s' true false) s'
  | None => s
  end.

(** The [disabled] attributes of the two history buttons, negated. *)
Definition undoAvailable (s : State) : bool := negb (historyIndex s <=? 0)%Z.
Definition redoAvailable (s : State) : bool :=
  negb (jsLength (history s) - 1 <=? historyIndex s)%Z.

(** ** Timers *)

(** The callback of the 800 ms timer. *)
Definition firePreview (t : PreviewTimer) (s : State) : State :=
  let s1 := set_isSyncing false
              (set_debouncedCode (pCode t) (set_previewTimer None s)) in
  match pCreation t with
  | Some c =>
      if strNeq (pCode t) (html c) then
        let s2 := set_lastSaved (Some (now s))
                    (onUpdate (updated c (pCode t) (now s)) s1) in
        commit (changed s s2 true false) s2
      else commit (changed s s1 false false) s1
  | None => commit (changed s s1 false false) s1
  end.

(** The guard of the 1000 ms timer's callback. *)
Definition snapshotGuard (t : SnapshotTimer) : bool :=
  truthy (sCode t) && (0 <? jsLength (sHistory t))%Z
  && neqEntry (sCode t) (jsIndex (sHistory t) (sIndex t)).

(** The callback of the 1000 ms timer. *)
Definition fireSnapshot (t : SnapshotTimer) (s : State) : State :=
  let s0 := set_snapshotTimer None s in
  if snapshotGuard t then
    let s1 := set_historyPushes (sCode t :: historyPushes s)
                (set_historyIndex (pushIndex (historyIndex s))
                  (set_history (pushHistory (history s) (sIndex t) (sCode t)) s0)) in
    commit (changed s s1 false true) s1
  else s0.

Definition runPreview (s : State) : State :=
  match previewTimer s with
  | Some t => if (pDue t <=? now s)%N then firePreview t s else s
  | None => s
  end.

Definition runSnapshot (s : State) : State :=
  match snapshotTimer s with
  | Some t => if (sDue t <=? now s)%N then fireSnapshot t s else s
  | None => s
  end.

(** Timers due together run in the order of their delays' ends, then of
    their registration. *)
Definition snapshotFirst (s : State) : bool :=
  match previewTimer s, snapshotTimer s with
  | Some p, Some t =>
      (sDue t <? pDue p)%N || ((sDue t =? pDue p)%N && (sStamp t <? pStamp p)%N)
  | _, _ => false
  end.

(** One millisecond passes; the timers that are due run. *)
Definition tick (s : State) : State :=
  let s1 := set_now (N.succ (now s)) s in
  if snapshotFirst s1 then runPreview (runSnapshot s1)
  else runSnapshot (runPreview s1).

Fixpoint elapse (ms : nat) (s : State) : State :=
  match ms with
  | O => s
  | S ms' => elapse ms' (tick s)
  end.

(** ** Runs *)

Definition step (e : Event) (s : State) : option State :=
  match e with
  | SetCreation c => Some (setCreation c s)
  | Edit text => Some (edit text s)
  | Undo => handleUndo s
  | Redo => handleRedo s
  | Save => Some (handleSave s)
  | Tick => Some (tick s)
  end.

Fixpoint run (es : list Event) (s : State) : option State :=
  match es with
  | [] => Some s
  | e :: es' =>
      match step e s with
      | Some s' => run es' s'
      | None => None
      end
  end.

(** ** The iframes *)

Record Iframe := mkIframe {
  key : option nat;
  srcDoc : string;
  sandbox : string
}.

Definition sandboxAttr : string :=
  "allow-scripts allow-forms allow-popups allow-modals allow-same-origin".

(** The iframe beside the code editor. *)
Definition editorIframe (s : State) : Iframe :=
  mkIframe (Some (String.length (debouncedCode s))) (debouncedCode s) sandboxAttr.

(** The iframe of the plain preview. *)
Definition previewIframe (s : State) : Iframe :=
  mkIframe None (editableCode s) sandboxAttr.

(** ** Scenarios *)

(** The artifact of the reference scenario. *)
Definition artifactA : Creation := mkCreation "c1" "demo" "A" None 0%N.

(** An artifact whose content is the empty string. *)
Definition emptyArtifact : Creation := mkCreation "c2" "blank" "" None 0%N.

(** Two artifacts whose contents differ and have the same length. *)
Definition artifactAB : Creation := mkCreation "c3" "one" "AB" None 0%N.
Definition artifactCD : Creation := mkCreation "c4" "two" "CD" None 0%N.

(** The artifact of the scenario, loaded into the freshly mounted
    component. *)
Definition loadedA : State := setCreation (Some artifactA) mount.

(** The scenario after its edit has settled. *)
Definition afterEdit : State := elapse 1000 (edit "AB" (setCreation (Some artifactA) mount)).

(** The scenario after its undo. *)
Definition afterUndo : State :=
  match handleUndo afterEdit with
  | Some s => s
  | None => afterEdit
  end.

(** The events of the scenario up to the settled edit. *)
Definition scenarioRun : list Event :=
  (SetCreation (Some artifactA) :: Edit "AB" :: repeat Tick 1000)%list.

(** Ninety-nine settled edits after a load fill the history; one more edit
    arms a push beyond the capacity. *)
Definition fillRun : list Event :=
  (SetCreation (Some artifactA)
   :: flat_map (fun k => Edit (if Nat.even k then "a" else "b") :: repeat Tick 1000)
               (seq 0 99)
   ++ [Edit "z"])%list.

(** ** Invariants *)

Definition nonEmpty (e : string) : Prop := e <> "".

(** What every reachable [history]/[historyIndex] pair satisfies. *)
Definition HistInv (h : list string) (i : Z) : Prop :=
  (length h <= 100)%nat
  /\ ((h = [] /\ i = (-1)%Z) \/ (0 <= i < jsLength h)%Z)
  /\ Forall nonEmpty h.

(** A pending snapshot timer closed over the current history, index and
    buffer. *)
Definition TimerInv (s : State) : Prop :=
  forall t, snapshotTimer s = Some t ->
            sHistory t = history s /\ sIndex t = historyIndex s
            /\ sCode t = editableCode s.

(** The invariant of every run, whatever the artifacts. *)
Definition Inv (s : State) : Prop :=
  HistInv (history s) (historyIndex s) /\ TimerInv s.

(** An artifact's id is what [App] makes it: never the empty string. *)
Definition wellFormed (e : Event) : Prop :=
  match e with
  | SetCreation (Some c) => id c <> ""
  | _ => True
  end.

(** A pending preview timer closed over the current creation and buffer. *)
Definition TimerCurrent (s : State) : Prop :=
  forall p, previewTimer s = Some p ->
            pCreation p = creation s /\ pCode p = editableCode s.

(** The loaded creation is the one the load effect recorded, and the
    preview timer is current. *)
Definition Coherent (s : State) : Prop :=
  (forall c, creation s = Some c -> prevCreationId s = Some (id c))
  /\ TimerCurrent s.

(** What holds besides [Inv] in every state a run with well-formed
    artifacts reaches. *)
Definition Reach (s : State) : Prop := Coherent s /\ isInternalChange s = false.

(** A loaded artifact at rest: buffer, debounced copy, persisted content and
    current snapshot all agree. *)
Definition Settled (c : Creation) (s : State) : Prop :=
  creation s = Some c /\ prevCreationId s = Some (id c)
  /\ editableCode s = html c /\ debouncedCode s = html c
  /\ isInternalChange s = false
  /\ jsIndex (history s) (historyIndex s) = Some (html c)
  /\ HistInv (history s) (historyIndex s).

(** ** Views of a state *)

(** The cells and traces that only event handlers, timer callbacks and the
    queued reset write. *)
Definition core (s : State) :=
  (creation s, editableCode s, debouncedCode s, lastSaved s,
   history s, historyIndex s, onUpdateCalls s, historyPushes s).

(** The reset the load effect queues, if any. *)
Definition queuedReset (s : State) : option string :=
  if idDiffers (creation s) (prevCreationId s) then
    match creation s with
    | Some c => if truthy (html c) then Some (html c) else None
    | None => None
    end
  else None.

(** Whether the preview effect and the snapshot effect run after a render,
    and whether the buffer and its debounced copy agree. *)
Definition previewRuns (d : Dirty) : bool := dEditable d || dDebounced d || dCreation d.
Definition snapshotRuns (d : Dirty) : bool := dEditable d || dHistory d || dIndex d.
Definition inSync (s : State) : bool := String.eqb (editableCode s) (debouncedCode s).

(** The stamp the snapshot effect reads: the preview effect, which runs
    first, may have taken one. *)
Definition stampAfterPreview (d : Dirty) (s : State) : N :=
  if previewRuns d && negb (inSync s) then N.succ (nextStamp s) else nextStamp s.

(** One pass of effects written as one assignment per cell. *)
Definition effectsResult (d : Dirty) (s : State) : State :=
  mkState (creation s) (editableCode s) (debouncedCode s)
    (if previewRuns d && negb (inSync s) then true else isSyncing s)
    (lastSaved s) (history s) (historyIndex s)
    (if snapshotRuns d then false else isInternalChange s)
    (if dCreation d && idDiffers (creation s) (prevCreationId s)
     then idOrNull (creation s) else prevCreationId s)
    (if previewRuns d
     then if inSync s then None
          else Some (mkPreviewTimer (now s + 800) (nextStamp s)
                                    (editableCode s) (creation s))
     else previewTimer s)
    (if snapshotRuns d
     then if isInternalChange s then None
          else Some (mkSnapshotTimer (now s + 1000) (stampAfterPreview d s)
                                     (editableCode s) (history s) (historyIndex s))
     else snapshotTimer s)
    (now s)
    (if snapshotRuns d && negb (isInternalChange s)
     then N.succ (stampAfterPreview d s) else stampAfterPreview d s)
    (onUpdateCalls s) (historyPushes s) (srcDocs s).

(** The creation the preview timer's callback hands to [onUpdate], if it
    does. *)
Definition previewPersists (p : PreviewTimer) : option Creation :=
  match pCreation p with
  | Some c => if strNeq (pCode p) (html c) then Some c else None
  | None => None
  end.

(** ** Quiet periods *)

(** No timer is due up to the instant [n]. *)
Definition previewAfter (n : N) (s : State) : Prop :=
  forall p, previewTimer s = Some p -> (n < pDue p)%N.

Definition snapshotAfter (n : N) (s : State) : Prop :=
  forall t, snapshotTimer s = Some t -> (n < sDue t)%N.

(** No pending snapshot timer will push. *)
Definition SnapshotSpent (s : State) : Prop :=
  forall t, snapshotTimer s = Some t -> snapshotGuard t = false.

(** From [s] to [r] the buffer and the history stood still. *)
Definition StillHist (s r : State) : Prop :=
  editableCode r = editableCode s /\ history r = history s
  /\ historyIndex r = historyIndex s /\ historyPushes r = historyPushes s
  /\ isInternalChange r = isInternalChange s.

(** From [s] to [r] nothing was persisted or rendered either. *)
Definition StillAll (s r : State) : Prop :=
  previewTimer r = None /\ creation r = creation s
  /\ debouncedCode r = debouncedCode s /\ onUpdateCalls r = onUpdateCalls s
  /\ srcDocs r = srcDocs s /\ isSyncing r = isSyncing s.

Definition Quiet (s r : State) : Prop :=
  Coherent r /\ SnapshotSpent r /\ StillHist s r
  /\ (previewTimer s = None -> StillAll s r).

(** From [s] to [r] each trace kept its entries and possibly got new ones
    in front. *)
Definition Grows (s r : State) : Prop :=
  (exists l, onUpdateCalls r = l ++ onUpdateCalls s)%list
  /\ (exists l, historyPushes r = l ++ historyPushes s)%list
  /\ (exists l, srcDocs r = l ++ srcDocs s)%list.

(** ** Bursts of edits *)

(** The edits of a burst after its first one, each with the pause that
    precedes it. *)
Fixpoint burst (rest : list (nat * string)) (s : State) : State :=
  match rest with
  | [] => s
  | (gap, text) :: rest' => burst rest' (edit text (elapse gap s))
  end.

(** Every pause is shorter than [bound] and every edit changes the buffer. *)
Fixpoint burstOk (bound : nat) (prev : string) (rest : list (nat * string)) : Prop :=
  match rest with
  | [] => True
  | (gap, text) :: rest' => gap < bound /\ text <> prev /\ burstOk bound text rest'
  end.

(** The text of the last edit. *)
Fixpoint lastText (first : string) (rest : list (nat * string)) : string :=
  match rest with
  | [] => first
  | (_, text) :: rest' => lastText text rest'
  end.

(** What a burst that began in [s0] leaves untouched until a timer runs. *)
Definition Base (s0 : State) (c : Creation) (s : State) : Prop :=
  creation s = Some c /\ prevCreationId s = Some (id c)
  /\ debouncedCode s = html c /\ isInternalChange s = false
  /\ history s = history s0 /\ historyIndex s = historyIndex s0
  /\ onUpdateCalls s = onUpdateCalls s0 /\ historyPushes s = historyPushes s0
  /\ srcDocs s = srcDocs s0.

(** The state right after an edit of the burst: both timers freshly armed
    on the new text. *)
Definition Mid (s0 : State) (c : Creation) (text : string) (s : State) : Prop :=
  Base s0 c s /\ editableCode s = text
  /\ (exists k, previewTimer s =
                if String.eqb text (html c) then None
                else Some (mkPreviewTimer (now s + 800) k text (Some c)))
  /\ (exists k, snapshotTimer s =
                Some (mkSnapshotTimer (now s + 1000) k text
                                      (history s0) (historyIndex s0))).

(** The burst and the wait of [ms] milliseconds after it, as events. *)
Definition burstEvents (first : string) (rest : list (nat * string)) (ms : nat)
  : list Event :=
  (Edit first
   :: flat_map (fun '(gap, text) => repeat Tick gap ++ [Edit text]) rest
   ++ repeat Tick ms)%list.

(** Bursts whose pauses stay below [bound] milliseconds coalesce: once the
    burst is over and a second has passed there is one more [onUpdate]
    call, one more history push and one more [srcDoc], all three with the
    last text; and at no instant of the burst or of the wait was anything
    else persisted, pushed or rendered. *)
Definition Coalesces (bound : nat) : Prop :=
  forall c s0 first rest ms,
    Settled c s0 -> first <> html c -> burstOk bound first rest ->
    lastText first rest <> "" -> lastText first rest <> html c ->
    1000 <= ms ->
    let final := lastText first rest in
    let r := elapse ms (burst rest (edit first s0)) in
    run (burstEvents first rest ms) s0 = Some r
    /\ (exists t, onUpdateCalls r = updated c final t :: onUpdateCalls s0)
    /\ historyPushes r = final :: historyPushes s0
    /\ srcDocs r = final :: srcDocs s0
    /\ editableCode r = final /\ debouncedCode r = final
    /\ history r = pushHistory (history s0) (historyIndex s0) final
    /\ historyIndex r = pushIndex (historyIndex s0)
    /\ (forall pre post,
          burstEvents first rest ms = (pre ++ post)%list ->
          exists m,
            run pre s0 = Some m
            /\ (forall u, In u (onUpdateCalls m) ->
                          In u (onUpdateCalls s0) \/ html u = final)
            /\ (forall x, In x (historyPushes m) ->
                          In x (historyPushes s0) \/ x = final)
            /\ (forall x, In x (srcDocs m) -> In x (srcDocs s0) \/ x = final)).

(** The state between an edit of a burst and the run of the snapshot timer
    it armed, which is due at [due]: the buffer holds [text]; history, index
    and pushes are those of the state [s0] the burst began in, whatever the
    preview timer did meanwhile. *)
Definition PushPending (s0 : State) (text : string) (due : N) (s : State) : Prop :=
  Coherent s /\ isInternalChange s = false /\ editableCode s = text
  /\ history s = history s0 /\ historyIndex s = historyIndex s0
  /\ historyPushes s = historyPushes s0
  /\ exists k, snapshotTimer s =
               Some (mkSnapshotTimer due k text (history s0) (historyIndex s0)).

(** The snapshot channel alone: bursts whose pauses stay below [bound]
    milliseconds end, once a second has passed, in one more history push,
    with the last text, on top of the entries up to the index the burst
    began at; and at no instant of the burst or of the wait was anything
    else pushed. *)
Definition CoalescesPush (bound : nat) : Prop :=
  forall c s0 first rest ms,
    Settled c s0 -> first <> html c -> burstOk bound first rest ->
    lastText first rest <> "" -> lastText first rest <> html c ->
    1000 <= ms ->
    let final := lastText first rest in
    let r := elapse ms (burst rest (edit first s0)) in
    run (burstEvents first rest ms) s0 = Some r
    /\ historyPushes r = final :: historyPushes s0
    /\ editableCode r = final
    /\ history r = pushHistory (history s0) (historyIndex s0) final
    /\ historyIndex r = pushIndex (historyIndex s0)
    /\ (forall pre post,
          burstEvents first rest ms = (pre ++ post)%list ->
          exists m,
            run pre s0 = Some m
            /\ (forall x, In x (historyPushes m) ->
                          In x (historyPushes s0) \/ x = final)).

(** ** The sandbox attribute *)

(** ASCII whitespace, which separates the tokens of the attribute. *)
Definition isSpace (ch : Ascii.ascii) : bool :=
  match Ascii.nat_of_ascii ch with
  | 9 | 10 | 12 | 13 | 32 => true
  | _ => false
  end.

(** The attribute value as its space-separated tokens. *)
Fixpoint tokensFrom (s : string) (cur : string) : list string :=
  match s with
  | EmptyString => if String.eqb cur "" then [] else [cur]
  | String ch rest =>
      if isSpace ch
      then if String.eqb cur "" then tokensFrom rest ""
           else cur :: tokensFrom rest ""
      else tokensFrom rest (cur ++ String ch "")
  end.

Definition sandboxTokens (f : Iframe) : list string := tokensFrom (sandbox f) "".

Definition permits (f : Iframe) (token : string) : bool :=
  existsb (String.eqb token) (sandboxTokens f).

(** With [allow-same-origin] the browser leaves a [srcDoc] document in the
    origin of the embedding page instead of forcing it into an opaque
    one. *)
Definition grantsSameOrigin (f : Iframe) : bool := permits f "allow-same-origin".

(** Script execution, form submission, popups and modal dialogs. *)
Definition fourCapabilities : list string :=
  ["allow-scripts"; "allow-forms"; "allow-popups"; "allow-modals"].

(** ** Further behaviour of the engine *)

(** The content area below the header is rendered when nothing is being
    generated and [creation?.html] is truthy; the textarea and the undo and
    redo buttons live inside it. *)
Definition contentShown (s : State) : bool :=
  match creation s with
  | Some c => truthy (html c)
  | None => false
  end.

(** What the rendered tree offers: the textarea, its keyboard shortcuts and
    the two history buttons exist only inside the content area, the save
    button only while there is a creation. *)
Definition offered (e : Event) (s : State) : bool :=
  match e with
  | Edit _ | Undo | Redo => contentShown s
  | Save => match creation s with Some _ => true | None => false end
  | SetCreation _ | Tick => true
  end.

(** A run in which every event is one the rendered tree offers. *)
Fixpoint runOffered (es : list Event) (s : State) : option State :=
  match es with
  | [] => Some s
  | e :: es' =>
      if offered e s then
        match step e s with
        | Some s' => runOffered es' s'
        | None => None
        end
      else None
  end.

Definition isSetCreation (e : Event) : bool :=
  match e with
  | SetCreation _ => true
  | _ => false
  end.

(** [k] presses of the undo button, and of the redo button. *)
Fixpoint undos (k : nat) (s : State) : option State :=
  match k with
  | O => Some s
  | S k' =>
      match handleUndo s with
      | Some s' => undos k' s'
      | None => None
      end
  end.

Fixpoint redos (k : nat) (s : State) : option State :=
  match k with
  | O => Some s
  | S k' =>
      match handleRedo s with
      | Some s' => redos k' s'
      | None => None
      end
  end.

(** The preview timer follows the buffer: none while the buffer and its
    debounced copy agree; otherwise the indicator says syncing and a timer
    over the current buffer and creation is due after [lo] and within
    800 ms. *)
Definition SyncInv (lo : N) (s : State) : Prop :=
  (inSync s = true -> previewTimer s = None)
  /\ (inSync s = false ->
      isSyncing s = true
      /\ exists p, previewTimer s = Some p
                   /\ (lo < pDue p)%N /\ (pDue p <= now s + 800)%N
                   /\ pCode p = editableCode s /\ pCreation p = creation s).

(** What a render leaves in the cells the preview channel reads, with and
    without a reset queued by the load effect. *)
Definition previewTimerAfter (d : Dirty) (s : State) : option PreviewTimer :=
  if previewRuns d
  then if inSync s then None
       else Some (mkPreviewTimer (now s + 800) (nextStamp s) (editableCode s) (creation s))
  else previewTimer s.

(** From [s] to [r] the preview channel stood still: nothing was persisted
    or rendered, and the buffer, its debounced copy and the pending preview
    timer are the same. *)
Definition Untouched (s r : State) : Prop :=
  creation r = creation s /\ onUpdateCalls r = onUpdateCalls s
  /\ editableCode r = editableCode s /\ debouncedCode r = debouncedCode s
  /\ previewTimer r = previewTimer s /\ isSyncing r = isSyncing s
  /\ prevCreationId r = prevCreationId s /\ srcDocs r = srcDocs s.

(** What the preview timer's callback hands to [onUpdate] at the instant [t]. *)
Definition persistedBy (p : PreviewTimer) (t : N) : list Creation :=
  match previewPersists p with
  | Some c => [updated c (pCode p) t]
  | None => []
  end.

(** The reference artifact with one unsettled edit, and the snapshot timer
    that edit armed. *)
Definition editedA : State := edit "AB" loadedA.

Definition editedATimer : SnapshotTimer :=
  match snapshotTimer editedA with
  | Some t => t
  | None => mkSnapshotTimer 0 0 "" [] 0
  end.

(** An artifact whose persisted content and buffer are both empty, with no
    preview timer pending. *)
Definition Cleared (s : State) : Prop :=
  previewTimer s = None /\ editableCode s = ""
  /\ exists c, creation s = Some c /\ html c = "".

(** * The rest of the application

    [App] of [src/App.tsx], the input form of [src/components/InputArea.tsx],
    the loading view and the export of [LivePreview], and [bringToLife] of
    [src/services/gemini.ts].  What the platform computes outside the
    program is an argument of the handler that uses it: the content a
    [FileReader] delivers, the object [JSON.parse] returns, the response of
    the model, the value of [crypto.randomUUID()] and the time of
    [new Date()].

    Where these functions classify or map characters, a [string] character
    is a UTF-16 code unit below 256, with JavaScript's whitespace and case
    mapping on that range. *)

(** ** Strings as JavaScript treats them *)

Module Js.

(** [\s] in a regular expression and the characters [trim] removes: tab,
    line feed, vertical tab, form feed, carriage return, space and the
    no-break space. *)
Definition isWhiteSpace (c : Ascii.ascii) : bool :=
  let n := Ascii.N_of_ascii c in
  ((9 <=? n)%N && (n <=? 13)%N) || (n =? 32)%N || (n =? 160)%N.

(** The lower-case mapping of one code unit: [A-Z] and the Latin-1 capitals
    (U+00C0 to U+00DE without the multiplication sign). *)
Definition lowerChar (c : Ascii.ascii) : Ascii.ascii :=
  let n := Ascii.N_of_ascii c in
  if ((65 <=? n)%N && (n <=? 90)%N)
     || ((192 <=? n)%N && (n <=? 222)%N && negb (n =? 215)%N)
  then Ascii.ascii_of_N (n + 32) else c.

(** [s.toLowerCase()]. *)
Fixpoint toLowerCase (s : string) : string :=
  match s with
  | EmptyString => EmptyString
  | String c rest => String (lowerChar c) (toLowerCase rest)
  end.

(** [s.startsWith(p)]. *)
Definition startsWith (s p : string) : bool := String.prefix p s.

(** The rest of [s] after the prefix [p], if [s] starts with it. *)
Fixpoint stripPrefix (p s : string) : option string :=
  match p, s with
  | EmptyString, _ => Some s
  | String a p', String b s' => if Ascii.eqb a b then stripPrefix p' s' else None
  | String _ _, EmptyString => None
  end.

(** [s] without its leading whitespace. *)
Fixpoint trimStart (s : string) : string :=
  match s with
  | EmptyString => EmptyString
  | String c rest => if isWhiteSpace c then trimStart rest else s
  end.

(** [s] without its trailing whitespace. *)
Fixpoint trimEnd (s : string) : string :=
  match s with
  | EmptyString => EmptyString
  | String c rest =>
      match trimEnd rest with
      | EmptyString => if isWhiteSpace c then EmptyString else String c EmptyString
      | rest' => String c rest'
      end
  end.

(** [s.trim()]. *)
Definition trim (s : string) : string := trimEnd (trimStart s).

(** [s.split(sep)] for a separator of one character; [cur] is the piece
    being read. *)
Fixpoint splitFrom (sep : Ascii.ascii) (s : string) (cur : string) : list string :=
  match s with
  | EmptyString => [cur]
  | String c rest =>
      if Ascii.eqb c sep then cur :: splitFrom sep rest ""
      else splitFrom sep rest (cur ++ String c "")
  end.

Definition split (sep : Ascii.ascii) (s : string) : list string := splitFrom sep s "".

Definition comma : Ascii.ascii := Ascii.ascii_of_N 44.

(** [s.replace(/^p\s*/, '')] for a literal [p]: the pattern is anchored at
    the start of the input and takes all the whitespace that follows. *)
Definition replaceLeading (p s : string) : string :=
  match stripPrefix p s with
  | Some rest => trimStart rest
  | None => s
  end.

(** [s.replace(/p$/, '')] for a literal [p]: without the [m] flag the
    pattern matches at the very end of the input only. *)
Fixpoint replaceFinal (p s : string) : string :=
  if String.eqb s p then EmptyString
  else match s with
       | EmptyString => EmptyString
       | String c rest => String c (replaceFinal p rest)
       end.

(** [s.replace(/[^a-z0-9]/gi, '_')]: every code unit that is not an ASCII
    letter or digit becomes an underscore. *)
Definition isAlnum (c : Ascii.ascii) : bool :=
  let n := Ascii.N_of_ascii c in
  ((48 <=? n)%N && (n <=? 57)%N) || ((65 <=? n)%N && (n <=? 90)%N)
  || ((97 <=? n)%N && (n <=? 122)%N).

Definition underscore : Ascii.ascii := Ascii.ascii_of_N 95.

Fixpoint replaceNonAlnum (s : string) : string :=
  match s with
  | EmptyString => EmptyString
  | String c rest => String (if isAlnum c then c else underscore) (replaceNonAlnum rest)
  end.

(** The string has no occurrence of the character. *)
Fixpoint lacks (c : Ascii.ascii) (s : string) : bool :=
  match s with
  | EmptyString => true
  | String a rest => negb (Ascii.eqb a c) && lacks c rest
  end.

(** The string consists of whitespace only. *)
Fixpoint blank (s : string) : bool :=
  match s with
  | EmptyString => true
  | String a rest => isWhiteSpace a && blank rest
  end.

(** Lower-case ASCII letters, digits and the underscore. *)
Definition isPlain (c : Ascii.ascii) : bool :=
  let n := Ascii.N_of_ascii c in
  ((48 <=? n)%N && (n <=? 57)%N) || ((97 <=? n)%N && (n <=? 122)%N) || (n =? 95)%N.

Fixpoint all (P : Ascii.ascii -> bool) (s : string) : bool :=
  match s with
  | EmptyString => true
  | String a rest => P a && all P rest
  end.

(** [arr.slice(-k)]: the last [k] entries, all of them when there are
    fewer. *)
Definition sliceLast {A} (k : nat) (arr : list A) : list A := skipn (length arr - k) arr.

End Js.

(** The [File] objects of the DOM: name, MIME type, and the string a
    [FileReader] delivers for [readAsDataURL] ([None] when the read fails
    or the result is not a string). *)
Module File.

Record t := mk {
  name : string;
  type : string;
  dataURL : option string
}.

End File.

(** ** [bringToLife] *)

Module Gemini.

(** The parts of the request. *)
Inductive Part :=
| Text (text : string)
| InlineData (data mimeType : string).

(** What [bringToLife] reads of the model's response: [response.text] and,
    of [response.usageMetadata], the [totalTokenCount] that [App] adds up. *)
Record Response := mkResponse {
  text : option string;
  usageMetadata : option PrimFloat.float
}.

Record GenerationResult := mkResult {
  html : string;
  usage : option PrimFloat.float
}.

(** Truthiness of an optional string argument: [undefined] and the empty
    string are falsy. *)
Definition given (o : option string) : bool :=
  match o with
  | Some x => truthy x
  | None => false
  end.

Definition analyzeWith (prompt : string) : string :=
  "Analyze this artifact and build a functional web application based on it. USER INSTRUCTIONS: "
  ++ prompt
  ++ ". Ensure the UI is centered, perfectly aligned, and has smooth CSS transitions.".

Definition analyzeAlone : string :=
  "Analyze this image/document. Build a fully interactive web app that is centered, smooth, and modern. IMPORTANT: Do NOT use external image URLs.".

Definition surprise : string :=
  "Create a creative and interactive demo application that is perfectly centered and smooth.".

Definition finalPrompt (prompt : string) (fileBase64 : option string) : string :=
  if given fileBase64 then
    if truthy prompt then analyzeWith prompt else analyzeAlone
  else
    if truthy prompt then prompt else surprise.

Definition parts (prompt : string) (fileBase64 mimeType : option string) : list Part :=
  Text (finalPrompt prompt fileBase64)
  :: match fileBase64, mimeType with
     | Some data, Some mime =>
         if truthy data && truthy mime then [InlineData data mime] else []
     | _, _ => []
     end.

Definition failedContent : string := "<!-- Failed to generate content -->".

(** The three [replace] calls that remove markdown fences. *)
Definition cleanup (text : string) : string :=
  Js.replaceFinal "```" (Js.replaceLeading "```" (Js.replaceLeading "```html" text)).

(** [bringToLife], given what [generateContent] resolves to for a request
    ([None] when it rejects; the error is thrown again). *)
Definition bringToLife (generateContent : list Part -> option Response)
    (prompt : string) (fileBase64 mimeType : option string) : option GenerationResult :=
  match generateContent (parts prompt fileBase64 mimeType) with
  | Some r =>
      let text := match text r with
                  | Some t => if truthy t then t else failedContent
                  | None => failedContent
                  end in
      Some (mkResult (cleanup text) (usageMetadata r))
  | None => None
  end.

End Gemini.

(** ** The input form *)

Module InputArea.

Record Props := mkProps {
  isGenerating : bool;
  disabled : bool
}.

(** The cells of the form, and the messages given to [alert]. *)
Record State := mkState {
  isDragging : bool;
  prompt : string;
  selectedFile : option File.t;
  isListening : bool;
  alerts : list string
}.

Definition initial : State := mkState false "" None false [].

Definition accepts (file : File.t) : bool :=
  Js.startsWith (File.type file) "image/" || String.eqb (File.type file) "application/pdf".

Definition handleFile (file : File.t) (st : State) : State :=
  if accepts file
  then mkState (isDragging st) (prompt st) (Some file) (isListening st) (alerts st)
  else mkState (isDragging st) (prompt st) (selectedFile st) (isListening st)
               ("Please upload an image or PDF." :: alerts st).

(** [handleDrop], for the first of the dropped files if there is one. *)
Definition handleDrop (props : Props) (file : option File.t) (st : State) : State :=
  let st1 := mkState false (prompt st) (selectedFile st) (isListening st) (alerts st) in
  if disabled props || isGenerating props then st1
  else match file with
       | Some f => handleFile f st1
       | None => st1
       end.

Definition handleDragOver (props : Props) (st : State) : State :=
  if negb (disabled props) && negb (isGenerating props)
  then mkState true (prompt st) (selectedFile st) (isListening st) (alerts st)
  else st.

Definition setPrompt (value : string) (st : State) : State :=
  mkState (isDragging st) value (selectedFile st) (isListening st) (alerts st).

(** The [onresult] callback of the speech recognition. *)
Definition onresult (transcript : string) (st : State) : State :=
  mkState (isDragging st)
          (prompt st ++ (if truthy (prompt st) then " " else "") ++ transcript)
          (selectedFile st) false (alerts st).

Definition removeFile (st : State) : State :=
  mkState (isDragging st) (prompt st) None (isListening st) (alerts st).

(** Nothing to send: [!prompt.trim() && !selectedFile]. *)
Definition nothingToSend (st : State) : bool :=
  negb (truthy (Js.trim (prompt st)))
  && match selectedFile st with Some _ => false | None => true end.

(** [handleSubmit]: the arguments of the [onGenerate] call, if it is made. *)
Definition handleSubmit (props : Props) (st : State) : option (string * option File.t) :=
  if disabled props || isGenerating props then None
  else if nothingToSend st then None
  else Some (prompt st, selectedFile st).

(** The [disabled] attribute of the submit button. *)
Definition submitDisabled (props : Props) (st : State) : bool :=
  isGenerating props || disabled props || nothingToSend st.

(** What happens to the form: a file chosen in the dialog, a drop, a drag
    over or out, typing, a dictated phrase, the removal of the file.  The
    props are those of the render the event meets. *)
Inductive Event :=
| FileChange (file : option File.t)
| Drop (props : Props) (file : option File.t)
| DragOver (props : Props)
| DragLeave
| Type_ (value : string)
| Result (transcript : string)
| RemoveFile.

Definition step (e : Event) (st : State) : State :=
  match e with
  | FileChange (Some f) => handleFile f st
  | FileChange None => st
  | Drop props file => handleDrop props file st
  | DragOver props => handleDragOver props st
  | DragLeave => mkState false (prompt st) (selectedFile st) (isListening st) (alerts st)
  | Type_ value => setPrompt value st
  | Result transcript => onresult transcript st
  | RemoveFile => removeFile st
  end.

Definition run (es : list Event) (st : State) : State := fold_left (fun s e => step e s) es st.

End InputArea.

(** ** The session's token budget *)

(** JavaScript numbers are binary64 floats, and so are they here. *)
Module Tokens.

Import PrimFloat.
Local Open Scope float_scope.

Definition SESSION_TOKEN_LIMIT : float := 2000000.

(** The number that holds the integer [t] (exactly, up to 2^53). *)
Definition toNumber (t : Z) : float :=
  if (t <? 0)%Z then opp (of_uint63 (Uint63.of_Z (- t))) else of_uint63 (Uint63.of_Z t).

(** [Math.max] and [Math.min] of two numbers, neither of them [NaN]. *)
Definition mathMax (a b : float) : float := if a <? b then b else a.
Definition mathMin (a b : float) : float := if b <? a then b else a.

(** [TokenMeter]: the tokens left, the width of the bar and its colour. *)
Definition remaining (used : float) : float := mathMax 0 (SESSION_TOKEN_LIMIT - used).

Definition percentage (used : float) : float :=
  mathMin 100 ((used / SESSION_TOKEN_LIMIT) * 100).

Inductive Colour := Red | Yellow | Blue.

Definition barColour (used : float) : Colour :=
  if 95 <? percentage used then Red
  else if 80 <? percentage used then Yellow
  else Blue.

(** [App]: the share of the budget that is used, and the limit. *)
Definition usagePercentage (sessionTokens : float) : float :=
  (sessionTokens / SESSION_TOKEN_LIMIT) * 100.

Definition isLimitReached (sessionTokens : float) : bool :=
  95 <=? usagePercentage sessionTokens.

(** [TokenWarningBanner]. *)
Inductive Banner := NoBanner | Warning | Critical.

Definition tokenWarningBanner (percentage : float) : Banner :=
  if percentage <? 80 then NoBanner
  else if 95 <=? percentage then Critical
  else Warning.

Definition sameBanner (a b : Banner) : bool :=
  match a, b with
  | NoBanner, NoBanner | Warning, Warning | Critical, Critical => true
  | _, _ => false
  end.

Definition sameColour (a b : Colour) : bool :=
  match a, b with
  | Red, Red | Yellow, Yellow | Blue, Blue => true
  | _, _ => false
  end.

End Tokens.

(** The thresholds once more, over the machine integers, where every count
    below a power of two can be tried. *)
Module TokensCheck.

Import Uint63.
Local Open Scope uint63_scope.

Definition bannerAt (t : int) : Tokens.Banner :=
  if t <? 1600000 then Tokens.NoBanner
  else if 1900000 <=? t then Tokens.Critical
  else Tokens.Warning.

Definition colourAt (t : int) : Tokens.Colour :=
  if 1900000 <? t then Tokens.Red
  else if 1600000 <? t then Tokens.Yellow
  else Tokens.Blue.

Definition left (t : int) : int := if 2000000 <? t then 0 else 2000000 - t.

(** The meter, the banner and the limit at [t] tokens agree with
    [bannerAt], [colourAt] and [left]. *)
Definition thresholdsAt (t : int) : bool :=
  let used := PrimFloat.of_uint63 t in
  Bool.eqb (Tokens.isLimitReached used) (1900000 <=? t)
  && Tokens.sameBanner (Tokens.tokenWarningBanner (Tokens.usagePercentage used)) (bannerAt t)
  && Tokens.sameColour (Tokens.barColour used) (colourAt t)
  && PrimFloat.eqb (Tokens.remaining used) (PrimFloat.of_uint63 (left t)).

(** [P] holds of every integer whose digits above the lowest [d] are those
    of [i]. *)
Fixpoint allBits (P : int -> bool) (d : nat) (i : int) : bool :=
  match d with
  | O => P i
  | S d' => allBits P d' (2 * i) && allBits P d' (2 * i + 1)
  end.

End TokensCheck.

(** ** [App] *)

Module App.

(** The cells of [App], and the messages given to [alert]. *)
Record State := mkState {
  activeCreation : option Creation;
  isGenerating : bool;
  history : list Creation;
  sessionTokens : PrimFloat.float;
  alerts : list string
}.

Definition isLimitReached (st : State) : bool := Tokens.isLimitReached (sessionTokens st).

(** [!!activeCreation || isGenerating]. *)
Definition isFocused (st : State) : bool :=
  match activeCreation st with
  | Some _ => true
  | None => isGenerating st
  end.

(** The props [App] hands to [InputArea]. *)
Definition inputProps (st : State) : InputArea.Props :=
  InputArea.mkProps (isGenerating st) (isFocused st || isLimitReached st).

(** [fileToBase64]: [None] when the promise rejects; otherwise what
    [reader.result.split(',')[1]] is, [undefined] included. *)
Definition fileToBase64 (file : File.t) : option (option string) :=
  match File.dataURL file with
  | Some result => Some (nth_error (Js.split Js.comma result) 1)
  | None => None
  end.

Definition failedMessage : string :=
  "Something went wrong while bringing your file to life. Please try again.".

(** [handleGenerate] up to its first [await]. *)
Definition beginGenerate (st : State) : State :=
  mkState None true (history st) (sessionTokens st) (alerts st).

(** The [catch] and [finally] blocks. *)
Definition failGenerate (st : State) : State :=
  mkState (activeCreation st) false (history st) (sessionTokens st)
          (failedMessage :: alerts st).

(** The creation [handleGenerate] builds from a result. *)
Definition newCreation (file : option File.t) (imageBase64 mimeType : option string)
    (html : string) (uuid : string) (t : N) : Creation :=
  mkCreation uuid
             (match file with Some f => File.name f | None => "New Creation" end)
             html
             (match imageBase64, mimeType with
              | Some data, Some mime =>
                  if truthy data && truthy mime
                  then Some ("data:" ++ mime ++ ";base64," ++ data)
                  else None
              | _, _ => None
              end)
             t.

(** [handleGenerate] from its first [await] on, given what the model
    answers, the value of [crypto.randomUUID()] and the time. *)
Definition endGenerate (generateContent : list Gemini.Part -> option Gemini.Response)
    (promptText : string) (file : option File.t) (uuid : string) (t : N)
    (st : State) : State :=
  let read := match file with
              | Some f => match fileToBase64 f with
                          | Some base64 => Some (base64, Some (Js.toLowerCase (File.type f)))
                          | None => None
                          end
              | None => Some (None, None)
              end in
  match read with
  | None => failGenerate st
  | Some (imageBase64, mimeType) =>
      match Gemini.bringToLife generateContent promptText imageBase64 mimeType with
      | None => failGenerate st
      | Some result =>
          if truthy (Gemini.html result) then
            let created := newCreation file imageBase64 mimeType (Gemini.html result) uuid t in
            mkState (Some created) false (created :: history st)
                    (match Gemini.usage result with
                     | Some total => PrimFloat.add (sessionTokens st) total
                     | None => sessionTokens st
                     end)
                    (alerts st)
          else mkState (activeCreation st) false (history st) (sessionTokens st) (alerts st)
      end
  end.

(** [handleGenerate] with nothing happening between its start and its end. *)
Definition handleGenerate (generateContent : list Gemini.Part -> option Gemini.Response)
    (promptText : string) (file : option File.t) (uuid : string) (t : N)
    (st : State) : State :=
  if isLimitReached st then st
  else endGenerate generateContent promptText file uuid t (beginGenerate st).

Definition handleUpdateCreation (u : Creation) (st : State) : State :=
  mkState (Some u) (isGenerating st)
          (map (fun c => if String.eqb (id c) (id u) then u else c) (history st))
          (sessionTokens st) (alerts st).

Definition handleReset (st : State) : State :=
  mkState None false (history st) (sessionTokens st) (alerts st).

Definition handleSelectCreation (c : Creation) (st : State) : State :=
  mkState (Some c) (isGenerating st) (history st) (sessionTokens st) (alerts st).

(** What [JSON.parse] returns for an imported file, for the files whose
    [id], [name], [html] and [originalImage] are strings where present and
    whose [timestamp] is a date string where present (what [handleExport]
    writes). *)
Record Parsed := mkParsed {
  pId : option string;
  pName : option string;
  pHtml : option string;
  pOriginalImage : option string;
  pTimestamp : option N
}.

Definition orEmpty (o : option string) : string :=
  match o with
  | Some x => x
  | None => ""
  end.

(** The creation [handleImportFile] builds:
    [{...parsed, timestamp: ..., id: parsed.id || crypto.randomUUID()}]. *)
Definition importedCreation (parsed : Parsed) (uuid : string) (t : N) : Creation :=
  mkCreation (if Gemini.given (pId parsed) then orEmpty (pId parsed) else uuid)
             (orEmpty (pName parsed)) (orEmpty (pHtml parsed))
             (pOriginalImage parsed)
             (match pTimestamp parsed with Some ts => ts | None => t end).

(** The [onload] callback of [handleImportFile]; [content] is [None] when
    [JSON.parse] throws or what it returns has no properties to read. *)
Definition handleImportFile (content : option Parsed) (uuid : string) (t : N)
    (st : State) : State :=
  match content with
  | Some parsed =>
      if Gemini.given (pHtml parsed) && Gemini.given (pName parsed) then
        let imported := importedCreation parsed uuid t in
        let exists_ := existsb (fun c => String.eqb (id c) (id imported)) (history st) in
        mkState (Some imported) (isGenerating st)
                (if exists_ then history st else imported :: history st)
                (sessionTokens st) (alerts st)
      else mkState (activeCreation st) (isGenerating st) (history st) (sessionTokens st)
                   ("Invalid creation file format." :: alerts st)
  | None => mkState (activeCreation st) (isGenerating st) (history st) (sessionTokens st)
                    ("Failed to import creation." :: alerts st)
  end.

(** What [App] does, one event at a time. *)
Inductive Event :=
| BeginGenerate
| EndGenerate (generateContent : list Gemini.Part -> option Gemini.Response)
              (promptText : string) (file : option File.t) (uuid : string) (t : N)
| Update (u : Creation)
| Reset
| Select (c : Creation)
| Import (content : option Parsed) (uuid : string) (t : N).

Definition step (e : Event) (st : State) : State :=
  match e with
  | BeginGenerate => if isLimitReached st then st else beginGenerate st
  | EndGenerate generateContent promptText file uuid t =>
      endGenerate generateContent promptText file uuid t st
  | Update u => handleUpdateCreation u st
  | Reset => handleReset st
  | Select c => handleSelectCreation c st
  | Import content uuid t => handleImportFile content uuid t st
  end.

(** What the surroundings guarantee of an event: a fresh non-empty UUID, a
    selection out of the listed history, an update for the artifact that
    [LivePreview] was handed. *)
Definition ids (st : State) : list string := map id (history st).

Definition valid (e : Event) (st : State) : Prop :=
  match e with
  | BeginGenerate | Reset => True
  | EndGenerate _ _ _ uuid _ | Import _ uuid _ => uuid <> "" /\ ~ In uuid (ids st)
  | Update u => exists c, activeCreation st = Some c /\ id u = id c
  | Select c => In c (history st)
  end.

(** Runs of valid events. *)
Inductive Runs : State -> State -> Prop :=
| RunsNil st : Runs st st
| RunsStep st e st' : valid e st -> Runs (step e st) st' -> Runs st st'.

(** No two stored artifacts share an id, no id is empty, and the active
    artifact is one of the stored ones, by id. *)
Definition Inv (st : State) : Prop :=
  NoDup (ids st) /\ ~ In "" (ids st)
  /\ forall c, activeCreation st = Some c -> In (id c) (ids st).

(** The stored artifact with the id [i]. *)
Definition stored (i : string) (st : State) : option Creation :=
  find (fun c => String.eqb (id c) i) (history st).

End App.

(** ** The loading view *)

Module Loading.

(** The updater of the 3000 ms interval: [prev < 3 ? prev + 1 : prev]. *)
Definition advance (prev : Z) : Z := if (prev <? 3)%Z then (prev + 1)%Z else prev.

(** [loadingStep] after [n] intervals since loading began. *)
Fixpoint loadingStep (n : nat) : Z :=
  match n with
  | O => 0%Z
  | S n' => advance (loadingStep n')
  end.

(** The props of the [k]-th [LoadingStep] (counted from 0). *)
Definition active (step k : Z) : bool := (step =? k)%Z.
Definition completed (step k : Z) : bool := (k <? step)%Z.

(** The width of the progress bar, in percent. *)
Definition barWidth (step : Z) : Z := ((step + 1) * 25)%Z.

(** The guard of [TerminalLog]'s effect, [logPool] having four entries. *)
Definition logPoolLength : Z := 4%Z.
Definition logsRun (step : Z) : bool := (0 <=? step)%Z && (step <? logPoolLength)%Z.

(** The updater of [TerminalLog]: [[...prev.slice(-5), line]]. *)
Definition appendLog (prev : list string) (line : string) : list string :=
  (Js.sliceLast 5 prev ++ [line])%list.

End Loading.

(** ** The reference image *)

(** The split view shows the artifact's [originalImage] with [PdfRenderer]
    when it starts with [data:application/pdf], with an [img] otherwise. *)
Definition usesPdfRenderer (image : string) : bool :=
  Js.startsWith image "data:application/pdf".

(** ** Export *)

(** The file name [handleExport] gives the download. *)
Definition exportName (c : Creation) : string :=
  Js.toLowerCase (Js.replaceNonAlnum (name c)) ++ "_artifact.json".

(** What [JSON.parse] gives back for the text [handleExport] writes:
    [{...creation, html: editableCode}]. *)
Definition handleExport (s : State) : option (string * App.Parsed) :=
  match creation s with
  | Some c =>
      Some (exportName c,
            App.mkParsed (Some (id c)) (Some (name c)) (Some (editableCode s))
                         (originalImage c) (Some (timestamp c)))
  | None => None
  end.

(** ** Sample inputs *)

Definition backtick : Ascii.ascii := Ascii.ascii_of_N 96.
Definition newline : string := String (Ascii.ascii_of_N 10) "".
Definition lessThan : Ascii.ascii := Ascii.ascii_of_N 60.
Definition samplePage : string := "<!DOCTYPE html><p>hi</p>".

Definition emptyApp : App.State := App.mkState None false [] PrimFloat.zero [].

Definition sampleResponse : Gemini.Response :=
  Gemini.mkResponse (Some samplePage) (Some (Tokens.toNumber 1200)).

(** A generation from a prompt alone, then an edit persisted by
    [LivePreview]. *)
Definition sampleModel (request : list Gemini.Part) : option Gemini.Response :=
  Some sampleResponse.

Definition sampleGenerated : App.State :=
  App.endGenerate sampleModel "a clock" None "id-1" 5 (App.beginGenerate emptyApp).

Definition sampleCreation : Creation := mkCreation "id-1" "New Creation" samplePage None 5.

Definition sampleUpdated : App.State :=
  App.handleUpdateCreation (updated sampleCreation "<p>bye</p>" 9) sampleGenerated.

Definition sampleFile : File.t :=
  File.mk "sketch.png" "image/png" (Some "data:image/png;base64,iVBORw0KGgo=").

Definition samplePdf : File.t :=
  File.mk "spec.pdf" "application/pdf" (Some "data:application/pdf;base64,JVBERi0=").

(** The reference artifact with other content under the same id, an
    artifact file without an id, and a file without content. *)
Definition artifactA' : Creation := mkCreation "c1" "demo" "ZZ" None 1%N.

Definition sampleParsed : App.Parsed :=
  App.mkParsed None (Some "demo") (Some samplePage) None None.

Definition emptyFile : File.t := File.mk "empty.png" "image/png" (Some "data:image/png;base64,").

(** ** Frame properties of the effects *)

Ltac split_ifs :=
  repeat match goal with
         | |- context [if ?b then _ else _] => destruct b
         | |- context [match ?x with Some _ => _ | None => _ end] => destruct x
         end.

Lemma loadEffect_frame s :
  let s1 := fst (loadEffect s) in
  history s1 = history s /\ historyIndex s1 = historyIndex s
  /\ snapshotTimer s1 = snapshotTimer s /\ editableCode s1 = editableCode s
  /\ isInternalChange s1 = isInternalChange s.
Proof. unfold loadEffect. split_ifs; cbn; repeat split; auto. Qed.

Lemma previewEffect_frame s :
  let s1 := previewEffect s in
  history s1 = history s /\ historyIndex s1 = historyIndex s
  /\ snapshotTimer s1 = snapshotTimer s /\ editableCode s1 = editableCode s
  /\ isInternalChange s1 = isInternalChange s.
Proof. unfold previewEffect. split_ifs; cbn; repeat split; auto. Qed.

Lemma snapshotEffect_frame s :
  let s1 := snapshotEffect s in
  history s1 = history s /\ historyIndex s1 = historyIndex s
  /\ editableCode s1 = editableCode s
  /\ match snapshotTimer s1 with
     | Some t => sHistory t = history s /\ sIndex t = historyIndex s
                 /\ sCode t = editableCode s
     | None => True
     end.
Proof.
  unfold snapshotEffect. destruct (isInternalChange s); cbn; repeat split; auto.
Qed.

(** ** The history invariant *)

Lemma truthy_nonEmpty e : truthy e = true -> nonEmpty e.
Proof.
  unfold truthy, strNeq, nonEmpty. intros H E. subst e. discriminate H.
Qed.

Lemma effects_frame d s :
  let r := effects d s in
  history (fst r) = history s /\ historyIndex (fst r) = historyIndex s
  /\ editableCode (fst r) = editableCode s
  /\ (forall c, snd r = Some c -> truthy c = true)
  /\ (TimerInv s \/ dEditable d || dHistory d || dIndex d = true -> TimerInv (fst r)).
Proof.
  unfold effects.
  destruct (if dCreation d then loadEffect s else (s, None)) as [s1 reset] eqn:E1.
  assert (F1 : history s1 = history s /\ historyIndex s1 = historyIndex s
               /\ snapshotTimer s1 = snapshotTimer s
               /\ editableCode s1 = editableCode s
               /\ (forall c, reset = Some c -> truthy c = true)).
  { destruct (dCreation d).
    - pose proof (loadEffect_frame s) as F. rewrite E1 in F. cbn in F.
      destruct F as (? & ? & ? & ? & _). repeat split; auto.
      unfold loadEffect in E1.
      destruct (idDiffers _ _); [destruct (creation s) as [c0|]|];
        try destruct (truthy (html c0)) eqn:T; inversion E1; subst;
        intros c Hc; try discriminate.
      inversion Hc; subst; exact T.
    - inversion E1; subst. repeat split; auto. discriminate. }
  destruct F1 as (H1 & I1 & T1 & C1 & R1).
  set (s2 := if dEditable d || dDebounced d || dCreation d then previewEffect s1 else s1).
  assert (F2 : history s2 = history s /\ historyIndex s2 = historyIndex s
               /\ snapshotTimer s2 = snapshotTimer s
               /\ editableCode s2 = editableCode s).
  { subst s2. destruct (dEditable d || dDebounced d || dCreation d).
    - destruct (previewEffect_frame s1) as (? & ? & ? & ? & _). repeat split; congruence.
    - auto. }
  destruct F2 as (H2 & I2 & T2 & C2).
  cbn [fst snd].
  destruct (dEditable d || dHistory d || dIndex d) eqn:D.
  - pose proof (snapshotEffect_frame s2) as F. cbn in F.
    destruct F as (H3 & I3 & C3 & T3).
    split; [congruence|]. split; [congruence|]. split; [congruence|]. split; [exact R1|].
    intros _ tm Ht. rewrite Ht in T3. destruct T3 as (? & ? & ?).
    split; [congruence|]. split; congruence.
  - split; [exact H2|]. split; [exact I2|]. split; [exact C2|]. split; [exact R1|].
    intros [HT|HT]; [|discriminate].
    intros tm Ht. rewrite T2 in Ht. destruct (HT tm Ht) as (? & ? & ?).
    split; [congruence|]. split; congruence.
Qed.

Lemma paint_frame d s :
  history (paint d s) = history s /\ historyIndex (paint d s) = historyIndex s
  /\ snapshotTimer (paint d s) = snapshotTimer s
  /\ editableCode (paint d s) = editableCode s.
Proof. unfold paint. destruct (dDebounced d); cbn; auto. Qed.

Lemma HistInv_singleton content : truthy content = true -> HistInv [content] 0.
Proof.
  intros T. unfold HistInv, jsLength. cbn. split; [lia|]. split; [right; lia|].
  constructor; [apply truthy_nonEmpty; exact T | constructor].
Qed.

(** A render with its effects keeps the invariant, provided the pending
    snapshot timer is current or is about to be re-armed. *)
Lemma commit_inv d s :
  HistInv (history s) (historyIndex s) ->
  (TimerInv s \/ dEditable d || dHistory d || dIndex d = true) ->
  Inv (commit d s).
Proof.
  intros HI HT. unfold commit.
  destruct (paint_frame d s) as (Ph & Pi & Pt & Pc).
  pose proof (effects_frame d (paint d s)) as F. cbn zeta in F.
  destruct (effects d (paint d s)) as [s1 reset]. cbn [fst snd] in F.
  destruct F as (Fh & Fi & _ & Fr & Ft).
  destruct reset as [content|].
  - set (s2 := applyReset content s1).
    set (d2 := changed s1 s2 false true).
    pose proof (effects_frame d2 (paint d2 s2)) as G. cbn zeta in G.
    destruct (paint_frame d2 s2) as (Qh & Qi & _).
    destruct G as (Gh & Gi & _ & _ & Gt).
    split.
    + rewrite Gh, Gi, Qh, Qi. subst s2. cbn.
      apply HistInv_singleton, Fr; reflexivity.
    + apply Gt. right. subst d2. cbn. apply orb_true_iff. left. apply orb_true_r.
  - split.
    + rewrite Fh, Fi, Ph, Pi. exact HI.
    + apply Ft. destruct HT as [HT|HT]; [left|right; exact HT].
      intros tm Hm. rewrite Pt in Hm. rewrite Ph, Pi, Pc. exact (HT tm Hm).
Qed.

Lemma Inv_mount : Inv mount.
Proof.
  split.
  - cbn. unfold HistInv. cbn. split; [lia|]. split; [left; auto|constructor].
  - intros tm Hm. cbn in Hm. inversion Hm; subst. cbn. auto.
Qed.

Lemma setCreation_inv c s : Inv s -> Inv (setCreation c s).
Proof.
  intros [HI HT]. unfold setCreation. apply commit_inv; [exact HI | left; exact HT].
Qed.

Lemma edit_inv text s : Inv s -> Inv (edit text s).
Proof.
  intros [HI HT]. unfold edit. apply commit_inv; [exact HI|].
  destruct (String.eqb (editableCode s) text) eqn:E.
  - left. apply String.eqb_eq in E. intros tm Hm. cbn in *.
    destruct (HT tm Hm) as (? & ? & ?). split; [assumption|]. split; congruence.
  - right. cbn. unfold strNeq. rewrite E. reflexivity.
Qed.

Lemma handleSave_inv s : Inv s -> Inv (handleSave s).
Proof.
  intros [HI HT]. unfold handleSave. destruct (creation s) as [c|]; [|split; assumption].
  apply commit_inv; [exact HI | left; exact HT].
Qed.

Lemma jsIndex_Some h i :
  (0 <= i < jsLength h)%Z -> exists e, jsIndex h i = Some e.
Proof.
  unfold jsIndex, jsLength. intros Hi.
  destruct (i <? 0)%Z eqn:E; [apply Z.ltb_lt in E; lia|].
  destruct (nth_error h (Z.to_nat i)) as [e|] eqn:N; [eauto|].
  apply nth_error_None in N. lia.
Qed.

Lemma index_changed (i j : Z) : i <> j -> negb (i =? j)%Z = true.
Proof. intros H. apply negb_true_iff, Z.eqb_neq, H. Qed.

(** Under the invariant [handleUndo] never reads past the array. *)
Lemma handleUndo_inv s : Inv s -> exists s', handleUndo s = Some s' /\ Inv s'.
Proof.
  intros [HI HT]. unfold handleUndo.
  destruct (0 <? historyIndex s)%Z eqn:G; [|exists s; split; [reflexivity|split; assumption]].
  apply Z.ltb_lt in G.
  destruct HI as (Hlen & Hidx & Hne).
  destruct Hidx as [[_ Hi]|Hi]; [lia|].
  destruct (jsIndex_Some (history s) (historyIndex s - 1)) as [e He]; [lia|].
  rewrite He. eexists; split; [reflexivity|].
  apply commit_inv.
  - cbn. split; [exact Hlen|]. split; [right; lia|exact Hne].
  - right. cbn. rewrite (index_changed (historyIndex s) (historyIndex s - 1)) by lia.
    apply orb_true_r.
Qed.

Lemma handleRedo_inv s : Inv s -> exists s', handleRedo s = Some s' /\ Inv s'.
Proof.
  intros [HI HT]. unfold handleRedo.
  destruct (historyIndex s <? jsLength (history s) - 1)%Z eqn:G;
    [|exists s; split; [reflexivity|split; assumption]].
  apply Z.ltb_lt in G.
  destruct HI as (Hlen & Hidx & Hne).
  assert (Hi : (-1 <= historyIndex s)%Z) by (destruct Hidx as [[_ Hi]|Hi]; lia).
  destruct (jsIndex_Some (history s) (historyIndex s + 1)) as [e He]; [lia|].
  rewrite He. eexists; split; [reflexivity|].
  apply commit_inv.
  - cbn. split; [exact Hlen|]. split; [right; lia|exact Hne].
  - right. cbn. rewrite (index_changed (historyIndex s) (historyIndex s + 1)) by lia.
    apply orb_true_r.
Qed.

(** ** Pushing a snapshot *)

Lemma Forall_firstn (P : string -> Prop) n (l : list string) :
  Forall P l -> Forall P (firstn n l).
Proof.
  intros H. revert n. induction H as [|x l Hx Hl IH]; intros [|n]; cbn; constructor; auto.
Qed.

Lemma Forall_tl (P : string -> Prop) (l : list string) :
  Forall P l -> Forall P (tl l).
Proof. intros H. destruct H; cbn; [constructor | assumption]. Qed.

Lemma slice0_in_range h i :
  (0 <= i < jsLength h)%Z ->
  slice0 h (i + 1) = firstn (S (Z.to_nat i)) h
  /\ length (slice0 h (i + 1)) = S (Z.to_nat i).
Proof.
  unfold slice0, jsLength. intros Hi.
  destruct (i + 1 <? 0)%Z eqn:E; [apply Z.ltb_lt in E; lia|].
  replace (Z.to_nat (i + 1)) with (S (Z.to_nat i)) by lia.
  split; [reflexivity|]. rewrite length_firstn. lia.
Qed.

Lemma pushHistory_length h i e :
  (0 <= i < jsLength h)%Z -> (length h <= 100)%nat ->
  length (pushHistory h i e) = Nat.min (Z.to_nat i + 2) 100.
Proof.
  intros Hi Hlen. unfold pushHistory.
  destruct (slice0_in_range h i Hi) as [_ L].
  assert (La : length (slice0 h (i + 1) ++ [e]) = Z.to_nat i + 2)
    by (rewrite length_app, L; cbn; lia).
  unfold jsLength in *. rewrite La.
  destruct (100 <? Z.of_nat (Z.to_nat i + 2))%Z eqn:E.
  - apply Z.ltb_lt in E. rewrite length_tl, La. lia.
  - apply Z.ltb_ge in E. rewrite La. lia.
Qed.

Lemma push_HistInv h i e :
  HistInv h i -> (0 < jsLength h)%Z -> nonEmpty e ->
  HistInv (pushHistory h i e) (pushIndex i).
Proof.
  intros (Hlen & Hidx & Hne) Hpos He.
  assert (Hi : (0 <= i < jsLength h)%Z).
  { destruct Hidx as [[Hnil _]|Hi]; [subst h; cbn in Hpos; lia | exact Hi]. }
  pose proof (pushHistory_length h i e Hi Hlen) as L.
  unfold HistInv. split; [rewrite L; lia|]. split.
  - right. unfold jsLength in *. rewrite L. unfold pushIndex. lia.
  - unfold pushHistory.
    assert (F : Forall nonEmpty (slice0 h (i + 1) ++ [e])).
    { apply Forall_app. split.
      - destruct (slice0_in_range h i Hi) as [-> _]. apply Forall_firstn, Hne.
      - constructor; [exact He | constructor]. }
    destruct (100 <? _)%Z; [apply Forall_tl, F | exact F].
Qed.

(** ** Timers keep the invariant *)

Lemma firePreview_inv t s : Inv s -> Inv (firePreview t s).
Proof.
  intros [HI HT]. unfold firePreview.
  destruct (pCreation t) as [c|]; [destruct (strNeq (pCode t) (html c))|];
    (apply commit_inv; [exact HI | left; exact HT]).
Qed.

Lemma snapshotGuard_true t :
  snapshotGuard t = true ->
  nonEmpty (sCode t) /\ (0 < jsLength (sHistory t))%Z
  /\ neqEntry (sCode t) (jsIndex (sHistory t) (sIndex t)) = true.
Proof.
  unfold snapshotGuard. intros G.
  apply andb_true_iff in G. destruct G as [G G3].
  apply andb_true_iff in G. destruct G as [G1 G2].
  split; [apply truthy_nonEmpty, G1|]. split; [apply Z.ltb_lt, G2 | exact G3].
Qed.

Lemma fireSnapshot_inv t s :
  Inv s -> snapshotTimer s = Some t -> Inv (fireSnapshot t s).
Proof.
  intros [HI HT] Ht. unfold fireSnapshot.
  destruct (HT t Ht) as (Eh & Ei & _).
  destruct (snapshotGuard t) eqn:G.
  - apply snapshotGuard_true in G. destruct G as (Gne & Gpos & _).
    apply commit_inv.
    + cbn. rewrite Ei. apply push_HistInv; [exact HI | rewrite <- Eh; exact Gpos | exact Gne].
    + right. cbn. apply orb_true_iff. left. apply orb_true_r.
  - split; [exact HI|]. intros tm Hm. discriminate Hm.
Qed.

Lemma runPreview_inv s : Inv s -> Inv (runPreview s).
Proof.
  intros H. unfold runPreview.
  destruct (previewTimer s) as [t|]; [|exact H].
  destruct (pDue t <=? now s)%N; [apply firePreview_inv, H | exact H].
Qed.

Lemma runSnapshot_inv s : Inv s -> Inv (runSnapshot s).
Proof.
  intros H. unfold runSnapshot.
  destruct (snapshotTimer s) as [t|] eqn:E; [|exact H].
  destruct (sDue t <=? now s)%N; [apply fireSnapshot_inv; assumption | exact H].
Qed.

Lemma set_now_inv n s : Inv s -> Inv (set_now n s).
Proof. intros H. exact H. Qed.

Lemma tick_inv s : Inv s -> Inv (tick s).
Proof.
  intros H. unfold tick.
  destruct (snapshotFirst _).
  - apply runPreview_inv, runSnapshot_inv, set_now_inv, H.
  - apply runSnapshot_inv, runPreview_inv, set_now_inv, H.
Qed.

Lemma elapse_inv ms : forall s, Inv s -> Inv (elapse ms s).
Proof.
  induction ms as [|ms IH]; intros s H; cbn; [exact H | apply IH, tick_inv, H].
Qed.

Lemma step_inv e s : Inv s -> exists s', step e s = Some s' /\ Inv s'.
Proof.
  intros H. destruct e as [c|text| | | |]; cbn.
  - eexists; split; [reflexivity | apply setCreation_inv, H].
  - eexists; split; [reflexivity | apply edit_inv, H].
  - apply handleUndo_inv, H.
  - apply handleRedo_inv, H.
  - eexists; split; [reflexivity | apply handleSave_inv, H].
  - eexists; split; [reflexivity | apply tick_inv, H].
Qed.

(** Every run from the mounted component completes, in a state that
    satisfies the invariant. *)
Lemma run_inv es : forall s, Inv s -> exists s', run es s = Some s' /\ Inv s'.
Proof.
  induction es as [|e es IH]; intros s H; cbn.
  - exists s. auto.
  - destruct (step_inv e s H) as (s1 & E1 & H1). rewrite E1. apply IH, H1.
Qed.

(** ** What a render without a reset leaves alone *)

Arguments commit : simpl never.
Arguments effects : simpl never.
Arguments paint : simpl never.

Lemma loadEffect_core s : core (fst (loadEffect s)) = core s.
Proof. unfold loadEffect. split_ifs; reflexivity. Qed.

Lemma previewEffect_core s : core (previewEffect s) = core s.
Proof. unfold previewEffect. split_ifs; reflexivity. Qed.

Lemma snapshotEffect_core s : core (snapshotEffect s) = core s.
Proof. unfold snapshotEffect. split_ifs; reflexivity. Qed.

Lemma paint_core d s : core (paint d s) = core s.
Proof. unfold paint. split_ifs; reflexivity. Qed.

Lemma effects_core d s : core (fst (effects d s)) = core s.
Proof.
  unfold effects.
  destruct (if dCreation d then loadEffect s else (s, None)) as [s1 reset] eqn:E1.
  assert (C1 : core s1 = core s).
  { destruct (dCreation d); [|inversion E1; reflexivity].
    rewrite <- (loadEffect_core s), E1. reflexivity. }
  cbn [fst].
  destruct (dEditable d || dHistory d || dIndex d);
    destruct (dEditable d || dDebounced d || dCreation d);
    rewrite ?snapshotEffect_core, ?previewEffect_core; exact C1.
Qed.

Lemma loadEffect_reset s : snd (loadEffect s) = queuedReset s.
Proof. unfold loadEffect, queuedReset. split_ifs; reflexivity. Qed.

Lemma effects_reset d s :
  snd (effects d s) = if dCreation d then queuedReset s else None.
Proof.
  unfold effects. rewrite <- loadEffect_reset.
  destruct (dCreation d); [destruct (loadEffect s)|]; reflexivity.
Qed.

Lemma queuedReset_paint d s : queuedReset (paint d s) = queuedReset s.
Proof. unfold paint. destruct (dDebounced d); reflexivity. Qed.

Lemma commit_noreset d s :
  (if dCreation d then queuedReset s else None) = None ->
  commit d s = fst (effects d (paint d s)).
Proof.
  intros H. unfold commit.
  pose proof (effects_reset d (paint d s)) as R. rewrite queuedReset_paint, H in R.
  destruct (effects d (paint d s)) as [s1 reset]. cbn in R. subst reset. reflexivity.
Qed.

Lemma commit_core d s :
  (if dCreation d then queuedReset s else None) = None ->
  core (commit d s) = core s.
Proof.
  intros H. rewrite (commit_noreset d s H), effects_core. apply paint_core.
Qed.

Ltac core_eqs H :=
  unfold core in H; cbn in H; injection H; clear H; intros.

(** ** Undo, redo and the snapshot push, field by field *)

Lemma effects_flagged d s :
  dCreation d = false -> dIndex d = true -> isInternalChange s = true ->
  snapshotTimer (fst (effects d s)) = None
  /\ isInternalChange (fst (effects d s)) = false.
Proof.
  intros Hc Hi Hf. unfold effects. rewrite Hc, Hi. cbn [fst].
  replace (dEditable d || dHistory d || true) with true by (symmetry; apply orb_true_r).
  set (s2 := if dEditable d || dDebounced d || false then previewEffect s else s).
  assert (F : isInternalChange s2 = true).
  { subst s2. destruct (dEditable d || dDebounced d || false); [|exact Hf].
    destruct (previewEffect_frame s) as (_ & _ & _ & _ & ->). exact Hf. }
  unfold snapshotEffect. rewrite F. cbn. auto.
Qed.

(** What [handleUndo] and [handleRedo] do once their guard passed and the
    entry exists. *)
Lemma restore_spec s nextIdx code :
  nextIdx <> historyIndex s ->
  let s' := set_editableCode code
              (set_historyIndex nextIdx (set_isInternalChange true s)) in
  let r := commit (changed s s' false false) s' in
  editableCode r = code /\ historyIndex r = nextIdx /\ history r = history s
  /\ snapshotTimer r = None /\ isInternalChange r = false
  /\ historyPushes r = historyPushes s /\ onUpdateCalls r = onUpdateCalls s.
Proof.
  intros Hn s' r.
  assert (Hd : dIndex (changed s s' false false) = true).
  { cbn. apply index_changed. congruence. }
  assert (Hr : r = fst (effects (changed s s' false false) (paint (changed s s' false false) s')))
    by (apply commit_noreset; reflexivity).
  pose proof (commit_core (changed s s' false false) s' eq_refl) as C.
  fold r in C. core_eqs C.
  destruct (effects_flagged (changed s s' false false)
              (paint (changed s s' false false) s') eq_refl Hd) as [T F].
  { unfold paint. destruct (dDebounced _); reflexivity. }
  rewrite <- Hr in T, F. repeat split; assumption.
Qed.

Lemma handleUndo_spec s e :
  (0 < historyIndex s)%Z ->
  jsIndex (history s) (historyIndex s - 1) = Some e ->
  exists s', handleUndo s = Some s'
             /\ editableCode s' = e /\ historyIndex s' = (historyIndex s - 1)%Z
             /\ history s' = history s
             /\ snapshotTimer s' = None /\ isInternalChange s' = false
             /\ historyPushes s' = historyPushes s /\ onUpdateCalls s' = onUpdateCalls s.
Proof.
  intros G E. unfold handleUndo.
  apply Z.ltb_lt in G. rewrite G, E. eexists; split; [reflexivity|].
  apply restore_spec. lia.
Qed.

Lemma handleRedo_spec s e :
  (historyIndex s < jsLength (history s) - 1)%Z ->
  jsIndex (history s) (historyIndex s + 1) = Some e ->
  exists s', handleRedo s = Some s'
             /\ editableCode s' = e /\ historyIndex s' = (historyIndex s + 1)%Z
             /\ history s' = history s
             /\ snapshotTimer s' = None /\ isInternalChange s' = false
             /\ historyPushes s' = historyPushes s /\ onUpdateCalls s' = onUpdateCalls s.
Proof.
  intros G E. unfold handleRedo.
  apply Z.ltb_lt in G. rewrite G, E. eexists; split; [reflexivity|].
  apply restore_spec. lia.
Qed.

(** What the snapshot timer's callback does to the history. *)
Lemma fireSnapshot_spec t s :
  let r := fireSnapshot t s in
  if snapshotGuard t then
    history r = pushHistory (history s) (sIndex t) (sCode t)
    /\ historyIndex r = pushIndex (historyIndex s)
    /\ historyPushes r = sCode t :: historyPushes s
  else r = set_snapshotTimer None s.
Proof.
  intros r. subst r. unfold fireSnapshot. destruct (snapshotGuard t); [|reflexivity].
  match goal with |- context [commit ?d ?x] => pose proof (commit_core d x eq_refl) as C end.
  core_eqs C. repeat split; assumption.
Qed.

Lemma tl_app_single (h : list string) e : h <> [] -> tl (h ++ [e]) = (tl h ++ [e])%list.
Proof. destruct h; [congruence | reflexivity]. Qed.

(** A push onto a full history drops the oldest entry and leaves the index
    on the last slot. *)
Lemma push_at_capacity h i e :
  HistInv h i -> (0 < jsLength h)%Z ->
  (100 < jsLength (slice0 h (i + 1) ++ [e]))%Z ->
  i = 99%Z /\ length h = 100
  /\ pushHistory h i e = (tl h ++ [e])%list /\ pushIndex i = (i + 1 - 1)%Z.
Proof.
  intros (Hlen & Hidx & _) Hpos Hover.
  assert (Hi : (0 <= i < jsLength h)%Z).
  { destruct Hidx as [[Hnil _]|Hi]; [subst h; cbn in Hpos; lia | exact Hi]. }
  destruct (slice0_in_range h i Hi) as [Es Ls].
  assert (La : length (slice0 h (i + 1) ++ [e]) = Z.to_nat i + 2)
    by (rewrite length_app, Ls; cbn; lia).
  unfold jsLength in *. rewrite La in Hover.
  assert (i = 99%Z) by lia. subst i.
  assert (length h = 100) by lia.
  split; [reflexivity|]. split; [assumption|]. split; [|reflexivity].
  unfold pushHistory, jsLength. rewrite La. cbn [Z.ltb].
  replace (100 <? Z.of_nat (Z.to_nat 99 + 2))%Z with true by reflexivity.
  rewrite Es, firstn_all2 by lia.
  apply tl_app_single. intros ->. cbn in *. lia.
Qed.

(** ** The history stack over every run *)

(** C3.  After every sequence of loads, edits, undos, redos, saves and
    timer ticks from the mounted component the run completes and the
    history has at most 100 entries; when it is not empty the index lies
    within it; the redo button is enabled exactly when
    [index < length - 1] and the undo button exactly when [index > 0], and
    the handlers move the index by one exactly then; and a snapshot push
    that would exceed the capacity drops the oldest entry and leaves the
    index one below [index + 1], on the entry just pushed. *)
Theorem history_stack_bounded :
  forall es, exists s,
    run es mount = Some s
    /\ (length (history s) <= 100)%nat
    /\ ((0 < jsLength (history s))%Z ->
        (0 <= historyIndex s < jsLength (history s))%Z)
    /\ (redoAvailable s = true <-> (historyIndex s < jsLength (history s) - 1)%Z)
    /\ (undoAvailable s = true <-> (0 < historyIndex s)%Z)
    /\ (exists s', handleUndo s = Some s'
                   /\ historyIndex s' = if undoAvailable s
                                        then (historyIndex s - 1)%Z
                                        else historyIndex s)
    /\ (exists s', handleRedo s = Some s'
                   /\ historyIndex s' = if redoAvailable s
                                        then (historyIndex s + 1)%Z
                                        else historyIndex s)
    /\ (forall t, snapshotTimer s = Some t -> snapshotGuard t = true ->
          (100 < jsLength (slice0 (history s) (sIndex t + 1) ++ [sCode t]))%Z ->
          history (fireSnapshot t s) = (tl (history s) ++ [sCode t])%list
          /\ historyIndex (fireSnapshot t s) = (historyIndex s + 1 - 1)%Z
          /\ jsIndex (history (fireSnapshot t s)) (historyIndex (fireSnapshot t s))
             = Some (sCode t)).
Proof.
  intros es. destruct (run_inv es mount Inv_mount) as (s & Hrun & HI & HT).
  exists s. split; [exact Hrun|].
  pose proof HI as (Hlen & Hidx & Hne).
  split; [exact Hlen|]. split.
  { intros Hpos. destruct Hidx as [[Hnil _]|Hi]; [rewrite Hnil in Hpos; cbn in Hpos; lia | exact Hi]. }
  assert (Hredo : redoAvailable s = true <-> (historyIndex s < jsLength (history s) - 1)%Z).
  { unfold redoAvailable. rewrite negb_true_iff, Z.leb_gt. reflexivity. }
  assert (Hundo : undoAvailable s = true <-> (0 < historyIndex s)%Z).
  { unfold undoAvailable. rewrite negb_true_iff, Z.leb_gt. reflexivity. }
  split; [exact Hredo|]. split; [exact Hundo|]. split; [|split].
  - destruct (undoAvailable s) eqn:A.
    + assert (G : (0 < historyIndex s)%Z) by (apply Hundo; reflexivity).
      destruct (jsIndex_Some (history s) (historyIndex s - 1)) as [e He].
      { destruct Hidx as [[_ Hi]|Hi]; lia. }
      destruct (handleUndo_spec s e G He) as (s' & E & _ & Hi' & _).
      exists s'. auto.
    + exists s. split; [|reflexivity]. unfold handleUndo.
      destruct (0 <? historyIndex s)%Z eqn:G; [|reflexivity].
      apply Z.ltb_lt, Hundo in G. discriminate G.
  - destruct (redoAvailable s) eqn:A.
    + assert (G : (historyIndex s < jsLength (history s) - 1)%Z) by (apply Hredo; reflexivity).
      destruct (jsIndex_Some (history s) (historyIndex s + 1)) as [e He].
      { destruct Hidx as [[_ Hi]|Hi]; lia. }
      destruct (handleRedo_spec s e G He) as (s' & E & _ & Hi' & _).
      exists s'. auto.
    + exists s. split; [|reflexivity]. unfold handleRedo.
      destruct (historyIndex s <? jsLength (history s) - 1)%Z eqn:G; [|reflexivity].
      apply Z.ltb_lt, Hredo in G. discriminate G.
  - intros t Ht G Hover. destruct (HT t Ht) as (Eh & Ei & _).
    pose proof (fireSnapshot_spec t s) as F. cbn zeta in F. rewrite G in F.
    destruct F as (Fh & Fi & _).
    apply snapshotGuard_true in G. destruct G as (_ & Gpos & _).
    rewrite Eh in Gpos. rewrite Ei in Hover, Fh.
    destruct (push_at_capacity _ _ _ HI Gpos Hover) as (I99 & L100 & Ph & Pi).
    rewrite Fh, Fi, Ph, Pi. split; [reflexivity|]. split; [reflexivity|].
    rewrite I99. change (99 + 1 - 1)%Z with 99%Z. unfold jsIndex.
    change (99 <? 0)%Z with false. change (Z.to_nat 99) with 99. cbv iota.
    rewrite nth_error_app2 by (rewrite length_tl; lia).
    rewrite length_tl, L100. reflexivity.
Qed.

Lemma history_stack_bounded_witness :
  exists s t,
    run fillRun mount = Some s
    /\ snapshotTimer s = Some t /\ snapshotGuard t = true
    /\ (100 < jsLength (slice0 (history s) (sIndex t + 1) ++ [sCode t]))%Z
    /\ length (history s) = 100
    /\ history (fireSnapshot t s) = (tl (history s) ++ [sCode t])%list
    /\ historyIndex (fireSnapshot t s) = 99%Z.
Proof.
  destruct (history_stack_bounded fillRun)
    as (s & Hrun & _ & _ & _ & _ & _ & _ & Hev).
  vm_compute in Hrun. injection Hrun as <-.
  eexists. eexists. split; [vm_compute; reflexivity|].
  split; [reflexivity|]. split; [reflexivity|]. split; [reflexivity|].
  split; [reflexivity|].
  match type of Hev with
  | forall t, ?a = Some t -> _ =>
      destruct (Hev _ eq_refl eq_refl eq_refl) as (Eh & Ei & _)
  end.
  split; [exact Eh | exact Ei].
Defined.

(** ** Time passing while no timer is due *)

Lemma runPreview_idle s : previewAfter (now s) s -> runPreview s = s.
Proof.
  unfold runPreview, previewAfter. intros H.
  destruct (previewTimer s) as [p|]; [|reflexivity].
  specialize (H p eq_refl). apply N.leb_gt in H. rewrite H. reflexivity.
Qed.

Lemma runSnapshot_idle s : snapshotAfter (now s) s -> runSnapshot s = s.
Proof.
  unfold runSnapshot, snapshotAfter. intros H.
  destruct (snapshotTimer s) as [t|]; [|reflexivity].
  specialize (H t eq_refl). apply N.leb_gt in H. rewrite H. reflexivity.
Qed.

Lemma tick_idle s :
  previewAfter (N.succ (now s)) s -> snapshotAfter (N.succ (now s)) s ->
  tick s = set_now (N.succ (now s)) s.
Proof.
  intros Hp Hs. unfold tick.
  assert (P : runPreview (set_now (N.succ (now s)) s) = set_now (N.succ (now s)) s)
    by (apply runPreview_idle; exact Hp).
  assert (Q : runSnapshot (set_now (N.succ (now s)) s) = set_now (N.succ (now s)) s)
    by (apply runSnapshot_idle; exact Hs).
  destruct (snapshotFirst _); rewrite ?P, ?Q, ?P; reflexivity.
Qed.

Lemma set_now_set_now a b s : set_now a (set_now b s) = set_now a s.
Proof. reflexivity. Qed.

Lemma set_now_same s : set_now (now s) s = s.
Proof. destruct s; reflexivity. Qed.

Lemma elapse_idle ms : forall s,
  previewAfter (now s + N.of_nat ms) s -> snapshotAfter (now s + N.of_nat ms) s ->
  elapse ms s = set_now (now s + N.of_nat ms) s.
Proof.
  induction ms as [|ms IH]; intros s Hp Hs.
  - cbn [elapse]. replace (now s + N.of_nat 0)%N with (now s) by lia.
    symmetry. apply set_now_same.
  - cbn [elapse]. rewrite tick_idle.
    + rewrite IH.
      * rewrite set_now_set_now. cbn [now set_now]. f_equal. lia.
      * intros p E. cbn in *. specialize (Hp p E). lia.
      * intros t E. cbn in *. specialize (Hs t E). lia.
    + intros p E. specialize (Hp p E). lia.
    + intros t E. specialize (Hs t E). lia.
Qed.

Lemma elapse_add a : forall b s, elapse (a + b) s = elapse b (elapse a s).
Proof. induction a as [|a IH]; intros b s; cbn [elapse Nat.add]; [reflexivity | apply IH]. Qed.

Arguments strNeq : simpl never.
Arguments truthy : simpl never.
Arguments pushHistory : simpl never.
Arguments pushIndex : simpl never.
Arguments jsIndex : simpl never.
Arguments snapshotGuard : simpl never.
Arguments idDiffers : simpl never.
Arguments idOrNull : simpl never.
Arguments String.eqb : simpl never.
Arguments N.add : simpl never.
Arguments N.succ : simpl never.

(** ** The effects as one assignment per cell *)

Lemma effects_fst d s : fst (effects d s) = effectsResult d s.
Proof.
  destruct d as [dc de dd dh di], s as [cr e db sy ls h i fl pv pt st nw ns uc hp sd].
  unfold effects, effectsResult, stampAfterPreview, previewRuns, snapshotRuns, inSync,
    loadEffect, previewEffect, snapshotEffect.
  cbn [creation editableCode debouncedCode isSyncing lastSaved history historyIndex
       isInternalChange prevCreationId previewTimer snapshotTimer now nextStamp
       onUpdateCalls historyPushes srcDocs dCreation dEditable dDebounced dHistory dIndex].
  destruct (idDiffers cr pv), cr as [c|]; try destruct (truthy (html c));
    destruct dc; cbn; destruct (String.eqb e db); destruct de, dd; cbn;
    destruct fl, dh, di; reflexivity.
Qed.

Lemma paint_eq d s :
  paint d s = set_srcDocs (if dDebounced d then debouncedCode s :: srcDocs s else srcDocs s) s.
Proof. unfold paint. destruct (dDebounced d), s; reflexivity. Qed.

Lemma commit_eq d s :
  (if dCreation d then queuedReset s else None) = None ->
  commit d s = effectsResult d (paint d s).
Proof. intros H. rewrite (commit_noreset d s H). apply effects_fst. Qed.

(** ** Booleans of the model *)

Lemma strNeq_refl a : strNeq a a = false.
Proof. unfold strNeq. rewrite String.eqb_refl. reflexivity. Qed.

Lemma strNeq_true a b : a <> b -> strNeq a b = true.
Proof. intros H. unfold strNeq. apply negb_true_iff, String.eqb_neq, H. Qed.

Lemma strNeq_true_iff a b : strNeq a b = true <-> a <> b.
Proof. unfold strNeq. rewrite negb_true_iff. apply String.eqb_neq. Qed.

Lemma strNeq_false_iff a b : strNeq a b = false <-> a = b.
Proof. unfold strNeq. rewrite negb_false_iff. apply String.eqb_eq. Qed.

Lemma truthy_true_iff a : truthy a = true <-> a <> "".
Proof. apply strNeq_true_iff. Qed.

Lemma eqb_false a b : a <> b -> String.eqb a b = false.
Proof. apply String.eqb_neq. Qed.

Lemma neqEntry_false_iff a e : neqEntry a e = false <-> e = Some a.
Proof.
  destruct e as [b|]; cbn; [|split; discriminate].
  rewrite strNeq_false_iff. split; [intros ->; reflexivity | intros H; congruence].
Qed.

Lemma snapshotGuard_true_iff t :
  snapshotGuard t = true <->
  sCode t <> "" /\ sHistory t <> [] /\ jsIndex (sHistory t) (sIndex t) <> Some (sCode t).
Proof.
  unfold snapshotGuard. rewrite !andb_true_iff, truthy_true_iff, Z.ltb_lt.
  assert (L : (0 < jsLength (sHistory t))%Z <-> sHistory t <> []).
  { unfold jsLength. destruct (sHistory t); cbn; split; intros; try lia; congruence. }
  rewrite L.
  assert (E : neqEntry (sCode t) (jsIndex (sHistory t) (sIndex t)) = true
              <-> jsIndex (sHistory t) (sIndex t) <> Some (sCode t)).
  { rewrite <- not_false_iff_true, neqEntry_false_iff. reflexivity. }
  rewrite E. tauto.
Qed.

Create Rewrite HintDb model.
#[local] Hint Rewrite strNeq_refl String.eqb_refl Z.eqb_refl N.eqb_refl N.leb_refl N.ltb_irrefl
     orb_false_r orb_true_r andb_false_r andb_true_r orb_false_l orb_true_l
     andb_false_l andb_true_l : model.

(** ** The preview timer's callback, cell by cell *)

Lemma firePreview_fields p s :
  (forall c, pCreation p = Some c -> prevCreationId s = Some (id c)) ->
  pCode p = editableCode s ->
  let r := firePreview p s in
  (editableCode r = editableCode s /\ history r = history s
   /\ historyIndex r = historyIndex s /\ historyPushes r = historyPushes s
   /\ isInternalChange r = isInternalChange s /\ snapshotTimer r = snapshotTimer s
   /\ prevCreationId r = prevCreationId s /\ now r = now s)
  /\ previewTimer r = None /\ debouncedCode r = pCode p /\ isSyncing r = false
  /\ srcDocs r = (if strNeq (debouncedCode s) (pCode p)
                  then pCode p :: srcDocs s else srcDocs s)
  /\ match previewPersists p with
     | Some c => creation r = Some (updated c (pCode p) (now s))
                 /\ onUpdateCalls r = updated c (pCode p) (now s) :: onUpdateCalls s
                 /\ lastSaved r = Some (now s)
     | None => creation r = creation s /\ onUpdateCalls r = onUpdateCalls s
               /\ lastSaved r = lastSaved s
     end.
Proof.
  intros Hid Hcode r. subst r. unfold firePreview, previewPersists.
  destruct (pCreation p) as [c|] eqn:Ec; [destruct (strNeq (pCode p) (html c)) eqn:Ep|].
  - rewrite commit_eq.
    2:{ cbn. unfold queuedReset. cbn. rewrite (Hid c eq_refl). unfold idDiffers. cbn.
        rewrite strNeq_refl. reflexivity. }
    rewrite paint_eq. unfold effectsResult, previewRuns, snapshotRuns, inSync.
    cbn. rewrite (Hid c eq_refl), Hcode. unfold idDiffers. cbn.
    autorewrite with model. cbn. repeat split; reflexivity.
  - rewrite commit_eq by reflexivity.
    rewrite paint_eq. unfold effectsResult, previewRuns, snapshotRuns, inSync.
    cbn. rewrite Hcode. autorewrite with model. cbn.
    destruct (strNeq (debouncedCode s) (editableCode s)); cbn; repeat split; reflexivity.
  - rewrite commit_eq by reflexivity.
    rewrite paint_eq. unfold effectsResult, previewRuns, snapshotRuns, inSync.
    cbn. rewrite Hcode. autorewrite with model. cbn.
    destruct (strNeq (debouncedCode s) (editableCode s)); cbn; repeat split; reflexivity.
Qed.

(** ** Time passing while no push is pending *)

Lemma Quiet_refl s : Coherent s -> SnapshotSpent s -> Quiet s s.
Proof.
  intros C Q. split; [exact C|]. split; [exact Q|]. split.
  - unfold StillHist. repeat split; reflexivity.
  - intros N. unfold StillAll. repeat split; (reflexivity || exact N).
Qed.

Lemma Quiet_trans s r u : Quiet s r -> Quiet r u -> Quiet s u.
Proof.
  intros (_ & _ & (A1 & A2 & A3 & A4 & A5) & SA) (C & Q & (B1 & B2 & B3 & B4 & B5) & SB).
  split; [exact C|]. split; [exact Q|]. split.
  - unfold StillHist. repeat split; congruence.
  - intros N. destruct (SA N) as (P1 & P2 & P3 & P4 & P5 & P6).
    destruct (SB P1) as (R1 & R2 & R3 & R4 & R5 & R6).
    unfold StillAll. repeat split; congruence.
Qed.

Lemma set_now_quiet n s : Coherent s -> SnapshotSpent s -> Quiet s (set_now n s).
Proof.
  intros C Q. split; [exact C|]. split; [exact Q|]. split.
  - unfold StillHist. repeat split; reflexivity.
  - intros N. unfold StillAll. repeat split; (reflexivity || exact N).
Qed.

Lemma runSnapshot_quiet s : Coherent s -> SnapshotSpent s -> Quiet s (runSnapshot s).
Proof.
  intros C Q. unfold runSnapshot.
  destruct (snapshotTimer s) as [t|] eqn:E; [|apply Quiet_refl; assumption].
  destruct (sDue t <=? now s)%N; [|apply Quiet_refl; assumption].
  unfold fireSnapshot. rewrite (Q t E).
  split; [exact C|]. split; [intros t' E'; discriminate E'|]. split.
  - unfold StillHist. repeat split; reflexivity.
  - intros N. unfold StillAll. repeat split; (reflexivity || exact N).
Qed.

Lemma runPreview_quiet s : Coherent s -> SnapshotSpent s -> Quiet s (runPreview s).
Proof.
  intros C Q. unfold runPreview.
  destruct (previewTimer s) as [p|] eqn:E; [|apply Quiet_refl; assumption].
  destruct (pDue p <=? now s)%N; [|apply Quiet_refl; assumption].
  destruct C as [Cid Cp]. destruct (Cp p E) as [Ecr Ecode].
  assert (Hid : forall c, pCreation p = Some c -> prevCreationId s = Some (id c)).
  { intros c Hc. apply Cid. congruence. }
  pose proof (firePreview_fields p s Hid Ecode) as F. cbn zeta in F.
  destruct F as ((F1 & F2 & F3 & F4 & F5 & F6 & F7 & F8) & Fp & Fd & _ & _ & Fc).
  split; [|split; [|split]].
  - split.
    + intros c Hc. rewrite F7. unfold previewPersists in Fc.
      destruct (pCreation p) as [c0|] eqn:Ec0.
      * destruct (strNeq (pCode p) (html c0)).
        -- destruct Fc as (Fc & _). rewrite Fc in Hc. inversion Hc; subst. cbn.
           apply Hid. reflexivity.
        -- destruct Fc as (Fc & _). apply Cid. congruence.
      * destruct Fc as (Fc & _). apply Cid. congruence.
    + intros p' E'. rewrite Fp in E'. discriminate E'.
  - intros t Ht. rewrite F6 in Ht. apply Q, Ht.
  - unfold StillHist. repeat split; assumption.
  - intros Hn. congruence.
Qed.

Lemma tick_quiet s : Coherent s -> SnapshotSpent s -> Quiet s (tick s).
Proof.
  intros C Q. unfold tick.
  pose proof (set_now_quiet (N.succ (now s)) s C Q) as Q0.
  destruct (snapshotFirst _).
  - pose proof Q0 as (C0 & S0 & _).
    pose proof (runSnapshot_quiet _ C0 S0) as Q1. pose proof Q1 as (C1 & S1 & _).
    pose proof (runPreview_quiet _ C1 S1) as Q2.
    exact (Quiet_trans _ _ _ Q0 (Quiet_trans _ _ _ Q1 Q2)).
  - pose proof Q0 as (C0 & S0 & _).
    pose proof (runPreview_quiet _ C0 S0) as Q1. pose proof Q1 as (C1 & S1 & _).
    pose proof (runSnapshot_quiet _ C1 S1) as Q2.
    exact (Quiet_trans _ _ _ Q0 (Quiet_trans _ _ _ Q1 Q2)).
Qed.

(** While no push is pending no amount of time changes the buffer or the
    history; with no preview timer pending either, nothing is persisted or
    rendered. *)
Lemma elapse_quiet ms : forall s, Coherent s -> SnapshotSpent s -> Quiet s (elapse ms s).
Proof.
  induction ms as [|ms IH]; intros s C Q; cbn [elapse].
  - apply Quiet_refl; assumption.
  - pose proof (tick_quiet s C Q) as Q1. pose proof Q1 as (C1 & S1 & _).
    exact (Quiet_trans _ _ _ Q1 (IH _ C1 S1)).
Qed.

(** ** An edit and a push, cell by cell *)

Lemma edit_fields text s :
  editableCode s <> text -> isInternalChange s = false ->
  let r := edit text s in
  (creation r = creation s /\ debouncedCode r = debouncedCode s
   /\ history r = history s /\ historyIndex r = historyIndex s
   /\ onUpdateCalls r = onUpdateCalls s /\ historyPushes r = historyPushes s
   /\ srcDocs r = srcDocs s /\ prevCreationId r = prevCreationId s /\ now r = now s)
  /\ editableCode r = text /\ isInternalChange r = false
  /\ previewTimer r =
       (if String.eqb text (debouncedCode s) then None
        else Some (mkPreviewTimer (now s + 800) (nextStamp s) text (creation s)))
  /\ (exists k, snapshotTimer r =
                Some (mkSnapshotTimer (now s + 1000) k text (history s) (historyIndex s))).
Proof.
  intros Hne Hf r. subst r. unfold edit.
  rewrite commit_eq by reflexivity. rewrite paint_eq.
  unfold effectsResult, previewRuns, snapshotRuns, inSync. cbn.
  rewrite (strNeq_true _ _ Hne), Hf. autorewrite with model. cbn.
  split; [repeat split; reflexivity|]. split; [reflexivity|]. split; [reflexivity|].
  split; [reflexivity|]. eexists. reflexivity.
Qed.

Lemma fireSnapshot_fields t s :
  snapshotGuard t = true -> isInternalChange s = false ->
  let r := fireSnapshot t s in
  (creation r = creation s /\ editableCode r = editableCode s
   /\ debouncedCode r = debouncedCode s /\ onUpdateCalls r = onUpdateCalls s
   /\ srcDocs r = srcDocs s /\ prevCreationId r = prevCreationId s /\ now r = now s
   /\ previewTimer r = previewTimer s /\ isInternalChange r = false
   /\ isSyncing r = isSyncing s)
  /\ history r = pushHistory (history s) (sIndex t) (sCode t)
  /\ historyIndex r = pushIndex (historyIndex s)
  /\ historyPushes r = sCode t :: historyPushes s
  /\ (exists k, snapshotTimer r =
                Some (mkSnapshotTimer (now s + 1000) k (editableCode s)
                        (pushHistory (history s) (sIndex t) (sCode t))
                        (pushIndex (historyIndex s)))).
Proof.
  intros G Hf r. subst r. unfold fireSnapshot. rewrite G.
  rewrite commit_eq by reflexivity. rewrite paint_eq.
  unfold effectsResult, previewRuns, snapshotRuns, inSync. cbn.
  rewrite Hf. autorewrite with model. cbn.
  split; [repeat split; reflexivity|]. split; [reflexivity|]. split; [reflexivity|].
  split; [reflexivity|]. eexists. reflexivity.
Qed.

(** After a push the index is on the entry just pushed. *)
Lemma push_lookup h i e :
  HistInv h i -> (0 < jsLength h)%Z ->
  jsIndex (pushHistory h i e) (pushIndex i) = Some e.
Proof.
  intros HI Hpos. pose proof HI as (Hlen & Hidx & _).
  assert (Hi : (0 <= i < jsLength h)%Z).
  { destruct Hidx as [[Hnil _]|Hi]; [subst h; cbn in Hpos; lia | exact Hi]. }
  destruct (slice0_in_range h i Hi) as [Es Ls].
  assert (La : length (slice0 h (i + 1) ++ [e]) = Z.to_nat i + 2)
    by (rewrite length_app, Ls; cbn; lia).
  unfold jsIndex, pushIndex.
  destruct (Z.min (i + 1) 99 <? 0)%Z eqn:E; [apply Z.ltb_lt in E; lia|].
  unfold pushHistory, jsLength in *. rewrite La.
  destruct (100 <? Z.of_nat (Z.to_nat i + 2))%Z eqn:C.
  - apply Z.ltb_lt in C. assert (i = 99%Z) by lia. subst i.
    rewrite Es, firstn_all2 by lia.
    rewrite tl_app_single by (intros ->; cbn in Hi; lia).
    change (Z.to_nat (Z.min (99 + 1) 99)) with 99.
    rewrite nth_error_app2 by (rewrite length_tl; lia).
    rewrite length_tl. replace (99 - (length h - 1)) with 0 by lia. reflexivity.
  - apply Z.ltb_ge in C.
    replace (Z.to_nat (Z.min (i + 1) 99)) with (length (slice0 h (i + 1))) by lia.
    rewrite nth_error_app2 by lia. rewrite Nat.sub_diag. reflexivity.
Qed.

(** ** A burst, edit by edit *)

Lemma Settled_Base c s : Settled c s -> Base s c s.
Proof.
  intros (H1 & H2 & H3 & H4 & H5 & _). unfold Base. repeat split; auto.
Qed.

Section Burst.

(** The state [s0] the burst began in and the artifact [c] loaded there. *)
Variables (s0 : State) (c : Creation).

Lemma edit_mid text s :
  Base s0 c s -> editableCode s <> text -> Mid s0 c text (edit text s).
Proof.
  intros (B1 & B2 & B3 & B4 & B5 & B6 & B7 & B8 & B9) Hne.
  pose proof (edit_fields text s Hne B4) as F. cbn zeta in F.
  destruct F as ((F1 & F2 & F3 & F4 & F5 & F6 & F7 & F8 & F9) & Fe & Ff & Fp & (k & Fs)).
  split; [|split; [exact Fe|split]].
  - unfold Base. repeat split; congruence.
  - exists (nextStamp s). rewrite Fp, B3, B1, F9. reflexivity.
  - exists k. rewrite Fs, B5, B6, F9. reflexivity.
Qed.

Lemma idle_mid text s gap :
  Mid s0 c text s -> gap < 800 ->
  Base s0 c (elapse gap s) /\ editableCode (elapse gap s) = text.
Proof.
  intros (B & He & (kp & Hp) & (ks & Hs)) Hg.
  rewrite elapse_idle.
  - split; [exact B | exact He].
  - intros p E. rewrite Hp in E. destruct (String.eqb text (html c)); [discriminate|].
    inversion E; subst. cbn. lia.
  - intros t E. rewrite Hs in E. inversion E; subst. cbn. lia.
Qed.

Lemma burst_mid rest : forall text s,
  Mid s0 c text s -> burstOk 800 text rest ->
  Mid s0 c (lastText text rest) (burst rest s).
Proof.
  induction rest as [|[gap text'] rest IH]; intros text s M Hok; cbn in *.
  - exact M.
  - destruct Hok as (Hg & Hne & Hok).
    destruct (idle_mid text s gap M Hg) as [B He].
    apply IH; [|exact Hok]. apply edit_mid; [exact B | congruence].
Qed.

End Burst.

(** ** A timer running alone *)

Lemma tick_fires_preview s p :
  previewTimer s = Some p -> pDue p = N.succ (now s) ->
  snapshotAfter (N.succ (now s)) s ->
  tick s = runSnapshot (firePreview p (set_now (N.succ (now s)) s)).
Proof.
  intros Hp Hd Hs. unfold tick.
  assert (F : snapshotFirst (set_now (N.succ (now s)) s) = false).
  { unfold snapshotFirst. cbn. rewrite Hp.
    destruct (snapshotTimer s) as [t|] eqn:E; [|reflexivity].
    specialize (Hs t E). rewrite Hd.
    apply orb_false_iff. split; [apply N.ltb_ge; lia|].
    apply andb_false_iff. left. apply N.eqb_neq. lia. }
  rewrite F. unfold runPreview at 1. cbn. rewrite Hp, Hd, N.leb_refl. reflexivity.
Qed.

Lemma tick_fires_snapshot s t :
  snapshotTimer s = Some t -> sDue t = N.succ (now s) -> previewTimer s = None ->
  tick s = fireSnapshot t (set_now (N.succ (now s)) s).
Proof.
  intros Ht Hd Hp. unfold tick.
  assert (F : snapshotFirst (set_now (N.succ (now s)) s) = false).
  { unfold snapshotFirst. cbn. rewrite Hp. reflexivity. }
  rewrite F. unfold runPreview. cbn. rewrite Hp.
  unfold runSnapshot. cbn. rewrite Ht, Hd, N.leb_refl. reflexivity.
Qed.

(** ** The end of a burst *)

Ltac fields_in H :=
  cbn [creation editableCode debouncedCode isSyncing lastSaved history historyIndex
       isInternalChange prevCreationId previewTimer snapshotTimer now nextStamp
       onUpdateCalls historyPushes srcDocs set_now] in H.

Lemma elapse_1 s : elapse 1 s = tick s.
Proof. reflexivity. Qed.

(** From the state an edit left, with nothing else happening: the preview
    timer runs after 800 ms and persists, the snapshot timer runs after
    1000 ms and pushes, and then nothing more. *)
Lemma settle s0 c text s ms :
  Settled c s0 -> Mid s0 c text s -> text <> "" -> text <> html c ->
  1000 <= ms ->
  let r := elapse ms s in
  onUpdateCalls r = updated c text (now s + 800) :: onUpdateCalls s0
  /\ historyPushes r = text :: historyPushes s0
  /\ srcDocs r = text :: srcDocs s0
  /\ editableCode r = text /\ debouncedCode r = text
  /\ creation r = Some (updated c text (now s + 800))
  /\ history r = pushHistory (history s0) (historyIndex s0) text
  /\ historyIndex r = pushIndex (historyIndex s0)
  /\ isSyncing r = false
  /\ Settled (updated c text (now s + 800)) r.
Proof.
  intros (_ & _ & _ & _ & _ & Hentry & HI)
         ((B1 & B2 & B3 & B4 & B5 & B6 & B7 & B8 & B9) & He & (kp & Hp) & (ks & Hs))
         Hne Hnc Hms r. subst r.
  rewrite (eqb_false _ _ Hnc) in Hp.
  replace ms with (799 + (1 + (199 + (1 + (ms - 1000))))) by lia.
  rewrite (elapse_add 799), (elapse_add 1), (elapse_add 199), (elapse_add 1).
  (* 799 ms: nothing is due *)
  rewrite (elapse_idle 799 s).
  2:{ intros p E. rewrite Hp in E. inversion E; subst. cbn. lia. }
  2:{ intros t E. rewrite Hs in E. inversion E; subst. cbn. lia. }
  set (sa := set_now (now s + N.of_nat 799) s).
  (* the preview timer *)
  set (p := mkPreviewTimer (now s + 800) kp text (Some c)) in *.
  rewrite (elapse_1 sa), (tick_fires_preview sa p).
  2:{ exact Hp. }
  2:{ cbn. lia. }
  2:{ intros t E. cbn in E. rewrite Hs in E. inversion E; subst. cbn. lia. }
  set (s1 := set_now (N.succ (now sa)) sa).
  assert (N1 : now s1 = (now s + 800)%N) by (cbn; lia).
  assert (Hid : forall c', pCreation p = Some c' -> prevCreationId s1 = Some (id c')).
  { intros c' Hc'. inversion Hc'; subst. exact B2. }
  pose proof (firePreview_fields p s1 Hid (eq_sym He)) as F. cbn zeta in F.
  set (sb := firePreview p s1) in *. clearbody sb.
  unfold s1, sa in F. fields_in F.
  destruct F as ((F1 & F2 & F3 & F4 & F5 & F6 & F7 & F8) & Fp & Fd & Fy & Fdoc & Fc).
  unfold previewPersists in Fc. cbn [pCreation pCode p] in Fc, Fdoc, Fd.
  rewrite (strNeq_true _ _ Hnc) in Fc. destruct Fc as (Fcr & Fcalls & Fls).
  rewrite B3 in Fdoc.
  rewrite (strNeq_true (html c) text) in Fdoc by congruence.
  rewrite runSnapshot_idle.
  2:{ intros t E. rewrite F6, Hs in E. inversion E; subst.
      rewrite F8. cbn. lia. }
  (* 199 ms: nothing is due *)
  rewrite (elapse_idle 199 sb).
  2:{ intros q E. rewrite Fp in E. discriminate E. }
  2:{ intros t E. rewrite F6, Hs in E. inversion E; subst.
      rewrite F8. cbn. lia. }
  set (sc := set_now (now sb + N.of_nat 199) sb).
  (* the snapshot timer *)
  set (t := mkSnapshotTimer (now s + 1000) ks text (history s0) (historyIndex s0)) in *.
  rewrite (elapse_1 sc), (tick_fires_snapshot sc t).
  2:{ cbn. rewrite F6. exact Hs. }
  2:{ cbn. rewrite F8. lia. }
  2:{ cbn. exact Fp. }
  set (s2 := set_now (N.succ (now sc)) sc).
  assert (Hpos : (0 < jsLength (history s0))%Z).
  { unfold jsLength. destruct (history s0); [|cbn; lia].
    unfold jsIndex in Hentry. destruct (historyIndex s0 <? 0)%Z; [discriminate|].
    destruct (Z.to_nat (historyIndex s0)); discriminate. }
  assert (G : snapshotGuard t = true).
  { apply snapshotGuard_true_iff. cbn. split; [exact Hne|]. split.
    - intros E. rewrite E in Hpos. cbn in Hpos. lia.
    - rewrite Hentry. congruence. }
  assert (Hf : isInternalChange s2 = false) by (cbn; rewrite F5; exact B4).
  pose proof (fireSnapshot_fields t s2 G Hf) as S. cbn zeta in S.
  set (sd := fireSnapshot t s2) in *. clearbody sd.
  unfold s2, sc in S. fields_in S.
  destruct S as ((S1 & S2 & S3 & S4 & S5 & S6 & S7 & S8 & S9 & S10) & Sh & Si & Sp & (k & St)).
  cbn [sCode sIndex t] in Sh, Sp.
  (* afterwards: the re-armed snapshot timer finds nothing to push *)
  assert (C : Coherent sd).
  { split.
    - intros c' Hc'. rewrite S1, Fcr in Hc'.
      inversion Hc'; subst. rewrite S6, F7. exact B2.
    - intros q E. rewrite S8, Fp in E. discriminate E. }
  assert (Q : SnapshotSpent sd).
  { intros t' E. rewrite St in E. injection E as <-.
    unfold snapshotGuard. cbn [sCode sHistory sIndex].
    rewrite F2, F3, B5, B6, (push_lookup _ _ _ HI Hpos), F1, He.
    cbn. rewrite strNeq_refl. apply andb_false_r. }
  destruct (elapse_quiet (ms - 1000) sd C Q)
    as ((Cid & _) & _ & (Q1 & Q2 & Q3 & Q4 & Q5) & QA).
  destruct QA as (A1 & A2 & A3 & A4 & A5 & A6).
  { rewrite S8. exact Fp. }
  set (r := elapse (ms - 1000) sd) in *. clearbody r.
  replace (N.succ (now s + N.of_nat 799)) with (now s + 800)%N in * by lia.
  assert (Ecr : creation r = Some (updated c text (now s + 800))) by congruence.
  assert (Eed : editableCode r = text) by congruence.
  assert (Edb : debouncedCode r = text) by congruence.
  assert (Eh : history r = pushHistory (history s0) (historyIndex s0) text)
    by congruence.
  assert (Ei : historyIndex r = pushIndex (historyIndex s0)) by congruence.
  split; [congruence|]. split; [congruence|]. split; [congruence|].
  split; [exact Eed|]. split; [exact Edb|]. split; [exact Ecr|].
  split; [exact Eh|]. split; [exact Ei|]. split; [congruence|].
  unfold Settled. split; [exact Ecr|]. split; [exact (Cid _ Ecr)|].
  split; [exact Eed|]. split; [exact Edb|]. split; [congruence|].
  rewrite Eh, Ei. split; [apply push_lookup; assumption|].
  apply push_HistInv; assumption.
Qed.

(** ** The load effect, cell by cell *)

Lemma commit_reset d s content :
  dCreation d = true -> queuedReset s = Some content ->
  commit d s =
  let s1 := effectsResult d (paint d s) in
  let s2 := applyReset content s1 in
  let d2 := changed s1 s2 false true in
  effectsResult d2 (paint d2 s2).
Proof.
  intros Hd Hq. unfold commit.
  pose proof (effects_fst d (paint d s)) as E1.
  pose proof (effects_reset d (paint d s)) as E2.
  rewrite queuedReset_paint, Hd, Hq in E2.
  destruct (effects d (paint d s)) as [s1 reset]. cbn [fst snd] in E1, E2.
  subst s1 reset. cbn zeta. apply effects_fst.
Qed.

(** A load of content that is not empty, for an artifact that is not the one
    already recorded. *)
Lemma load_fields c s :
  html c <> "" -> prevCreationId s <> Some (id c) ->
  let r := setCreation (Some c) s in
  (creation r = Some c /\ editableCode r = html c /\ debouncedCode r = html c
   /\ history r = [html c] /\ historyIndex r = 0%Z /\ lastSaved r = None)
  /\ prevCreationId r = idOrNull (Some c)
  /\ isInternalChange r = false
  /\ previewTimer r = None
  /\ onUpdateCalls r = onUpdateCalls s /\ historyPushes r = historyPushes s
  /\ now r = now s.
Proof.
  intros Hh Hp r. subst r. unfold setCreation.
  assert (D : idDiffers (Some c) (prevCreationId s) = true).
  { unfold idDiffers. destruct (prevCreationId s) as [q|]; [|reflexivity].
    apply strNeq_true. congruence. }
  rewrite (commit_reset _ _ (html c)).
  2:{ reflexivity. }
  2:{ unfold queuedReset. cbn. rewrite D. apply truthy_true_iff in Hh. rewrite Hh.
      reflexivity. }
  cbn zeta. rewrite !paint_eq.
  unfold effectsResult, previewRuns, snapshotRuns, inSync, applyReset. cbn.
  rewrite D. autorewrite with model. cbn.
  split; [repeat split; reflexivity|]. split; [reflexivity|]. split; [reflexivity|].
  split; [|repeat split; reflexivity].
  destruct (String.eqb (editableCode s) (debouncedCode s)) eqn:E; cbn.
  - destruct (strNeq (editableCode s) (html c) || strNeq (debouncedCode s) (html c));
      reflexivity.
  - replace (strNeq (editableCode s) (html c) || strNeq (debouncedCode s) (html c))
      with true; [reflexivity|].
    symmetry. apply orb_true_iff.
    destruct (strNeq (editableCode s) (html c)) eqn:E1; [left; reflexivity|].
    right. apply strNeq_false_iff in E1. apply strNeq_true. apply String.eqb_neq in E.
    congruence.
Qed.

Lemma idOrNull_id c : id c <> "" -> idOrNull (Some c) = Some (id c).
Proof. intros H. unfold idOrNull. apply truthy_true_iff in H. rewrite H. reflexivity. Qed.

(** A first load into the mounted component settles at once. *)
Lemma load_settled c :
  html c <> "" -> id c <> "" -> Settled c (setCreation (Some c) mount).
Proof.
  intros Hh Hi.
  pose proof (load_fields c mount Hh) as F. cbn zeta in F.
  destruct F as ((F1 & F2 & F3 & F4 & F5 & F6) & Fp & Ff & _); [discriminate|].
  unfold Settled. rewrite F1, F2, F3, F4, F5, Fp, Ff, (idOrNull_id c Hi).
  repeat split; try reflexivity.
  - cbn. lia.
  - right. cbn. lia.
  - constructor; [exact Hh | constructor].
Qed.

(** ** The traces only grow *)

Lemma Grows_refl s : Grows s s.
Proof. repeat split; exists []; reflexivity. Qed.

Lemma Grows_eq s r :
  onUpdateCalls r = onUpdateCalls s -> historyPushes r = historyPushes s ->
  srcDocs r = srcDocs s -> Grows s r.
Proof. intros A B C. repeat split; exists []; assumption. Qed.

Lemma Grows_trans s r u : Grows s r -> Grows r u -> Grows s u.
Proof.
  intros ((a1 & A1) & (a2 & A2) & (a3 & A3)) ((b1 & B1) & (b2 & B2) & (b3 & B3)).
  split; [|split].
  - exists (b1 ++ a1)%list. rewrite B1, A1. apply app_assoc.
  - exists (b2 ++ a2)%list. rewrite B2, A2. apply app_assoc.
  - exists (b3 ++ a3)%list. rewrite B3, A3. apply app_assoc.
Qed.

Lemma commit_grows d s : Grows s (commit d s).
Proof.
  destruct (if dCreation d then queuedReset s else None) as [content|] eqn:Q.
  - assert (Hd : dCreation d = true) by (destruct (dCreation d); [reflexivity | discriminate]).
    rewrite Hd in Q. rewrite (commit_reset d s content Hd Q). cbn zeta.
    rewrite !paint_eq. unfold effectsResult, applyReset.
    cbn [onUpdateCalls historyPushes srcDocs debouncedCode set_srcDocs set_lastSaved
         set_historyIndex set_history set_debouncedCode set_editableCode
         changed dDebounced].
    split; [exists []; reflexivity|]. split; [exists []; reflexivity|].
    destruct (strNeq (debouncedCode s) content), (dDebounced d).
    + exists [content; debouncedCode s]. reflexivity.
    + exists [content]. reflexivity.
    + exists [debouncedCode s]. reflexivity.
    + exists []. reflexivity.
  - rewrite (commit_eq d s Q), paint_eq. unfold effectsResult.
    cbn [onUpdateCalls historyPushes srcDocs debouncedCode set_srcDocs].
    split; [exists []; reflexivity|]. split; [exists []; reflexivity|].
    destruct (dDebounced d); [exists [debouncedCode s] | exists []]; reflexivity.
Qed.

(** A handler's own writes to the traces, followed by the render. *)
Lemma handler_grows d s s' : Grows s s' -> Grows s (commit d s').
Proof. intros G. exact (Grows_trans _ _ _ G (commit_grows d s')). Qed.

Lemma step_grows e s s' : step e s = Some s' -> Grows s s'.
Proof.
  assert (FP : forall p u, Grows u (firePreview p u)).
  { intros p u. unfold firePreview.
    destruct (pCreation p) as [c|]; [destruct (strNeq (pCode p) (html c))|];
      apply handler_grows.
    - split; [eexists [_]; reflexivity|]. split; exists []; reflexivity.
    - apply Grows_eq; reflexivity.
    - apply Grows_eq; reflexivity. }
  assert (FS : forall t u, Grows u (fireSnapshot t u)).
  { intros t u. unfold fireSnapshot.
    destruct (snapshotGuard t); [|apply Grows_eq; reflexivity].
    apply handler_grows.
    split; [exists []; reflexivity|]. split; [eexists [_]; reflexivity|].
    exists []; reflexivity. }
  assert (RP : forall u, Grows u (runPreview u)).
  { intros u. unfold runPreview. destruct (previewTimer u) as [p|]; [|apply Grows_refl].
    destruct (pDue p <=? now u)%N; [apply FP | apply Grows_refl]. }
  assert (RS : forall u, Grows u (runSnapshot u)).
  { intros u. unfold runSnapshot. destruct (snapshotTimer u) as [t|]; [|apply Grows_refl].
    destruct (sDue t <=? now u)%N; [apply FS | apply Grows_refl]. }
  destruct e as [c|text| | | |]; cbn; intros H.
  - injection H as <-. unfold setCreation. apply handler_grows, Grows_eq; reflexivity.
  - injection H as <-. unfold edit. apply handler_grows, Grows_eq; reflexivity.
  - unfold handleUndo in H. destruct (0 <? historyIndex s)%Z.
    + destruct (jsIndex _ _); [|discriminate H]. injection H as <-.
      apply handler_grows, Grows_eq; reflexivity.
    + injection H as <-. apply Grows_refl.
  - unfold handleRedo in H. destruct (historyIndex s <? jsLength (history s) - 1)%Z.
    + destruct (jsIndex _ _); [|discriminate H]. injection H as <-.
      apply handler_grows, Grows_eq; reflexivity.
    + injection H as <-. apply Grows_refl.
  - injection H as <-. unfold handleSave. destruct (creation s) as [c|]; [|apply Grows_refl].
    apply handler_grows.
    split; [eexists [_]; reflexivity|]. split; exists []; reflexivity.
  - injection H as <-. unfold tick.
    assert (G0 : Grows s (set_now (N.succ (now s)) s)) by (apply Grows_eq; reflexivity).
    destruct (snapshotFirst _).
    + exact (Grows_trans _ _ _ G0 (Grows_trans _ _ _ (RS _) (RP _))).
    + exact (Grows_trans _ _ _ G0 (Grows_trans _ _ _ (RP _) (RS _))).
Qed.

(** No run ever takes an entry back from a trace: what a trace lists at
    the end is all that was ever persisted, pushed or rendered. *)
Lemma run_grows es : forall s s', run es s = Some s' -> Grows s s'.
Proof.
  induction es as [|e es IH]; intros s s' H; cbn in H.
  - injection H as <-. apply Grows_refl.
  - destruct (step e s) as [s1|] eqn:E; [|discriminate H].
    exact (Grows_trans _ _ _ (step_grows e s s1 E) (IH s1 s' H)).
Qed.

Lemma elapse_grows ms : forall s, Grows s (elapse ms s).
Proof.
  induction ms as [|ms IH]; intros s; cbn [elapse]; [apply Grows_refl|].
  exact (Grows_trans _ _ _ (step_grows Tick s (tick s) eq_refl) (IH (tick s))).
Qed.

(** ** A burst as a run of events *)

Lemma run_app a : forall b s,
  run (a ++ b) s = match run a s with
                   | Some m => run b m
                   | None => None
                   end.
Proof.
  induction a as [|e a IH]; intros b s; cbn; [reflexivity|].
  destruct (step e s) as [s1|]; [apply IH | reflexivity].
Qed.

Lemma run_ticks n : forall s, run (repeat Tick n) s = Some (elapse n s).
Proof. induction n as [|n IH]; intros s; cbn; [reflexivity | apply IH]. Qed.

Lemma run_burstTail rest : forall s tail,
  run (flat_map (fun '(gap, text) => repeat Tick gap ++ [Edit text]) rest ++ tail)%list s
  = run tail (burst rest s).
Proof.
  induction rest as [|[gap text] rest IH]; intros s tail; cbn [flat_map burst app].
  - reflexivity.
  - rewrite <- !app_assoc, run_app, run_ticks. cbn [app run step]. apply IH.
Qed.

Lemma run_burstEvents first rest ms s :
  run (burstEvents first rest ms) s = Some (elapse ms (burst rest (edit first s))).
Proof.
  unfold burstEvents. cbn [run step]. rewrite run_burstTail. apply run_ticks.
Qed.

(** A trace that ends with one entry more than it began with held, at every
    instant in between, nothing else that was new. *)
Lemma between_traces {A} (old mid final : list A) (x : A) :
  (exists l, mid = l ++ old)%list -> (exists l, final = l ++ mid)%list ->
  final = x :: old ->
  forall y, In y mid -> In y old \/ y = x.
Proof.
  intros (l2 & ->) (l1 & ->) E y Hy.
  rewrite app_assoc in E. change (x :: old) with ([x] ++ old)%list in E.
  apply app_inv_tail in E.
  apply in_app_or in Hy. destruct Hy as [Hy|Hy]; [|left; exact Hy].
  right. assert (Hin : In y (l1 ++ l2)) by (apply in_or_app; right; exact Hy).
  rewrite E in Hin. destruct Hin as [<-|[]]. reflexivity.
Qed.

(** ** The snapshot timer through a burst *)

(** The preview timer's callback leaves the snapshot channel alone. *)
Lemma runPreview_hist s :
  Coherent s ->
  let r := runPreview s in
  Coherent r /\ StillHist s r /\ snapshotTimer r = snapshotTimer s /\ now r = now s.
Proof.
  intros C r. subst r. unfold runPreview.
  assert (Same : Coherent s /\ StillHist s s /\ snapshotTimer s = snapshotTimer s
                 /\ now s = now s).
  { split; [exact C|]. split; [|split; reflexivity].
    unfold StillHist. repeat split; reflexivity. }
  destruct (previewTimer s) as [p|] eqn:E; [|exact Same].
  destruct (pDue p <=? now s)%N; [|exact Same].
  destruct C as [Cid Cp]. destruct (Cp p E) as [Ecr Ecode].
  assert (Hid : forall c, pCreation p = Some c -> prevCreationId s = Some (id c)).
  { intros c Hc. apply Cid. congruence. }
  pose proof (firePreview_fields p s Hid Ecode) as F. cbn zeta in F.
  destruct F as ((F1 & F2 & F3 & F4 & F5 & F6 & F7 & F8) & Fp & Fd & _ & _ & Fc).
  split; [|split; [|split; assumption]].
  - split.
    + intros c Hc. rewrite F7. unfold previewPersists in Fc.
      destruct (pCreation p) as [c0|] eqn:Ec0.
      * destruct (strNeq (pCode p) (html c0)).
        -- destruct Fc as (Fc & _). rewrite Fc in Hc. inversion Hc; subst. cbn.
           apply Hid. reflexivity.
        -- destruct Fc as (Fc & _). apply Cid. congruence.
      * destruct Fc as (Fc & _). apply Cid. congruence.
    + intros p' E'. rewrite Fp in E'. discriminate E'.
  - unfold StillHist. repeat split; assumption.
Qed.

Lemma edit_pending s0 text s :
  (forall c, creation s = Some c -> prevCreationId s = Some (id c)) ->
  isInternalChange s = false -> editableCode s <> text ->
  history s = history s0 -> historyIndex s = historyIndex s0 ->
  historyPushes s = historyPushes s0 ->
  PushPending s0 text (now s + 1000) (edit text s) /\ now (edit text s) = now s.
Proof.
  intros Cid Hf Hne Hh Hi Hp.
  pose proof (edit_fields text s Hne Hf) as F. cbn zeta in F.
  destruct F as ((F1 & F2 & F3 & F4 & F5 & F6 & F7 & F8 & F9) & Fe & Ff & Fp & (k & Fs)).
  split; [|exact F9].
  split; [|split; [exact Ff|split; [exact Fe|]]].
  - split.
    + intros c Hc. rewrite F8. apply Cid. congruence.
    + intros p E. rewrite Fp in E.
      destruct (String.eqb text (debouncedCode s)); [discriminate E|].
      injection E as <-. cbn. split; congruence.
  - split; [congruence|]. split; [congruence|]. split; [congruence|].
    exists k. rewrite Fs, Hh, Hi. reflexivity.
Qed.

(** A millisecond before the snapshot timer is due: whether or not the
    preview timer runs, the push stays pending. *)
Lemma tick_pending s0 text due s :
  PushPending s0 text due s -> (N.succ (now s) < due)%N ->
  PushPending s0 text due (tick s) /\ now (tick s) = N.succ (now s).
Proof.
  intros (C & Hf & He & Hh & Hi & Hp & (k & Ht)) Hd. unfold tick.
  set (s1 := set_now (N.succ (now s)) s).
  assert (C1 : Coherent s1) by exact C.
  assert (I1 : runSnapshot s1 = s1).
  { apply runSnapshot_idle. intros t E. cbn in E. rewrite Ht in E.
    injection E as <-. cbn. exact Hd. }
  pose proof (runPreview_hist s1 C1) as P. cbn zeta in P.
  destruct P as (C2 & (P1 & P2 & P3 & P4 & P5) & P6 & P7).
  assert (I2 : runSnapshot (runPreview s1) = runPreview s1).
  { apply runSnapshot_idle. intros t E. rewrite P6 in E. cbn in E. rewrite Ht in E.
    injection E as <-. rewrite P7. cbn. exact Hd. }
  assert (R : (if snapshotFirst s1 then runPreview (runSnapshot s1)
               else runSnapshot (runPreview s1)) = runPreview s1).
  { destruct (snapshotFirst s1); [rewrite I1 | rewrite I2]; reflexivity. }
  rewrite R. split; [|exact P7].
  split; [exact C2|]. split; [rewrite P5; exact Hf|]. split; [rewrite P1; exact He|].
  split; [rewrite P2; exact Hh|]. split; [rewrite P3; exact Hi|].
  split; [rewrite P4; exact Hp|]. exists k. rewrite P6. exact Ht.
Qed.

Lemma elapse_pending s0 text due gap : forall s,
  PushPending s0 text due s -> (now s + N.of_nat gap < due)%N ->
  PushPending s0 text due (elapse gap s)
  /\ now (elapse gap s) = (now s + N.of_nat gap)%N.
Proof.
  induction gap as [|gap IH]; intros s P Hd; cbn [elapse].
  - split; [exact P | lia].
  - destruct (tick_pending s0 text due s P) as [P1 N1]; [lia|].
    destruct (IH (tick s) P1) as [P2 N2]; [lia|].
    split; [exact P2 | lia].
Qed.

Lemma burst_pending s0 rest : forall text s,
  PushPending s0 text (now s + 1000) s -> burstOk 1000 text rest ->
  let r := burst rest s in
  PushPending s0 (lastText text rest) (now r + 1000) r.
Proof.
  induction rest as [|[gap text'] rest IH]; intros text s P Hok; cbn in *.
  - exact P.
  - destruct Hok as (Hg & Hne & Hok).
    destruct (elapse_pending s0 text _ gap s P) as [P1 N1]; [lia|].
    destruct P1 as ((Cid & _) & Hf & He & Hh & Hi & Hp & _).
    destruct (edit_pending s0 text' (elapse gap s) Cid Hf) as [P2 N2];
      [congruence | exact Hh | exact Hi | exact Hp |].
    apply IH; [|exact Hok]. rewrite N2. exact P2.
Qed.

(** The snapshot timer's callback when it has something to push: the push,
    and a re-armed timer that has nothing more to push. *)
Lemma runSnapshot_push s0 text s :
  PushPending s0 text (now s) s ->
  HistInv (history s0) (historyIndex s0) -> (0 < jsLength (history s0))%Z ->
  text <> "" -> jsIndex (history s0) (historyIndex s0) <> Some text ->
  let r := runSnapshot s in
  Coherent r /\ SnapshotSpent r /\ editableCode r = text
  /\ historyPushes r = text :: historyPushes s0
  /\ history r = pushHistory (history s0) (historyIndex s0) text
  /\ historyIndex r = pushIndex (historyIndex s0).
Proof.
  intros ((Cid & Cp) & Hf & He & Hh & Hi & Hp & (k & Ht)) HI Hpos Hne Hentry r.
  subst r. unfold runSnapshot. rewrite Ht. cbn [sDue]. rewrite N.leb_refl.
  set (t := mkSnapshotTimer (now s) k text (history s0) (historyIndex s0)).
  assert (G : snapshotGuard t = true).
  { apply snapshotGuard_true_iff. cbn. split; [exact Hne|]. split; [|exact Hentry].
    intros E. rewrite E in Hpos. cbn in Hpos. lia. }
  pose proof (fireSnapshot_fields t s G Hf) as S. cbn zeta in S.
  destruct S as ((S1 & S2 & S3 & S4 & S5 & S6 & S7 & S8 & S9 & S10) & Sh & Si & Sp & (k' & St)).
  cbn [sCode sIndex t] in Sh, Sp, St.
  split; [|split; [|split; [congruence|split; [congruence|split; congruence]]]].
  - split.
    + intros c Hc. rewrite S6. apply Cid. congruence.
    + intros p E. rewrite S8 in E. destruct (Cp p E) as [A B]. split; congruence.
  - intros t' E. rewrite St in E. injection E as <-.
    unfold snapshotGuard. cbn [sCode sHistory sIndex].
    rewrite Hh, Hi, (push_lookup _ _ _ HI Hpos), He.
    cbn. rewrite strNeq_refl. apply andb_false_r.
Qed.

(** The millisecond at which the snapshot timer is due: it pushes, in
    whichever order the two timers run. *)
Lemma tick_push s0 text s :
  PushPending s0 text (N.succ (now s)) s ->
  HistInv (history s0) (historyIndex s0) -> (0 < jsLength (history s0))%Z ->
  text <> "" -> jsIndex (history s0) (historyIndex s0) <> Some text ->
  let r := tick s in
  Coherent r /\ SnapshotSpent r /\ editableCode r = text
  /\ historyPushes r = text :: historyPushes s0
  /\ history r = pushHistory (history s0) (historyIndex s0) text
  /\ historyIndex r = pushIndex (historyIndex s0).
Proof.
  intros P HI Hpos Hne Hent r. subst r. unfold tick.
  set (s1 := set_now (N.succ (now s)) s).
  assert (P1 : PushPending s0 text (now s1) s1) by exact P.
  clearbody s1. clear P.
  destruct (snapshotFirst s1).
  - pose proof (runSnapshot_push s0 text s1 P1 HI Hpos Hne Hent) as S. cbn zeta in S.
    destruct S as (C & Q & S1 & S2 & S3 & S4).
    destruct (runPreview_quiet _ C Q) as (C' & Q' & (Q1 & Q2 & Q3 & Q4 & _) & _).
    split; [exact C'|]. split; [exact Q'|]. repeat split; congruence.
  - pose proof P1 as (C1 & Hf & He & Hh & Hi & Hp & (k & Ht)).
    pose proof (runPreview_hist s1 C1) as R. cbn zeta in R.
    destruct R as (C2 & (R1 & R2 & R3 & R4 & R5) & R6 & R7).
    assert (P2 : PushPending s0 text (now (runPreview s1)) (runPreview s1)).
    { split; [exact C2|]. split; [congruence|]. split; [congruence|].
      split; [congruence|]. split; [congruence|]. split; [congruence|].
      exists k. rewrite R6, R7. exact Ht. }
    exact (runSnapshot_push s0 text _ P2 HI Hpos Hne Hent).
Qed.

(** From the state the last edit of a burst left: the snapshot timer runs
    after 1000 ms and pushes the last text, and then nothing more is
    pushed. *)
Lemma settle_push s0 c text s ms :
  Settled c s0 -> PushPending s0 text (now s + 1000) s ->
  text <> "" -> text <> html c -> 1000 <= ms ->
  let r := elapse ms s in
  historyPushes r = text :: historyPushes s0
  /\ editableCode r = text
  /\ history r = pushHistory (history s0) (historyIndex s0) text
  /\ historyIndex r = pushIndex (historyIndex s0).
Proof.
  intros (_ & _ & _ & _ & _ & Hentry & HI) P Hne Hnc Hms r. subst r.
  assert (Hpos : (0 < jsLength (history s0))%Z).
  { unfold jsLength. destruct (history s0); [|cbn; lia].
    unfold jsIndex in Hentry. destruct (historyIndex s0 <? 0)%Z; [discriminate|].
    destruct (Z.to_nat (historyIndex s0)); discriminate. }
  assert (Hent : jsIndex (history s0) (historyIndex s0) <> Some text)
    by (rewrite Hentry; congruence).
  replace ms with (999 + (1 + (ms - 1000))) by lia.
  rewrite (elapse_add 999), (elapse_add 1).
  destruct (elapse_pending s0 text _ 999 s P) as [Pa Na]; [lia|].
  generalize dependent (elapse 999 s). intros sa Pa Na.
  assert (E : (now s + 1000)%N = N.succ (now sa)) by lia.
  rewrite E in Pa. rewrite (elapse_1 sa).
  pose proof (tick_push s0 text sa Pa HI Hpos Hne Hent) as S. cbn zeta in S.
  destruct S as (C & Q & S1 & S2 & S3 & S4).
  destruct (elapse_quiet (ms - 1000) (tick sa) C Q) as (_ & _ & (Q1 & Q2 & Q3 & Q4 & _) & _).
  repeat split; congruence.
Qed.

(** ** Coalescing of bursts *)

Lemma loadedA_settled : Settled artifactA loadedA.
Proof.
  unfold Settled. repeat split; try reflexivity.
  - vm_compute. lia.
  - right. vm_compute. split; [discriminate | reflexivity].
  - vm_compute. constructor; [discriminate | constructor].
Qed.

(** C1.  From a settled artifact, for every burst of buffer-changing edits
    whose last text is neither empty nor the content the burst started
    from, once at least 1000 ms have passed after the last edit.  If the
    pauses are all shorter than the 1000 ms of the snapshot timer, exactly
    one history push has been added, carrying the last text of the burst,
    and at every instant of the burst and of the wait whatever had been
    pushed since the burst began carried that last text.  If the pauses are
    all shorter than the 800 ms of the preview timer, moreover exactly one
    [onUpdate] call and one new [srcDoc] have been added, both carrying the
    last text, and at every instant whatever had been persisted or rendered
    since the burst began carried it. *)
Theorem burst_coalesced : CoalescesPush 1000 /\ Coalesces 800.
Proof.
  split.
  - intros c s0 first rest ms HS Hfirst Hok Hne Hnc Hms final r.
    pose proof HS as (Hcr & Hpid & He & _ & Hf & _).
    destruct (edit_pending s0 first s0) as [P N0]; try reflexivity.
    { intros c' Hc'. congruence. }
    { exact Hf. }
    { congruence. }
    rewrite <- N0 in P.
    pose proof (burst_pending s0 rest first _ P Hok) as P'. cbn zeta in P'.
    pose proof (settle_push s0 c _ _ ms HS P' Hne Hnc Hms) as R. cbn zeta in R.
    fold final in R. fold r in R.
    destruct R as (R1 & R2 & R3 & R4).
    pose proof (run_burstEvents first rest ms s0) as Hrun. fold r in Hrun.
    split; [exact Hrun|]. split; [exact R1|]. split; [exact R2|].
    split; [exact R3|]. split; [exact R4|].
    intros pre post E. rewrite E, run_app in Hrun.
    destruct (run pre s0) as [m|] eqn:Em; [|discriminate Hrun].
    exists m. split; [reflexivity|].
    destruct (run_grows pre s0 m Em) as (_ & G2 & _).
    destruct (run_grows post m r Hrun) as (_ & K2 & _).
    exact (between_traces _ _ _ _ G2 K2 R1).
  - intros c s0 first rest ms HS Hfirst Hok Hne Hnc Hms final r.
    pose proof HS as (_ & _ & He & _).
    assert (M : Mid s0 c first (edit first s0)).
    { apply edit_mid; [apply Settled_Base, HS | congruence]. }
    pose proof (burst_mid s0 c rest first _ M Hok) as M'.
    pose proof (settle s0 c _ _ ms HS M' Hne Hnc Hms) as R. cbn zeta in R.
    fold final in R. fold r in R.
    destruct R as (R1 & R2 & R3 & R4 & R5 & _ & R7 & R8 & _).
    pose proof (run_burstEvents first rest ms s0) as Hrun. fold r in Hrun.
    split; [exact Hrun|]. split; [eexists; exact R1|].
    split; [exact R2|]. split; [exact R3|]. split; [exact R4|]. split; [exact R5|].
    split; [exact R7|]. split; [exact R8|].
    intros pre post E. rewrite E, run_app in Hrun.
    destruct (run pre s0) as [m|] eqn:Em; [|discriminate Hrun].
    exists m. split; [reflexivity|].
    destruct (run_grows pre s0 m Em) as (G1 & G2 & G3).
    destruct (run_grows post m r Hrun) as (K1 & K2 & K3).
    split; [|split].
    + intros u Hu. destruct (between_traces _ _ _ _ G1 K1 R1 u Hu) as [H| ->];
        [left; exact H | right; reflexivity].
    + exact (between_traces _ _ _ _ G2 K2 R2).
    + exact (between_traces _ _ _ _ G3 K3 R3).
Qed.

Lemma burst_coalesced_witness :
  (let r := elapse 1000 (burst [(900, "ABC")] (edit "AB" loadedA)) in
   historyPushes r = "ABC" :: historyPushes loadedA
   /\ editableCode r = "ABC"
   /\ history r = pushHistory (history loadedA) (historyIndex loadedA) "ABC"
   /\ historyIndex r = pushIndex (historyIndex loadedA))
  /\ (let r := elapse 1000 (burst [(300, "ABC")] (edit "AB" loadedA)) in
      (exists t, onUpdateCalls r = updated artifactA "ABC" t :: onUpdateCalls loadedA)
      /\ historyPushes r = "ABC" :: historyPushes loadedA
      /\ srcDocs r = "ABC" :: srcDocs loadedA
      /\ editableCode r = "ABC" /\ debouncedCode r = "ABC").
Proof.
  destruct burst_coalesced as [Push Full].
  assert (N1 : "AB" <> html artifactA) by discriminate.
  assert (L : 1000 <= 1000) by lia.
  split.
  - assert (Hok : burstOk 1000 "AB" [(900, "ABC")]).
    { cbn. split; [lia|]. split; [discriminate | exact I]. }
    assert (N2 : lastText "AB" [(900, "ABC")] <> "") by discriminate.
    assert (N3 : lastText "AB" [(900, "ABC")] <> html artifactA) by discriminate.
    destruct (Push artifactA loadedA "AB" [(900, "ABC")] 1000
                loadedA_settled N1 Hok N2 N3 L)
      as (_ & R1 & R2 & R3 & R4 & _).
    cbn zeta. split; [exact R1|]. split; [exact R2|]. split; [exact R3 | exact R4].
  - assert (Hok : burstOk 800 "AB" [(300, "ABC")]).
    { cbn. split; [lia|]. split; [discriminate | exact I]. }
    assert (N2 : lastText "AB" [(300, "ABC")] <> "") by discriminate.
    assert (N3 : lastText "AB" [(300, "ABC")] <> html artifactA) by discriminate.
    destruct (Full artifactA loadedA "AB" [(300, "ABC")] 1000
                loadedA_settled N1 Hok N2 N3 L)
      as (_ & R1 & R2 & R3 & R4 & R5 & _).
    cbn zeta. split; [exact R1|]. split; [exact R2|]. split; [exact R3|].
    split; [exact R4 | exact R5].
Defined.

(** With pauses between 800 ms and 1000 ms the preview timer runs inside the
    burst: the intermediate text is persisted and rendered. *)
Lemma burst_gap_below_Ds_counterexample :
  let r := elapse 1000 (burst [(900, "ABC")] (edit "AB" loadedA)) in
  map html (onUpdateCalls r) = ["ABC"; "AB"]
  /\ srcDocs r = ["ABC"; "AB"; "A"]
  /\ ~ Coalesces 1000.
Proof.
  split; [vm_compute; reflexivity|]. split; [vm_compute; reflexivity|].
  intros H.
  assert (Hok : burstOk 1000 "AB" [(900, "ABC")]).
  { cbn. split; [lia|]. split; [discriminate | exact I]. }
  assert (N1 : "AB" <> html artifactA) by discriminate.
  assert (N2 : lastText "AB" [(900, "ABC")] <> "") by discriminate.
  assert (N3 : lastText "AB" [(900, "ABC")] <> html artifactA) by discriminate.
  assert (L : 1000 <= 1000) by lia.
  destruct (H artifactA loadedA "AB" [(900, "ABC")] 1000 loadedA_settled N1 Hok N2 N3 L)
    as (_ & _ & _ & D & _).
  vm_compute in D. discriminate D.
Qed.

(** ** The reference scenario *)

Lemma jsIndex_lt h i e : jsIndex h i = Some e -> (0 <= i < jsLength h)%Z.
Proof.
  unfold jsIndex, jsLength. destruct (i <? 0)%Z eqn:E; [discriminate|].
  apply Z.ltb_ge in E. intros H.
  assert (Z.to_nat i < length h) by (apply nth_error_Some; congruence). lia.
Qed.

(** C2.  Load an artifact with content "A" (and, as every artifact [App]
    creates or imports, a non-empty id) into the mounted component, edit the
    buffer to "AB" and let at least 1000 ms pass: the history is
    ["A"; "AB"] with index 1; undo then gives buffer "A" and index 0; redo
    then gives buffer "AB" and index 1. *)
Theorem scenario_load_edit_undo_redo c ms :
  html c = "A" -> id c <> "" -> 1000 <= ms ->
  let s1 := elapse ms (edit "AB" (setCreation (Some c) mount)) in
  history s1 = ["A"; "AB"] /\ historyIndex s1 = 1%Z
  /\ exists s2, handleUndo s1 = Some s2
       /\ editableCode s2 = "A" /\ historyIndex s2 = 0%Z
       /\ exists s3, handleRedo s2 = Some s3
            /\ editableCode s3 = "AB" /\ historyIndex s3 = 1%Z.
Proof.
  intros Hh Hi Hms s1.
  assert (Hne : html c <> "") by (rewrite Hh; discriminate).
  pose proof (load_settled c Hne Hi) as HS.
  set (s0 := setCreation (Some c) mount) in *.
  assert (M : Mid s0 c "AB" (edit "AB" s0)).
  { apply edit_mid; [apply Settled_Base, HS|].
    destruct HS as (_ & _ & He & _). rewrite He, Hh. discriminate. }
  pose proof (settle s0 c "AB" _ ms HS M) as R. cbn zeta in R. fold s1 in R.
  destruct R as (_ & _ & _ & R4 & _ & _ & R7 & R8 & _);
    [discriminate | rewrite Hh; discriminate | exact Hms |].
  pose proof (load_fields c mount Hne) as F. cbn zeta in F. fold s0 in F.
  destruct F as ((_ & _ & _ & F4 & F5 & _) & _); [discriminate|].
  rewrite F4, F5, Hh in R7. rewrite F5 in R8.
  change (pushHistory ["A"] 0 "AB") with ["A"; "AB"] in R7.
  change (pushIndex 0) with 1%Z in R8.
  clearbody s1. split; [exact R7|]. split; [exact R8|].
  destruct (handleUndo_spec s1 "A") as (s2 & U & U1 & U2 & U3 & _).
  { rewrite R8. lia. }
  { rewrite R7, R8. reflexivity. }
  exists s2. split; [exact U|]. split; [exact U1|]. rewrite R8 in U2.
  split; [exact U2|].
  destruct (handleRedo_spec s2 "AB") as (s3 & V & V1 & V2 & _).
  { rewrite U2, U3, R7. cbn. lia. }
  { rewrite U2, U3, R7. reflexivity. }
  exists s3. rewrite U2 in V2. auto.
Qed.

Lemma scenario_load_edit_undo_redo_witness :
  let s1 := elapse 1000 (edit "AB" (setCreation (Some artifactA) mount)) in
  history s1 = ["A"; "AB"] /\ historyIndex s1 = 1%Z
  /\ exists s2, handleUndo s1 = Some s2
       /\ editableCode s2 = "A" /\ historyIndex s2 = 0%Z
       /\ exists s3, handleRedo s2 = Some s3
            /\ editableCode s3 = "AB" /\ historyIndex s3 = 1%Z.
Proof.
  apply (scenario_load_edit_undo_redo artifactA 1000);
    [reflexivity | discriminate | lia].
Defined.

(** ** Undo followed by redo *)

(** C6.  In every state where undo is available and the buffer equals the
    snapshot at the current index, undo followed at once by redo restores
    the buffer and the index. *)
Theorem undo_redo_restores s :
  undoAvailable s = true ->
  jsIndex (history s) (historyIndex s) = Some (editableCode s) ->
  exists s1 s2,
    handleUndo s = Some s1 /\ handleRedo s1 = Some s2
    /\ editableCode s2 = editableCode s
    /\ historyIndex s2 = historyIndex s /\ history s2 = history s.
Proof.
  intros A E.
  assert (G : (0 < historyIndex s)%Z).
  { unfold undoAvailable in A. apply negb_true_iff, Z.leb_gt in A. exact A. }
  pose proof (jsIndex_lt _ _ _ E) as L.
  destruct (jsIndex_Some (history s) (historyIndex s - 1)) as [e He]; [lia|].
  destruct (handleUndo_spec s e G He) as (s1 & U & _ & U2 & U3 & _).
  assert (E1 : jsIndex (history s1) (historyIndex s1 + 1) = Some (editableCode s)).
  { rewrite U2, U3. replace (historyIndex s - 1 + 1)%Z with (historyIndex s) by lia.
    exact E. }
  destruct (handleRedo_spec s1 (editableCode s)) as (s2 & V & V1 & V2 & V3 & _);
    [rewrite U2, U3; lia | exact E1 |].
  exists s1, s2. split; [exact U|]. split; [exact V|]. split; [exact V1|].
  split; [rewrite V2, U2; lia | congruence].
Qed.

Lemma undo_redo_restores_witness :
  exists s1 s2,
    handleUndo afterEdit = Some s1 /\ handleRedo s1 = Some s2
    /\ editableCode s2 = editableCode afterEdit
    /\ historyIndex s2 = historyIndex afterEdit /\ history s2 = history afterEdit.
Proof.
  apply (undo_redo_restores afterEdit); vm_compute; reflexivity.
Defined.

(** Text typed less than a second before the undo is in no snapshot: redo
    brings back the last snapshot, not the buffer the undo replaced. *)
Lemma undo_redo_unsettled_counterexample :
  let s := edit "ABC" afterEdit in
  undoAvailable s = true
  /\ exists s1 s2,
       handleUndo s = Some s1 /\ handleRedo s1 = Some s2
       /\ editableCode s = "ABC" /\ editableCode s2 = "AB".
Proof.
  split; [reflexivity|]. eexists. eexists.
  split; [vm_compute; reflexivity|]. split; [vm_compute; reflexivity|].
  split; reflexivity.
Qed.

(** ** Loading an artifact *)

Lemma load_empty_fields c s :
  html c = "" ->
  let r := setCreation (Some c) s in
  editableCode r = editableCode s /\ debouncedCode r = debouncedCode s
  /\ history r = history s /\ historyIndex r = historyIndex s
  /\ historyPushes r = historyPushes s.
Proof.
  intros Hh r. subst r. unfold setCreation.
  match goal with |- context [commit ?d ?x] => pose proof (commit_core d x) as C end.
  assert (Q : (if dCreation (changed s (set_creation (Some c) s) true false)
               then queuedReset (set_creation (Some c) s) else None) = None).
  { cbn. unfold queuedReset. cbn. rewrite Hh.
    destruct (idDiffers _ _); reflexivity. }
  specialize (C Q). core_eqs C. repeat split; assumption.
Qed.

(** C5.  Loading an artifact whose content is the empty string resets
    nothing: buffer, debounced copy, history and index keep their
    values (on the freshly mounted component: "", "", the empty history and
    index -1), so no empty snapshot is seeded.  Loading an artifact with
    non-empty content, other than the one already recorded, resets buffer
    and debounced copy to the content and the history to that single
    snapshot with index 0. *)
Theorem load_resets_nonempty_only c s :
  (html c = "" ->
   let r := setCreation (Some c) s in
   editableCode r = editableCode s /\ debouncedCode r = debouncedCode s
   /\ history r = history s /\ historyIndex r = historyIndex s)
  /\ (html c = "" ->
      let r := setCreation (Some c) mount in
      editableCode r = "" /\ debouncedCode r = ""
      /\ history r = [] /\ historyIndex r = (-1)%Z)
  /\ (html c <> "" -> prevCreationId s <> Some (id c) ->
      let r := setCreation (Some c) s in
      editableCode r = html c /\ debouncedCode r = html c
      /\ history r = [html c] /\ historyIndex r = 0%Z).
Proof.
  split; [|split].
  - intros Hh. destruct (load_empty_fields c s Hh) as (H1 & H2 & H3 & H4 & _). auto.
  - intros Hh. destruct (load_empty_fields c mount Hh) as (H1 & H2 & H3 & H4 & _).
    cbn zeta. rewrite H1, H2, H3, H4. auto.
  - intros Hh Hp.
    destruct (load_fields c s Hh Hp) as ((_ & H2 & H3 & H4 & H5 & _) & _). auto.
Qed.

Lemma load_resets_nonempty_only_witness :
  (let r := setCreation (Some emptyArtifact) loadedA in
   editableCode r = "A" /\ debouncedCode r = "A"
   /\ history r = ["A"] /\ historyIndex r = 0%Z)
  /\ (let r := setCreation (Some emptyArtifact) mount in
      editableCode r = "" /\ debouncedCode r = ""
      /\ history r = [] /\ historyIndex r = (-1)%Z)
  /\ (let r := setCreation (Some artifactA) mount in
      editableCode r = "A" /\ debouncedCode r = "A"
      /\ history r = ["A"] /\ historyIndex r = 0%Z).
Proof.
  pose proof (proj1 (load_resets_nonempty_only emptyArtifact loadedA) eq_refl) as H1.
  pose proof (proj1 (proj2 (load_resets_nonempty_only emptyArtifact mount)) eq_refl) as H2.
  assert (N1 : html artifactA <> "") by discriminate.
  assert (N2 : prevCreationId mount <> Some (id artifactA)) by discriminate.
  pose proof (proj2 (proj2 (load_resets_nonempty_only artifactA mount)) N1 N2) as H3.
  vm_compute in H1, H2, H3. vm_compute. exact (conj H1 (conj H2 H3)).
Defined.

(** An empty artifact seeds no [""] snapshot, and after another artifact it
    does not even clear the buffer. *)
Lemma load_empty_counterexample :
  history (setCreation (Some emptyArtifact) mount) <> [""]
  /\ historyIndex (setCreation (Some emptyArtifact) mount) <> 0%Z
  /\ editableCode (setCreation (Some emptyArtifact) loadedA) <> "".
Proof. repeat split; vm_compute; discriminate. Qed.

(** ** The key of the editor iframe *)

(** C8.  The key of the editor-view iframe is the length of the debounced
    content: equal contents give equal keys, and the keys differ
    exactly when the lengths differ. *)
Theorem iframe_key_is_length s1 s2 :
  key (editorIframe s1) = Some (String.length (debouncedCode s1))
  /\ (debouncedCode s1 = debouncedCode s2 ->
      key (editorIframe s1) = key (editorIframe s2))
  /\ (key (editorIframe s1) <> key (editorIframe s2) <->
      String.length (debouncedCode s1) <> String.length (debouncedCode s2)).
Proof.
  split; [reflexivity|]. split.
  - intros E. unfold editorIframe. cbn. rewrite E. reflexivity.
  - unfold editorIframe. cbn. split; intros H E; apply H; congruence.
Qed.

Lemma iframe_key_is_length_witness :
  key (editorIframe loadedA) = key (editorIframe (set_isSyncing true loadedA))
  /\ key (editorIframe loadedA) <> key (editorIframe (setCreation (Some artifactAB) mount)).
Proof.
  split.
  - apply (proj1 (proj2 (iframe_key_is_length loadedA (set_isSyncing true loadedA)))).
    vm_compute. reflexivity.
  - apply (proj2 (proj2 (iframe_key_is_length loadedA
                           (setCreation (Some artifactAB) mount)))).
    vm_compute. discriminate.
Defined.

(** Two different contents of the same length share a key. *)
Lemma iframe_key_collision_counterexample :
  debouncedCode (setCreation (Some artifactAB) mount)
    <> debouncedCode (setCreation (Some artifactCD) mount)
  /\ key (editorIframe (setCreation (Some artifactAB) mount))
     = key (editorIframe (setCreation (Some artifactCD) mount)).
Proof. split; [vm_compute; discriminate | vm_compute; reflexivity]. Qed.

(** ** What the sandbox attribute grants *)

(** C9.  For every state, hence every content, both iframes carry the same
    sandbox attribute, which grants exactly five capabilities:
    script execution, form submission, popups, modal dialogs and
    same-origin treatment of the framed document. *)
Theorem sandbox_grants_five s :
  sandboxTokens (editorIframe s) = (fourCapabilities ++ ["allow-same-origin"])%list
  /\ sandboxTokens (previewIframe s) = (fourCapabilities ++ ["allow-same-origin"])%list
  /\ (forall token, permits (editorIframe s) token = true <->
                    In token fourCapabilities \/ token = "allow-same-origin")
  /\ grantsSameOrigin (editorIframe s) = true
  /\ grantsSameOrigin (previewIframe s) = true.
Proof.
  assert (T : sandboxTokens (editorIframe s)
              = (fourCapabilities ++ ["allow-same-origin"])%list) by reflexivity.
  split; [exact T|]. split; [reflexivity|]. split; [|split; reflexivity].
  intros token. unfold permits. rewrite T, existsb_exists. split.
  - intros (x & Hin & Heq). apply String.eqb_eq in Heq. subst x.
    apply in_app_or in Hin. destruct Hin as [Hin|[Heq|[]]]; [left; exact Hin | right; auto].
  - intros [Hin | ->].
    + exists token. split; [apply in_or_app; left; exact Hin | apply String.eqb_refl].
    + exists "allow-same-origin". split; [apply in_or_app; right; left; reflexivity | reflexivity].
Qed.

(** The attribute grants a fifth capability, and it is the one that keeps
    the framed document in the host's origin. *)
Lemma sandbox_not_isolated_counterexample :
  permits (editorIframe loadedA) "allow-same-origin" = true
  /\ permits (previewIframe loadedA) "allow-same-origin" = true
  /\ ~ In "allow-same-origin" fourCapabilities
  /\ ~ (forall token, permits (editorIframe loadedA) token = true <->
                      In token fourCapabilities).
Proof.
  assert (N : ~ In "allow-same-origin" fourCapabilities).
  { cbn. intros [H|[H|[H|[H|[]]]]]; discriminate H. }
  split; [reflexivity|]. split; [reflexivity|]. split; [exact N|].
  intros H. apply N, H. reflexivity.
Qed.

(** ** No empty snapshot *)

(** C10.  After every run from the mounted component every history entry
    is a non-empty string.  A load seeds the history only from non-empty
    content: an artifact with empty content leaves the history as it was.
    And the snapshot timer's callback never pushes an empty buffer, whatever
    the history it closed over. *)
Theorem history_entries_nonempty :
  (forall es, exists s, run es mount = Some s /\ Forall nonEmpty (history s))
  /\ (forall s i n o t,
        history (setCreation (Some (mkCreation i n "" o t)) s) = history s)
  /\ (forall s c, history (setCreation (Some c) s) = history s
                  \/ (history (setCreation (Some c) s) = [html c] /\ html c <> ""))
  /\ (forall s due stamp h i,
        fireSnapshot (mkSnapshotTimer due stamp "" h i) s = set_snapshotTimer None s).
Proof.
  split; [|split; [|split]].
  - intros es. destruct (run_inv es mount Inv_mount) as (s & Hrun & (_ & _ & Hne) & _).
    exists s. auto.
  - intros s i n o t.
    destruct (load_empty_fields (mkCreation i n "" o t) s eq_refl) as (_ & _ & H & _).
    exact H.
  - intros s c. destruct (String.eqb (html c) "") eqn:E.
    + apply String.eqb_eq in E.
      destruct (load_empty_fields c s E) as (_ & _ & H & _). left. exact H.
    + apply String.eqb_neq in E.
      destruct (option_map (String.eqb (id c)) (prevCreationId s)) as [[|]|] eqn:P.
      * left. destruct (prevCreationId s) as [q|] eqn:Q; [|discriminate].
        cbn in P. injection P as P. apply String.eqb_eq in P. subst q.
        unfold setCreation.
        match goal with |- context [commit ?d ?x] => pose proof (commit_core d x) as C end.
        assert (R : (if dCreation (changed s (set_creation (Some c) s) true false)
                     then queuedReset (set_creation (Some c) s) else None) = None).
        { cbn. unfold queuedReset. cbn. rewrite Q. unfold idDiffers. cbn.
          rewrite strNeq_refl. reflexivity. }
        specialize (C R). core_eqs C. assumption.
      * right. destruct (prevCreationId s) as [q|] eqn:Q; [|discriminate].
        cbn in P. injection P as P. apply String.eqb_neq in P.
        destruct (load_fields c s E) as ((_ & _ & _ & H & _) & _).
        { rewrite Q. congruence. }
        auto.
      * right. destruct (prevCreationId s) as [q|] eqn:Q; [discriminate|].
        destruct (load_fields c s E) as ((_ & _ & _ & H & _) & _).
        { rewrite Q. discriminate. }
        auto.
  - intros s due stamp h i. reflexivity.
Qed.

(** ** The provenance flag *)

Lemma restore_coherent s nextIdx code :
  Coherent s ->
  let s' := set_editableCode code
              (set_historyIndex nextIdx (set_isInternalChange true s)) in
  Coherent (commit (changed s s' false false) s').
Proof.
  intros [Cid Cp] s'. rewrite commit_eq by reflexivity. rewrite paint_eq.
  unfold effectsResult, previewRuns, snapshotRuns, inSync. subst s'. cbn.
  autorewrite with model. split; cbn.
  - exact Cid.
  - intros p. destruct (strNeq (editableCode s) code) eqn:E; cbn.
    + destruct (String.eqb code (debouncedCode s)); [discriminate|].
      intros H. injection H as <-. cbn. auto.
    + apply strNeq_false_iff in E. intros H. destruct (Cp p H) as [H1 H2].
      split; congruence.
Qed.

Lemma handleUndo_inv_eq s s' :
  undoAvailable s = true -> handleUndo s = Some s' ->
  exists code,
    jsIndex (history s) (historyIndex s - 1) = Some code
    /\ s' = commit (changed s (set_editableCode code
                                 (set_historyIndex (historyIndex s - 1)
                                    (set_isInternalChange true s))) false false)
                   (set_editableCode code
                      (set_historyIndex (historyIndex s - 1)
                         (set_isInternalChange true s))).
Proof.
  unfold undoAvailable, handleUndo. intros A H.
  apply negb_true_iff, Z.leb_gt, Z.ltb_lt in A. rewrite A in H.
  destruct (jsIndex (history s) (historyIndex s - 1)) as [code|]; [|discriminate].
  exists code. split; [reflexivity|]. congruence.
Qed.

Lemma handleRedo_inv_eq s s' :
  redoAvailable s = true -> handleRedo s = Some s' ->
  exists code,
    jsIndex (history s) (historyIndex s + 1) = Some code
    /\ s' = commit (changed s (set_editableCode code
                                 (set_historyIndex (historyIndex s + 1)
                                    (set_isInternalChange true s))) false false)
                   (set_editableCode code
                      (set_historyIndex (historyIndex s + 1)
                         (set_isInternalChange true s))).
Proof.
  unfold redoAvailable, handleRedo. intros A H.
  apply negb_true_iff, Z.leb_gt, Z.ltb_lt in A. rewrite A in H.
  destruct (jsIndex (history s) (historyIndex s + 1)) as [code|]; [|discriminate].
  exists code. split; [reflexivity|]. congruence.
Qed.

(** After a restore from the history nothing is pushed, however long one
    waits. *)
Lemma restore_never_pushes s nextIdx code ms :
  Coherent s -> nextIdx <> historyIndex s ->
  let s' := commit (changed s (set_editableCode code
                                 (set_historyIndex nextIdx (set_isInternalChange true s)))
                            false false)
                   (set_editableCode code
                      (set_historyIndex nextIdx (set_isInternalChange true s))) in
  snapshotTimer s' = None /\ isInternalChange s' = false
  /\ historyPushes (elapse ms s') = historyPushes s
  /\ history (elapse ms s') = history s
  /\ historyIndex (elapse ms s') = nextIdx
  /\ editableCode (elapse ms s') = code.
Proof.
  intros C Hn s'.
  pose proof (restore_spec s nextIdx code Hn) as R. cbn zeta in R. fold s' in R.
  destruct R as (R1 & R2 & R3 & R4 & R5 & R6 & _).
  pose proof (restore_coherent s nextIdx code C) as C'. cbn zeta in C'. fold s' in C'.
  assert (Q : SnapshotSpent s') by (intros t E; rewrite R4 in E; discriminate E).
  destruct (elapse_quiet ms s' C' Q) as (_ & _ & (Q1 & Q2 & Q3 & Q4 & _) & _).
  split; [exact R4|]. split; [exact R5|]. repeat split; congruence.
Qed.

(** ** Manual save *)

(** [handleSave] flushes the buffer to the debounced copy and to [onUpdate]
    and cancels the pending preview timer, but leaves [isSyncing] as it
    was. *)
Lemma handleSave_fields s c :
  creation s = Some c -> prevCreationId s = Some (id c) ->
  let r := handleSave s in
  debouncedCode r = editableCode s /\ editableCode r = editableCode s
  /\ lastSaved r = Some (now s)
  /\ creation r = Some (updated c (editableCode s) (now s))
  /\ onUpdateCalls r = updated c (editableCode s) (now s) :: onUpdateCalls s
  /\ previewTimer r = None
  /\ isSyncing r = isSyncing s.
Proof.
  intros Hc Hp r. subst r. unfold handleSave. rewrite Hc.
  rewrite commit_eq.
  2:{ cbn. unfold queuedReset. cbn. rewrite Hp. unfold idDiffers. cbn.
      rewrite strNeq_refl. reflexivity. }
  rewrite paint_eq. unfold effectsResult, previewRuns, snapshotRuns, inSync. cbn.
  autorewrite with model. cbn. repeat split; reflexivity.
Qed.

(** C4.  Load the artifact of the scenario, edit the buffer to "AB" and
    save at once, before the 800 ms have passed: the
    debounced copy catches up, [onUpdate] is called with "AB", the saved
    time is set and the pending preview timer is gone; but [isSyncing],
    which the edit set, is still set, and stays set however long one
    waits. *)
Theorem manual_save_keeps_syncing :
  let s0 := edit "AB" loadedA in
  let s := handleSave s0 in
  (isSyncing s0 = true /\ previewTimer s0 <> None)
  /\ (debouncedCode s = "AB" /\ editableCode s = "AB"
      /\ lastSaved s = Some (now s0)
      /\ map html (onUpdateCalls s) = ["AB"]
      /\ previewTimer s = None)
  /\ (isSyncing s = true
      /\ isSyncing (elapse 800 s) = true
      /\ isSyncing (elapse 5000 s) = true).
Proof.
  vm_compute. repeat split; try reflexivity. discriminate.
Qed.

(** ** Reachable states: the flag is clear and the timers are current *)

Lemma commit_flag d s :
  isInternalChange s = false \/ snapshotRuns d = true ->
  isInternalChange (commit d s) = false.
Proof.
  intros H.
  destruct (if dCreation d then queuedReset s else None) as [content|] eqn:Q.
  - assert (Hd : dCreation d = true) by (destruct (dCreation d); [reflexivity | discriminate]).
    rewrite Hd in Q. rewrite (commit_reset d s content Hd Q). cbn zeta.
    unfold effectsResult at 1. cbn [isInternalChange].
    unfold snapshotRuns. cbn [changed dEditable dHistory dIndex].
    rewrite orb_true_r. reflexivity.
  - rewrite (commit_eq d s Q). unfold effectsResult. cbn [isInternalChange].
    rewrite paint_eq. cbn [isInternalChange set_srcDocs].
    destruct H as [H|H]; [rewrite H; destruct (snapshotRuns d); reflexivity|].
    rewrite H. reflexivity.
Qed.

Lemma commit_coherent d s :
  (forall c, creation s = Some c ->
             prevCreationId s = Some (id c) \/ (dCreation d = true /\ id c <> "")) ->
  previewRuns d = true \/ TimerCurrent s ->
  Coherent (commit d s).
Proof.
  intros H1 H2.
  assert (P : forall c, creation s = Some c ->
              (if dCreation d && idDiffers (creation s) (prevCreationId s)
               then idOrNull (creation s) else prevCreationId s) = Some (id c)).
  { intros c Hc. rewrite Hc.
    destruct (dCreation d && idDiffers (Some c) (prevCreationId s)) eqn:E.
    - apply andb_true_iff in E. destruct E as [Ed Ei].
      destruct (H1 c Hc) as [Hp|[_ Hi]]; [|apply idOrNull_id, Hi].
      rewrite Hp in Ei. unfold idDiffers in Ei. rewrite strNeq_refl in Ei. discriminate Ei.
    - destruct (H1 c Hc) as [Hp|[Hd Hi]]; [exact Hp|].
      rewrite Hd in E. cbn in E. unfold idDiffers in E.
      destruct (prevCreationId s) as [q|]; [|discriminate E].
      apply strNeq_false_iff in E. congruence. }
  destruct (if dCreation d then queuedReset s else None) as [content|] eqn:Q.
  - assert (Hd : dCreation d = true) by (destruct (dCreation d); [reflexivity | discriminate]).
    rewrite Hd in Q. rewrite (commit_reset d s content Hd Q). cbn zeta.
    rewrite !paint_eq.
    unfold effectsResult, previewRuns, snapshotRuns, inSync, applyReset.
    cbn [creation editableCode debouncedCode prevCreationId previewTimer
         set_srcDocs set_lastSaved set_historyIndex set_history set_debouncedCode
         set_editableCode changed dCreation dEditable dDebounced dHistory dIndex].
    rewrite Hd. autorewrite with model. split; cbn.
    + intros c Hc. rewrite <- (P c Hc), Hd. reflexivity.
    + intros p. destruct (strNeq (editableCode s) content) eqn:E1; cbn.
      * intros Hp; discriminate Hp.
      * apply strNeq_false_iff in E1.
        destruct (strNeq (debouncedCode s) content) eqn:E2; cbn.
        -- intros Hp; discriminate Hp.
        -- apply strNeq_false_iff in E2.
           rewrite E1, E2, String.eqb_refl. intros Hp; discriminate Hp.
  - rewrite (commit_eq d s Q), paint_eq.
    unfold effectsResult, inSync.
    cbn [creation editableCode debouncedCode prevCreationId previewTimer set_srcDocs].
    split; cbn.
    + exact P.
    + intros p. destruct (previewRuns d) eqn:R.
      * destruct (String.eqb (editableCode s) (debouncedCode s)); [discriminate|].
        intros Hp. injection Hp as <-. cbn. auto.
      * destruct H2 as [H2|H2]; [discriminate H2 | apply H2].
Qed.

Lemma Reach_mount : Reach mount.
Proof.
  split; [split|reflexivity].
  - intros c H. discriminate H.
  - intros p H. discriminate H.
Qed.

Lemma setCreation_reach c s :
  wellFormed (SetCreation c) -> Reach s -> Reach (setCreation c s).
Proof.
  intros W [[Cid Cp] F]. unfold setCreation. split.
  - apply commit_coherent; [|left; apply orb_true_r].
    intros c' Hc'. cbn in Hc'. subst c. right. split; [reflexivity | exact W].
  - apply commit_flag. left. exact F.
Qed.

Lemma edit_reach text s : Reach s -> Reach (edit text s).
Proof.
  intros [[Cid Cp] F]. unfold edit. split.
  - apply commit_coherent.
    + intros c Hc. left. apply Cid, Hc.
    + destruct (strNeq (editableCode s) text) eqn:E.
      * left. unfold previewRuns. cbn. rewrite E. reflexivity.
      * right. apply strNeq_false_iff in E. intros p Hp.
        destruct (Cp p Hp) as [A B]. split; [exact A | cbn; congruence].
  - apply commit_flag. left. exact F.
Qed.

Lemma handleSave_reach s : Reach s -> Reach (handleSave s).
Proof.
  intros R. pose proof R as [[Cid Cp] F]. unfold handleSave.
  destruct (creation s) as [c|] eqn:Ec; [|exact R].
  split.
  - apply commit_coherent; [|left; apply orb_true_r].
    intros c' Hc'. cbn in Hc'. injection Hc' as <-. left. cbn. apply Cid. reflexivity.
  - apply commit_flag. left. exact F.
Qed.

Lemma handleUndo_reach s s' : Reach s -> handleUndo s = Some s' -> Reach s'.
Proof.
  intros R H. pose proof R as [C F]. unfold handleUndo in H.
  destruct (0 <? historyIndex s)%Z; [|injection H as <-; exact R].
  destruct (jsIndex (history s) (historyIndex s - 1)) as [code|]; [|discriminate H].
  injection H as <-. split.
  - apply restore_coherent, C.
  - apply commit_flag. right. unfold snapshotRuns. cbn.
    rewrite (index_changed (historyIndex s) (historyIndex s - 1)) by lia.
    apply orb_true_r.
Qed.

Lemma handleRedo_reach s s' : Reach s -> handleRedo s = Some s' -> Reach s'.
Proof.
  intros R H. pose proof R as [C F]. unfold handleRedo in H.
  destruct (historyIndex s <? jsLength (history s) - 1)%Z;
    [|injection H as <-; exact R].
  destruct (jsIndex (history s) (historyIndex s + 1)) as [code|]; [|discriminate H].
  injection H as <-. split.
  - apply restore_coherent, C.
  - apply commit_flag. right. unfold snapshotRuns. cbn.
    rewrite (index_changed (historyIndex s) (historyIndex s + 1)) by lia.
    apply orb_true_r.
Qed.

Lemma firePreview_reach p s :
  Reach s -> previewTimer s = Some p -> Reach (firePreview p s).
Proof.
  intros [[Cid Cp] F] Hp. destruct (Cp p Hp) as [Ec _]. unfold firePreview.
  destruct (pCreation p) as [c|] eqn:E; [destruct (strNeq (pCode p) (html c))|].
  - split.
    + apply commit_coherent; [|left; apply orb_true_r].
      intros c' Hc'. cbn in Hc'. injection Hc' as <-. left. cbn. apply Cid. congruence.
    + apply commit_flag. left. exact F.
  - split.
    + apply commit_coherent.
      * intros c' Hc'. left. apply Cid, Hc'.
      * right. intros q Hq. discriminate Hq.
    + apply commit_flag. left. exact F.
  - split.
    + apply commit_coherent.
      * intros c' Hc'. left. apply Cid, Hc'.
      * right. intros q Hq. discriminate Hq.
    + apply commit_flag. left. exact F.
Qed.

Lemma fireSnapshot_reach t s : Reach s -> Reach (fireSnapshot t s).
Proof.
  intros R. pose proof R as [[Cid Cp] F]. unfold fireSnapshot.
  destruct (snapshotGuard t); [|exact R].
  split.
  - apply commit_coherent.
    + intros c Hc. left. apply Cid, Hc.
    + right. exact Cp.
  - apply commit_flag. left. exact F.
Qed.

Lemma tick_reach s : Reach s -> Reach (tick s).
Proof.
  assert (P : forall u, Reach u -> Reach (runPreview u)).
  { intros u R. unfold runPreview. destruct (previewTimer u) as [p|] eqn:E; [|exact R].
    destruct (pDue p <=? now u)%N; [apply firePreview_reach; assumption | exact R]. }
  assert (Q : forall u, Reach u -> Reach (runSnapshot u)).
  { intros u R. unfold runSnapshot. destruct (snapshotTimer u) as [t|]; [|exact R].
    destruct (sDue t <=? now u)%N; [apply fireSnapshot_reach; assumption | exact R]. }
  intros R. unfold tick.
  assert (R0 : Reach (set_now (N.succ (now s)) s)) by exact R.
  destruct (snapshotFirst _); auto.
Qed.

Lemma step_reach e s s' : wellFormed e -> Reach s -> step e s = Some s' -> Reach s'.
Proof.
  intros W R H. destruct e as [c|text| | | |]; cbn in H.
  - injection H as <-. apply setCreation_reach; assumption.
  - injection H as <-. apply edit_reach, R.
  - eapply handleUndo_reach; eassumption.
  - eapply handleRedo_reach; eassumption.
  - injection H as <-. apply handleSave_reach, R.
  - injection H as <-. apply tick_reach, R.
Qed.

Lemma run_reach es : forall s s',
  Forall wellFormed es -> Reach s -> run es s = Some s' -> Reach s'.
Proof.
  induction es as [|e es IH]; intros s s' W R H; cbn in H.
  - injection H as <-. exact R.
  - inversion W as [|? ? We Wes]; subst.
    destruct (step e s) as [s1|] eqn:E; [|discriminate H].
    apply (IH s1 s' Wes); [eapply step_reach; eassumption | exact H].
Qed.

(** ** When the snapshot timer pushes *)

Lemma wellFormed_ticks n : Forall wellFormed (repeat Tick n).
Proof. induction n as [|n IH]; cbn; constructor; [exact I | exact IH]. Qed.

(** C7.  When the snapshot timer runs it pushes the buffer it closed over (truncating the entries after the index, dropping the
    oldest entry above 100, advancing the index) if and only if that buffer
    is not empty, the history it closed over is not empty and the buffer
    differs from the entry at the index; otherwise it only clears itself,
    so an edit that reproduces the current snapshot adds no entry.  A user
    edit arms the timer on the new buffer.  In every state a run reaches
    the flag is clear and a pending timer closed over the current buffer,
    history and index; an undo or redo there sets the flag, the snapshot
    effect that follows consumes it (the flag is clear again) and arms no
    timer: nothing is pushed afterwards, however long one waits. *)
Theorem snapshot_push_guard :
  (forall t s,
     (snapshotGuard t = true <->
      sCode t <> "" /\ sHistory t <> []
      /\ jsIndex (sHistory t) (sIndex t) <> Some (sCode t))
     /\ (snapshotGuard t = true ->
         history (fireSnapshot t s) = pushHistory (history s) (sIndex t) (sCode t)
         /\ historyIndex (fireSnapshot t s) = pushIndex (historyIndex s)
         /\ historyPushes (fireSnapshot t s) = sCode t :: historyPushes s)
     /\ (snapshotGuard t = false -> fireSnapshot t s = set_snapshotTimer None s))
  /\ (forall s text,
        isInternalChange s = false -> editableCode s <> text ->
        exists k, snapshotTimer (edit text s)
                  = Some (mkSnapshotTimer (now s + 1000) k text
                                          (history s) (historyIndex s)))
  /\ (forall es s,
        Forall wellFormed es -> run es mount = Some s ->
        isInternalChange s = false
        /\ (forall t, snapshotTimer s = Some t ->
                      sCode t = editableCode s /\ sHistory t = history s
                      /\ sIndex t = historyIndex s)
        /\ forall s',
             (undoAvailable s = true /\ handleUndo s = Some s')
             \/ (redoAvailable s = true /\ handleRedo s = Some s') ->
             snapshotTimer s' = None /\ isInternalChange s' = false
             /\ forall ms, historyPushes (elapse ms s') = historyPushes s
                           /\ history (elapse ms s') = history s
                           /\ historyIndex (elapse ms s') = historyIndex s').
Proof.
  split; [|split].
  - intros t s. split; [apply snapshotGuard_true_iff|].
    pose proof (fireSnapshot_spec t s) as F. cbn zeta in F.
    split; intros G; rewrite G in F; exact F.
  - intros s text Hf Hne.
    destruct (edit_fields text s Hne Hf) as (_ & _ & _ & _ & H). exact H.
  - intros es s W Hrun.
    destruct (run_reach es mount s W Reach_mount Hrun) as [C Fl].
    destruct (run_inv es mount Inv_mount) as (s0 & Hrun0 & _ & HT).
    rewrite Hrun in Hrun0. injection Hrun0 as <-.
    split; [exact Fl|]. split.
    { intros t Ht. destruct (HT t Ht) as (A1 & A2 & A3). auto. }
    intros s' [[A H]|[A H]].
    + destruct (handleUndo_inv_eq s s' A H) as (code & _ & ->).
      assert (Hn : (historyIndex s - 1)%Z <> historyIndex s) by lia.
      pose proof (restore_never_pushes s _ code 0 C Hn) as R0. cbn zeta in R0.
      destruct R0 as (T & F & _ & _ & I0 & _). cbn [elapse] in I0.
      split; [exact T|]. split; [exact F|]. intros ms.
      pose proof (restore_never_pushes s _ code ms C Hn) as R. cbn zeta in R.
      destruct R as (_ & _ & P & Hh & I & _). rewrite I0. auto.
    + destruct (handleRedo_inv_eq s s' A H) as (code & _ & ->).
      assert (Hn : (historyIndex s + 1)%Z <> historyIndex s) by lia.
      pose proof (restore_never_pushes s _ code 0 C Hn) as R0. cbn zeta in R0.
      destruct R0 as (T & F & _ & _ & I0 & _). cbn [elapse] in I0.
      split; [exact T|]. split; [exact F|]. intros ms.
      pose proof (restore_never_pushes s _ code ms C Hn) as R. cbn zeta in R.
      destruct R as (_ & _ & P & Hh & I & _). rewrite I0. auto.
Qed.

Lemma snapshot_push_guard_witness :
  run scenarioRun mount = Some afterEdit
  /\ handleUndo afterEdit = Some afterUndo
  /\ snapshotTimer afterUndo = None /\ isInternalChange afterUndo = false
  /\ historyPushes (elapse 5000 afterUndo) = historyPushes afterEdit
  /\ history (elapse 5000 afterUndo) = history afterEdit
  /\ historyIndex (elapse 5000 afterUndo) = historyIndex afterUndo.
Proof.
  assert (W : Forall wellFormed scenarioRun).
  { constructor; [discriminate|]. constructor; [exact I|]. apply wellFormed_ticks. }
  assert (Hrun : run scenarioRun mount = Some afterEdit) by (vm_compute; reflexivity).
  assert (E : handleUndo afterEdit = Some afterUndo) by (vm_compute; reflexivity).
  assert (A : undoAvailable afterEdit = true) by (vm_compute; reflexivity).
  destruct (proj2 (proj2 snapshot_push_guard) scenarioRun afterEdit W Hrun)
    as (_ & _ & U).
  destruct (U afterUndo (or_introl (conj A E))) as (T & F & R).
  split; [exact Hrun|]. split; [exact E|]. split; [exact T|]. split; [exact F|].
  exact (R 5000).
Defined.

(** Clearing the buffer is a user edit that differs from the current
    snapshot, yet the timer pushes nothing. *)
Lemma snapshot_push_empty_counterexample :
  let s := edit "" loadedA in
  isInternalChange s = false
  /\ (exists t, snapshotTimer s = Some t /\ sCode t = editableCode s)
  /\ jsIndex (history s) (historyIndex s) <> Some (editableCode s)
  /\ historyPushes (elapse 1000 s) = historyPushes s
  /\ history (elapse 1000 s) = history s.
Proof.
  vm_compute. split; [reflexivity|]. split; [eexists; split; reflexivity|].
  split; [discriminate|]. split; reflexivity.
Qed.

(** ** Renders, seen from the preview channel *)

Lemma commit_view d s :
  let r := commit d s in
  now r = now s /\ creation r = creation s /\ onUpdateCalls r = onUpdateCalls s
  /\ historyPushes r = historyPushes s
  /\ match (if dCreation d then queuedReset s else None) with
     | Some content =>
         editableCode r = content /\ debouncedCode r = content /\ previewTimer r = None
         /\ history r = [content] /\ historyIndex r = 0%Z
     | None =>
         editableCode r = editableCode s /\ debouncedCode r = debouncedCode s
         /\ previewTimer r = previewTimerAfter d s
         /\ isSyncing r = (if previewRuns d && negb (inSync s) then true else isSyncing s)
         /\ history r = history s /\ historyIndex r = historyIndex s
         /\ prevCreationId r =
            (if dCreation d && idDiffers (creation s) (prevCreationId s)
             then idOrNull (creation s) else prevCreationId s)
         /\ srcDocs r = (if dDebounced d then debouncedCode s :: srcDocs s else srcDocs s)
     end.
Proof.
  intros r. subst r.
  destruct (if dCreation d then queuedReset s else None) as [content|] eqn:Q.
  - assert (Hd : dCreation d = true) by (destruct (dCreation d); [reflexivity | discriminate]).
    rewrite Hd in Q. rewrite (commit_reset d s content Hd Q). cbn zeta.
    rewrite !paint_eq.
    unfold effectsResult, previewRuns, snapshotRuns, inSync, applyReset.
    cbn [creation editableCode debouncedCode prevCreationId previewTimer now onUpdateCalls
         historyPushes history historyIndex
         set_srcDocs set_lastSaved set_historyIndex set_history set_debouncedCode
         set_editableCode changed dCreation dEditable dDebounced dHistory dIndex].
    rewrite Hd. autorewrite with model.
    repeat (split; [reflexivity|]).
    split; [|split; reflexivity].
    destruct (strNeq (editableCode s) content) eqn:E1; cbn; [reflexivity|].
    apply strNeq_false_iff in E1.
    destruct (strNeq (debouncedCode s) content) eqn:E2; cbn; [reflexivity|].
    apply strNeq_false_iff in E2.
    rewrite E1, E2, String.eqb_refl. reflexivity.
  - rewrite (commit_eq d s Q), paint_eq.
    unfold effectsResult, previewTimerAfter, inSync.
    cbn [creation editableCode debouncedCode prevCreationId previewTimer now onUpdateCalls
         historyPushes history historyIndex isSyncing srcDocs nextStamp set_srcDocs].
    repeat (split; [reflexivity|]). reflexivity.
Qed.

Lemma queuedReset_html s content :
  queuedReset s = Some content ->
  exists c, creation s = Some c /\ html c = content /\ content <> "".
Proof.
  unfold queuedReset. destruct (idDiffers (creation s) (prevCreationId s)); [|discriminate].
  destruct (creation s) as [c|]; [|discriminate].
  destruct (truthy (html c)) eqn:T; [|discriminate].
  intros H. injection H as <-. exists c. apply truthy_true_iff in T. auto.
Qed.

Lemma commit_now d s : now (commit d s) = now s.
Proof. exact (proj1 (commit_view d s)). Qed.

(** ** The preview timer follows the buffer *)

Lemma commit_sync lo d s :
  (lo <= now s)%N -> previewRuns d = true \/ SyncInv lo s -> SyncInv lo (commit d s).
Proof.
  intros Hlo H.
  pose proof (commit_view d s) as V. cbn zeta in V.
  destruct V as (Vn & Vc & _ & _ & V).
  destruct (if dCreation d then queuedReset s else None) as [content|].
  - destruct V as (Ve & Vd & Vp & _).
    unfold SyncInv, inSync. rewrite Ve, Vd, Vp, String.eqb_refl.
    split; [reflexivity | discriminate].
  - destruct V as (Ve & Vd & Vp & Vs & _).
    unfold SyncInv, inSync. rewrite Ve, Vd, Vp, Vs, Vn, Vc.
    unfold previewTimerAfter, inSync. destruct (previewRuns d) eqn:R; cbn [andb].
    + destruct (String.eqb (editableCode s) (debouncedCode s)); cbn [negb].
      * split; [reflexivity | discriminate].
      * split; [discriminate|]. intros _. split; [reflexivity|].
        eexists. split; [reflexivity|]. cbn [pDue pCode pCreation].
        split; [lia|]. split; [lia|]. split; reflexivity.
    + destruct H as [H|H]; [discriminate H | exact H].
Qed.

Lemma SyncInv_mount : SyncInv 0 mount.
Proof. split; [reflexivity | discriminate]. Qed.

Lemma setCreation_sync c s : SyncInv (now s) s -> SyncInv (now s) (setCreation c s).
Proof.
  intros _. unfold setCreation. apply commit_sync; [cbn; lia | left].
  unfold previewRuns. cbn [changed dCreation]. apply orb_true_r.
Qed.

Lemma edit_sync text s : SyncInv (now s) s -> SyncInv (now s) (edit text s).
Proof.
  intros H. unfold edit. apply commit_sync; [cbn; lia|].
  unfold previewRuns. cbn [changed dEditable dDebounced dCreation editableCode set_editableCode].
  destruct (strNeq (editableCode s) text) eqn:E; [left; reflexivity|].
  right. apply strNeq_false_iff in E. subst text.
  destruct s; exact H.
Qed.

Lemma handleSave_sync s : SyncInv (now s) s -> SyncInv (now s) (handleSave s).
Proof.
  intros H. unfold handleSave. destruct (creation s) as [c|]; [|exact H].
  apply commit_sync; [cbn; lia | left]. unfold previewRuns. cbn [changed dCreation].
  apply orb_true_r.
Qed.

Lemma restore_sync s nextIdx code :
  SyncInv (now s) s ->
  let s' := set_editableCode code (set_historyIndex nextIdx (set_isInternalChange true s)) in
  SyncInv (now s) (commit (changed s s' false false) s').
Proof.
  intros H s'. apply commit_sync; [cbn; lia|].
  unfold previewRuns, s'.
  cbn [changed dEditable dDebounced dCreation editableCode set_editableCode].
  destruct (strNeq (editableCode s) code) eqn:E; [left; reflexivity|].
  right. apply strNeq_false_iff in E. subst code.
  destruct s; exact H.
Qed.

Lemma handleUndo_sync s s' :
  SyncInv (now s) s -> handleUndo s = Some s' -> SyncInv (now s) s' /\ now s' = now s.
Proof.
  intros H. unfold handleUndo.
  destruct (0 <? historyIndex s)%Z.
  - destruct (jsIndex (history s) (historyIndex s - 1)) as [code|]; [|discriminate].
    intros E. injection E as <-. split; [apply restore_sync, H|].
    rewrite commit_now. reflexivity.
  - intros E. injection E as <-. auto.
Qed.

Lemma handleRedo_sync s s' :
  SyncInv (now s) s -> handleRedo s = Some s' -> SyncInv (now s) s' /\ now s' = now s.
Proof.
  intros H. unfold handleRedo.
  destruct (historyIndex s <? jsLength (history s) - 1)%Z.
  - destruct (jsIndex (history s) (historyIndex s + 1)) as [code|]; [|discriminate].
    intros E. injection E as <-. split; [apply restore_sync, H|].
    rewrite commit_now. reflexivity.
  - intros E. injection E as <-. auto.
Qed.

(** The preview timer's callback, whatever the ids: the debounced copy
    takes the buffer the timer closed over, the buffer stays, the content is
    persisted when it differs from the creation's. *)
Lemma firePreview_view p s :
  pCode p = editableCode s ->
  let r := firePreview p s in
  now r = now s /\ editableCode r = editableCode s /\ debouncedCode r = editableCode s
  /\ previewTimer r = None /\ historyPushes r = historyPushes s
  /\ match previewPersists p with
     | Some c => creation r = Some (updated c (pCode p) (now s))
                 /\ onUpdateCalls r = updated c (pCode p) (now s) :: onUpdateCalls s
     | None => creation r = creation s /\ onUpdateCalls r = onUpdateCalls s
                 /\ prevCreationId r = prevCreationId s
     end.
Proof.
  intros Hp r. subst r. unfold firePreview, previewPersists.
  destruct (pCreation p) as [c|]; [destruct (strNeq (pCode p) (html c)) eqn:E|].
  - set (s2 := set_lastSaved _ _). set (d := changed s s2 true false).
    pose proof (commit_view d s2) as V. cbn zeta in V.
    destruct V as (Vn & Vc & Vu & Vh & V).
    rewrite Vn, Vc, Vu, Vh.
    assert (Q : forall content, queuedReset s2 = Some content -> content = editableCode s).
    { intros content Hq. apply queuedReset_html in Hq. destruct Hq as (c' & Hc & Hh & _).
      unfold s2 in Hc. cbn in Hc. injection Hc as <-. cbn in Hh. congruence. }
    cbn [dCreation d changed] in V.
    destruct (queuedReset s2) as [content|].
    + destruct V as (Ve & Vd & Vp & _). rewrite Ve, Vd, Vp, (Q content eq_refl).
      unfold s2. cbn. auto 10.
    + destruct V as (Ve & Vd & Vp & _). rewrite Ve, Vd, Vp.
      unfold previewTimerAfter, previewRuns, inSync, d, s2. cbn.
      rewrite Hp, String.eqb_refl, orb_true_r. auto 10.
  - set (s1 := set_isSyncing _ _). set (d := changed s s1 false false).
    pose proof (commit_view d s1) as V. cbn zeta in V. cbn [dCreation d changed] in V.
    destruct V as (Vn & Vc & Vu & Vh & Ve & Vd & Vp & _ & _ & _ & Vq & _).
    rewrite Vn, Vc, Vu, Vh, Ve, Vd, Vp, Vq.
    unfold previewTimerAfter, previewRuns, inSync, d, s1. cbn.
    rewrite Hp, String.eqb_refl, strNeq_refl. cbn.
    destruct (strNeq (debouncedCode s) (editableCode s)); cbn; auto 10.
  - set (s1 := set_isSyncing _ _). set (d := changed s s1 false false).
    pose proof (commit_view d s1) as V. cbn zeta in V. cbn [dCreation d changed] in V.
    destruct V as (Vn & Vc & Vu & Vh & Ve & Vd & Vp & _ & _ & _ & Vq & _).
    rewrite Vn, Vc, Vu, Vh, Ve, Vd, Vp, Vq.
    unfold previewTimerAfter, previewRuns, inSync, d, s1. cbn.
    rewrite Hp, String.eqb_refl, strNeq_refl. cbn.
    destruct (strNeq (debouncedCode s) (editableCode s)); cbn; auto 10.
Qed.

(** The snapshot timer's callback leaves the preview channel alone. *)
Lemma fireSnapshot_view t s :
  let r := fireSnapshot t s in
  now r = now s /\ creation r = creation s /\ onUpdateCalls r = onUpdateCalls s
  /\ editableCode r = editableCode s /\ debouncedCode r = debouncedCode s
  /\ previewTimer r = previewTimer s /\ isSyncing r = isSyncing s
  /\ prevCreationId r = prevCreationId s /\ srcDocs r = srcDocs s.
Proof.
  intros r. subst r. unfold fireSnapshot.
  destruct (snapshotGuard t); [|cbn; auto 10].
  set (s1 := set_historyPushes _ _). set (d := changed s s1 false true).
  pose proof (commit_view d s1) as V. cbn zeta in V. cbn [dCreation d changed] in V.
  destruct V as (Vn & Vc & Vu & Vh & Ve & Vd & Vp & Vs & _ & _ & Vq & Vr).
  rewrite Vn, Vc, Vu, Ve, Vd, Vp, Vs, Vq, Vr.
  unfold previewTimerAfter, previewRuns, inSync, d, s1. cbn.
  rewrite !strNeq_refl. cbn. auto 10.
Qed.

Lemma runSnapshot_view s :
  let r := runSnapshot s in
  now r = now s /\ creation r = creation s /\ onUpdateCalls r = onUpdateCalls s
  /\ editableCode r = editableCode s /\ debouncedCode r = debouncedCode s
  /\ previewTimer r = previewTimer s /\ isSyncing r = isSyncing s
  /\ prevCreationId r = prevCreationId s /\ srcDocs r = srcDocs s.
Proof.
  intros r. subst r. unfold runSnapshot.
  destruct (snapshotTimer s) as [t|]; [|auto 10].
  destruct (sDue t <=? now s)%N; [apply fireSnapshot_view | auto 10].
Qed.

Lemma runSnapshot_sync lo s : SyncInv lo s -> SyncInv lo (runSnapshot s).
Proof.
  intros H. pose proof (runSnapshot_view s) as V. cbn zeta in V.
  destruct V as (Vn & Vc & _ & Ve & Vd & Vp & Vs & _).
  unfold SyncInv, inSync in *. rewrite Vn, Vc, Ve, Vd, Vp, Vs. exact H.
Qed.

Lemma runPreview_sync lo s :
  SyncInv lo s -> (now s <= lo + 1)%N ->
  SyncInv (now s) (runPreview s) /\ now (runPreview s) = now s.
Proof.
  intros H Hlo. unfold runPreview.
  destruct (previewTimer s) as [p|] eqn:P.
  - destruct H as [H1 H2]. destruct (inSync s) eqn:I.
    + rewrite (H1 eq_refl) in P. discriminate P.
    + destruct (H2 eq_refl) as (Hs & q & Hq & Hd1 & Hd2 & Hc & Hr).
      rewrite P in Hq. injection Hq as <-.
      destruct (pDue p <=? now s)%N eqn:D.
      * pose proof (firePreview_view p s Hc) as V. cbn zeta in V.
        destruct V as (Vn & Ve & Vd & Vp & _).
        split; [|exact Vn].
        unfold SyncInv, inSync. rewrite Ve, Vd, Vp, String.eqb_refl.
        split; [reflexivity | discriminate].
      * apply N.leb_gt in D. split; [|reflexivity].
        split; [rewrite I; discriminate|]. intros _. split; [exact Hs|].
        exists p. rewrite P. auto.
  - split; [|reflexivity]. destruct H as [H1 H2]. split; [intros _; exact P|].
    intros I. destruct (H2 I) as (_ & q & Hq & _). rewrite P in Hq. discriminate Hq.
Qed.

Lemma set_now_sync s : SyncInv (now s) s -> SyncInv (now s) (set_now (N.succ (now s)) s).
Proof.
  intros [H1 H2]. split; [exact H1|]. intros I.
  destruct (H2 I) as (Hs & p & Hp & Ha & Hb & Hc & Hr).
  split; [exact Hs|]. exists p. cbn [now set_now]. repeat split; try assumption. lia.
Qed.

Lemma tick_sync s :
  SyncInv (now s) s -> SyncInv (now (tick s)) (tick s) /\ now (tick s) = N.succ (now s).
Proof.
  intros H. apply set_now_sync in H. unfold tick.
  set (s1 := set_now (N.succ (now s)) s) in *.
  assert (N1 : now s1 = N.succ (now s)) by reflexivity.
  destruct (snapshotFirst s1).
  - pose proof (runSnapshot_view s1) as V. cbn zeta in V. destruct V as (Vn & _).
    apply runSnapshot_sync in H.
    destruct (runPreview_sync (now s) (runSnapshot s1) H) as [A B]; [lia|].
    rewrite B, Vn, N1. rewrite Vn, N1 in A. auto.
  - destruct (runPreview_sync (now s) s1 H) as [A B]; [lia|].
    pose proof (runSnapshot_view (runPreview s1)) as V. cbn zeta in V. destruct V as (Vn & _).
    rewrite Vn, B, N1. split; [|reflexivity].
    apply runSnapshot_sync. rewrite N1 in A. exact A.
Qed.

Lemma step_sync e s s' : SyncInv (now s) s -> step e s = Some s' -> SyncInv (now s') s'.
Proof.
  intros H. destruct e as [c|text| | | |]; cbn [step]; intros E.
  - injection E as <-. replace (now (setCreation c s)) with (now s).
    + apply setCreation_sync, H.
    + unfold setCreation. rewrite commit_now. reflexivity.
  - injection E as <-. replace (now (edit text s)) with (now s).
    + apply edit_sync, H.
    + unfold edit. rewrite commit_now. reflexivity.
  - destruct (handleUndo_sync s s' H E) as [A B]. rewrite B. exact A.
  - destruct (handleRedo_sync s s' H E) as [A B]. rewrite B. exact A.
  - injection E as <-. replace (now (handleSave s)) with (now s).
    + apply handleSave_sync, H.
    + unfold handleSave. destruct (creation s); [|reflexivity].
      rewrite commit_now. reflexivity.
  - injection E as <-. apply tick_sync, H.
Qed.

Lemma run_sync es : forall s s', SyncInv (now s) s -> run es s = Some s' -> SyncInv (now s') s'.
Proof.
  induction es as [|e es IH]; intros s s' H E; cbn [run] in E.
  - injection E as <-. exact H.
  - destruct (step e s) as [m|] eqn:M; [|discriminate E].
    apply (IH m s'); [apply (step_sync e s m H M) | exact E].
Qed.

(** ** Time passing, seen from the preview channel *)

Lemma Untouched_refl s : Untouched s s.
Proof. unfold Untouched. auto 10. Qed.

Lemma Untouched_trans a b c : Untouched a b -> Untouched b c -> Untouched a c.
Proof.
  unfold Untouched.
  intros (A1 & A2 & A3 & A4 & A5 & A6 & A7 & A8) (B1 & B2 & B3 & B4 & B5 & B6 & B7 & B8).
  rewrite B1, B2, B3, B4, B5, B6, B7, B8. auto 10.
Qed.

Lemma runSnapshot_untouched s : Untouched s (runSnapshot s) /\ now (runSnapshot s) = now s.
Proof.
  pose proof (runSnapshot_view s) as V. cbn zeta in V.
  destruct V as (Vn & Vc & Vu & Ve & Vd & Vp & Vs & Vq & Vr).
  unfold Untouched. auto 10.
Qed.

Lemma tick_untouched s :
  previewAfter (N.succ (now s)) s ->
  Untouched s (tick s) /\ now (tick s) = N.succ (now s).
Proof.
  intros H. unfold tick. set (s1 := set_now (N.succ (now s)) s).
  assert (U1 : Untouched s s1) by (unfold Untouched; cbn; auto 10).
  assert (R : forall x, Untouched s x -> now x = N.succ (now s) -> runPreview x = x).
  { intros x (_ & _ & _ & _ & Xp & _) Xn. unfold runPreview. rewrite Xp.
    destruct (previewTimer s) as [p|] eqn:P; [|reflexivity].
    specialize (H p P). rewrite Xn.
    destruct (pDue p <=? N.succ (now s))%N eqn:D; [|reflexivity].
    apply N.leb_le in D. lia. }
  destruct (snapshotFirst s1).
  - destruct (runSnapshot_untouched s1) as [U2 N2].
    rewrite (R (runSnapshot s1)); [| apply (Untouched_trans _ _ _ U1 U2) | rewrite N2; reflexivity].
    split; [apply (Untouched_trans _ _ _ U1 U2) | rewrite N2; reflexivity].
  - rewrite (R s1 U1 eq_refl).
    destruct (runSnapshot_untouched s1) as [U2 N2].
    split; [apply (Untouched_trans _ _ _ U1 U2) | rewrite N2; reflexivity].
Qed.

Lemma elapse_untouched ms : forall s,
  previewAfter (now s + N.of_nat ms) s ->
  Untouched s (elapse ms s) /\ now (elapse ms s) = (now s + N.of_nat ms)%N.
Proof.
  induction ms as [|ms IH]; intros s H; cbn [elapse].
  - split; [apply Untouched_refl | lia].
  - destruct (tick_untouched s) as [U1 N1].
    { intros p Hp. specialize (H p Hp). lia. }
    destruct (IH (tick s)) as [U2 N2].
    { intros p Hp. destruct U1 as (_ & _ & _ & _ & Up & _). rewrite Up in Hp.
      specialize (H p Hp). rewrite N1. lia. }
    split; [apply (Untouched_trans _ _ _ U1 U2) | rewrite N2, N1; lia].
Qed.

(** With no preview timer pending nothing is ever persisted or rendered,
    however long one waits. *)
Lemma elapse_unarmed ms s :
  previewTimer s = None -> Untouched s (elapse ms s).
Proof.
  intros H. apply elapse_untouched. intros p Hp. rewrite H in Hp. discriminate Hp.
Qed.

(** The millisecond in which the preview timer is due. *)
Lemma tick_fire p s :
  previewTimer s = Some p -> (pDue p <= N.succ (now s))%N -> pCode p = editableCode s ->
  let r := tick s in
  now r = N.succ (now s) /\ editableCode r = editableCode s
  /\ debouncedCode r = editableCode s /\ previewTimer r = None
  /\ onUpdateCalls r = (persistedBy p (N.succ (now s)) ++ onUpdateCalls s)%list
  /\ creation r = match previewPersists p with
                  | Some c => Some (updated c (pCode p) (N.succ (now s)))
                  | None => creation s
                  end
  /\ (previewPersists p = None -> prevCreationId r = prevCreationId s).
Proof.
  intros P D C r. subst r. unfold tick. set (s1 := set_now (N.succ (now s)) s).
  assert (F : forall x, previewTimer x = Some p -> now x = N.succ (now s) ->
                        runPreview x = firePreview p x).
  { intros x Xp Xn. unfold runPreview. rewrite Xp, Xn.
    apply N.leb_le in D. rewrite D. reflexivity. }
  assert (G : forall x, editableCode x = editableCode s -> now x = N.succ (now s) ->
                let r := firePreview p x in
                now r = N.succ (now s) /\ editableCode r = editableCode s
                /\ debouncedCode r = editableCode s /\ previewTimer r = None
                /\ onUpdateCalls r = (persistedBy p (N.succ (now s)) ++ onUpdateCalls x)%list
                /\ creation r = match previewPersists p with
                                | Some c => Some (updated c (pCode p) (N.succ (now s)))
                                | None => creation x
                                end
                /\ (previewPersists p = None -> prevCreationId r = prevCreationId x)).
  { intros x Xe Xn. pose proof (firePreview_view p x) as V. cbn zeta in V |- *.
    destruct V as (Vn & Ve & Vd & Vp & _ & V); [congruence|].
    rewrite Vn, Ve, Vd, Vp, Xn, Xe. unfold persistedBy.
    destruct (previewPersists p) as [c|].
    - destruct V as [V1 V2]. rewrite V1, V2, Xn.
      repeat (split; [reflexivity|]). discriminate.
    - destruct V as (V1 & V2 & V3). rewrite V1, V2. auto 10. }
  destruct (snapshotFirst s1).
  - pose proof (runSnapshot_view s1) as V. cbn zeta in V.
    destruct V as (Vn & Vc & Vu & Ve & _ & Vp & _ & Vq & _).
    rewrite (F (runSnapshot s1)); [| rewrite Vp; exact P | rewrite Vn; reflexivity].
    specialize (G (runSnapshot s1)). cbn zeta in G.
    rewrite Vu, Vc, Vq in G. apply G; [rewrite Ve | rewrite Vn]; reflexivity.
  - rewrite (F s1 P eq_refl).
    pose proof (runSnapshot_view (firePreview p s1)) as V. cbn zeta in V.
    destruct V as (Vn & Vc & Vu & Ve & Vd & Vp & _ & Vq & _).
    rewrite Vn, Vc, Vu, Ve, Vd, Vp, Vq. apply (G s1); reflexivity.
Qed.

(** A pending preview timer runs exactly when it is due, whatever the
    snapshot timer does meanwhile, and nothing else touches the preview
    channel before or after. *)
Lemma elapse_fire p s k ms :
  previewTimer s = Some p -> pDue p = (now s + N.of_nat (S k))%N ->
  pCode p = editableCode s -> S k <= ms ->
  let r := elapse ms s in
  editableCode r = editableCode s /\ debouncedCode r = editableCode s
  /\ previewTimer r = None
  /\ onUpdateCalls r = (persistedBy p (pDue p) ++ onUpdateCalls s)%list
  /\ creation r = match previewPersists p with
                  | Some c => Some (updated c (pCode p) (pDue p))
                  | None => creation s
                  end
  /\ (previewPersists p = None -> prevCreationId r = prevCreationId s).
Proof.
  intros P D C Hk r. subst r.
  replace ms with (k + (1 + (ms - S k))) by lia.
  rewrite (elapse_add k), (elapse_add 1), elapse_1.
  destruct (elapse_untouched k s) as [U N1].
  { intros q Hq. rewrite P in Hq. injection Hq as <-. lia. }
  destruct U as (Uc & Uu & Ue & _ & Up & _ & Uq & _).
  set (a := elapse k s) in *.
  pose proof (tick_fire p a) as F. cbn zeta in F.
  destruct F as (Fn & Fe & Fd & Fp & Fu & Fc & Fq); [congruence | lia | congruence |].
  pose proof (elapse_unarmed (ms - S k) (tick a) Fp) as (Wc & Wu & We & Wd & Wp & _ & Wq & _).
  rewrite Wc, Wu, We, Wd, Wp, Wq, Fe, Fd, Fp, Fu, Fc, Ue, Uu, Uc.
  replace (N.succ (now a)) with (pDue p) by lia.
  repeat (split; [reflexivity|]). intros Hn. rewrite (Fq Hn). exact Uq.
Qed.

(** With no preview timer and no push pending, time changes nothing but the
    clock and the spent snapshot timer. *)
Lemma tick_spent s :
  previewTimer s = None -> SnapshotSpent s ->
  StillHist s (tick s) /\ Untouched s (tick s) /\ SnapshotSpent (tick s).
Proof.
  intros P H. unfold tick. set (s1 := set_now (N.succ (now s)) s).
  assert (F : snapshotFirst s1 = false) by (unfold snapshotFirst, s1; cbn; rewrite P; reflexivity).
  rewrite F. assert (R : runPreview s1 = s1) by (unfold runPreview, s1; cbn; rewrite P; reflexivity).
  rewrite R. unfold runSnapshot. change (snapshotTimer s1) with (snapshotTimer s).
  destruct (snapshotTimer s) as [t|] eqn:T.
  - destruct (sDue t <=? now s1)%N.
    + unfold fireSnapshot. rewrite (H t T).
      unfold StillHist, Untouched, SnapshotSpent. cbn.
      repeat split; try reflexivity. intros q Hq. discriminate Hq.
    + unfold StillHist, Untouched, SnapshotSpent. cbn.
      repeat split; try reflexivity. intros q Hq. rewrite T in Hq. injection Hq as <-.
      apply H. exact T.
  - unfold StillHist, Untouched, SnapshotSpent. cbn.
    repeat split; try reflexivity. intros q Hq. rewrite T in Hq. discriminate Hq.
Qed.

Lemma elapse_spent ms : forall s,
  previewTimer s = None -> SnapshotSpent s ->
  StillHist s (elapse ms s) /\ Untouched s (elapse ms s).
Proof.
  induction ms as [|ms IH]; intros s P H; cbn [elapse].
  - split; [unfold StillHist; auto 10 | apply Untouched_refl].
  - destruct (tick_spent s P H) as (A & B & C).
    assert (P' : previewTimer (tick s) = None).
    { destruct B as (_ & _ & _ & _ & Bp & _). rewrite Bp. exact P. }
    destruct (IH (tick s) P' C) as [A' B'].
    split; [|apply (Untouched_trans _ _ _ B B')].
    destruct A as (A1 & A2 & A3 & A4 & A5), A' as (A1' & A2' & A3' & A4' & A5').
    unfold StillHist. rewrite A1', A2', A3', A4', A5'. auto 10.
Qed.

(** ** The debounced copy lags the buffer by at most 800 ms *)

(** X1.  In every state a run of events reaches from the mounted component,
    800 ms without further events are enough for the debounced copy (the
    content the iframes render) to equal the buffer; the buffer itself is
    left as it was and no preview timer stays pending. *)
Theorem debounced_catches_up es s ms :
  run es mount = Some s -> 800 <= ms ->
  let r := elapse ms s in
  debouncedCode r = editableCode s /\ editableCode r = editableCode s
  /\ previewTimer r = None.
Proof.
  intros Hrun Hms r. subst r.
  pose proof (run_sync es mount s SyncInv_mount Hrun) as [H1 H2].
  destruct (inSync s) eqn:I.
  - pose proof (elapse_unarmed ms s (H1 eq_refl)) as (_ & _ & Ue & Ud & Up & _).
    rewrite Ue, Ud, Up. apply String.eqb_eq in I. rewrite (H1 eq_refl). auto.
  - destruct (H2 eq_refl) as (_ & p & Hp & Ha & Hb & Hc & _).
    pose proof (elapse_fire p s (N.to_nat (pDue p - now s - 1)) ms Hp) as F.
    cbn zeta in F. destruct F as (Fe & Fd & Fp & _); [lia | exact Hc | lia |]. auto.
Qed.

Lemma debounced_catches_up_witness :
  run [SetCreation (Some artifactA); Edit "AB"] mount = Some editedA
  /\ debouncedCode editedA = "A"
  /\ debouncedCode (elapse 800 editedA) = editableCode editedA
  /\ editableCode (elapse 800 editedA) = editableCode editedA
  /\ previewTimer (elapse 800 editedA) = None.
Proof.
  assert (Hrun : run [SetCreation (Some artifactA); Edit "AB"] mount = Some editedA)
    by (vm_compute; reflexivity).
  split; [exact Hrun|]. split; [vm_compute; reflexivity|].
  apply (debounced_catches_up _ editedA 800 Hrun). lia.
Defined.

(** X2.  In every state a run reaches: while the buffer differs from its
    debounced copy the indicator says syncing and a preview timer closed
    over the current buffer is pending, due within 800 ms; while they agree
    no preview timer is pending. *)
Theorem unsynced_buffer_is_flagged es s :
  run es mount = Some s ->
  (editableCode s = debouncedCode s -> previewTimer s = None)
  /\ (editableCode s <> debouncedCode s ->
      isSyncing s = true
      /\ exists p, previewTimer s = Some p /\ pCode p = editableCode s
                   /\ (now s < pDue p)%N /\ (pDue p <= now s + 800)%N).
Proof.
  intros Hrun.
  pose proof (run_sync es mount s SyncInv_mount Hrun) as [H1 H2].
  split.
  - intros E. apply H1. unfold inSync. rewrite E. apply String.eqb_refl.
  - intros E. destruct H2 as (Hs & p & Hp & Ha & Hb & Hc & _).
    { unfold inSync. apply String.eqb_neq. exact E. }
    split; [exact Hs|]. exists p. auto.
Qed.

Lemma unsynced_buffer_is_flagged_witness :
  run [SetCreation (Some artifactA); Edit "AB"] mount = Some editedA
  /\ editableCode editedA <> debouncedCode editedA
  /\ isSyncing editedA = true
  /\ exists p, previewTimer editedA = Some p /\ pCode p = editableCode editedA
               /\ (now editedA < pDue p)%N /\ (pDue p <= now editedA + 800)%N.
Proof.
  assert (Hrun : run [SetCreation (Some artifactA); Edit "AB"] mount = Some editedA)
    by (vm_compute; reflexivity).
  assert (Hne : editableCode editedA <> debouncedCode editedA)
    by (vm_compute; discriminate).
  split; [exact Hrun|]. split; [exact Hne|].
  exact (proj2 (unsynced_buffer_is_flagged _ editedA Hrun) Hne).
Defined.

(** ** Manual save and the pending timer *)

Lemma handleSave_view s c :
  creation s = Some c ->
  let r := handleSave s in
  onUpdateCalls r = updated c (editableCode s) (now s) :: onUpdateCalls s
  /\ creation r = Some (updated c (editableCode s) (now s))
  /\ editableCode r = editableCode s /\ debouncedCode r = editableCode s
  /\ previewTimer r = None.
Proof.
  intros Hc. cbn zeta. unfold handleSave. rewrite Hc.
  set (s' := set_debouncedCode _ _). set (d := changed s s' true false).
  pose proof (commit_view d s') as V. cbn zeta in V.
  destruct V as (_ & Vc & Vu & _ & V). rewrite Vc, Vu.
  cbn [dCreation d changed] in V.
  destruct (queuedReset s') as [content|] eqn:Q.
  - destruct V as (Ve & Vd & Vp & _). rewrite Ve, Vd, Vp.
    apply queuedReset_html in Q. destruct Q as (c' & Q1 & Q2 & _).
    unfold s' in Q1. cbn in Q1. injection Q1 as <-. cbn in Q2. subst content.
    unfold s'. cbn. auto.
  - destruct V as (Ve & Vd & Vp & _). rewrite Ve, Vd, Vp.
    unfold previewTimerAfter, previewRuns, inSync, d, s'. cbn.
    rewrite String.eqb_refl, orb_true_r. auto.
Qed.

(** X3.  A manual save hands the buffer to [onUpdate] once, at once, and
    cancels the pending preview timer: however long one waits afterwards,
    the trace of [onUpdate] calls holds that one call and nothing more, and
    the debounced copy is the saved buffer. *)
Theorem save_persists_once s c ms :
  creation s = Some c ->
  let r := elapse ms (handleSave s) in
  onUpdateCalls r = updated c (editableCode s) (now s) :: onUpdateCalls s
  /\ creation r = Some (updated c (editableCode s) (now s))
  /\ editableCode r = editableCode s /\ debouncedCode r = editableCode s
  /\ previewTimer r = None.
Proof.
  intros Hc r. subst r.
  pose proof (handleSave_view s c Hc) as F.
  cbn zeta in F. destruct F as (F1 & F2 & F3 & F4 & F5).
  pose proof (elapse_unarmed ms (handleSave s) F5) as (Uc & Uu & Ue & Ud & Up & _).
  rewrite Uc, Uu, Ue, Ud, Up. auto.
Qed.

Lemma save_persists_once_witness :
  creation editedA = Some artifactA
  /\ onUpdateCalls (elapse 2000 (handleSave editedA)) = [updated artifactA "AB" 0]
  /\ debouncedCode (elapse 2000 (handleSave editedA)) = "AB".
Proof.
  assert (Hc : creation editedA = Some artifactA) by (vm_compute; reflexivity).
  split; [exact Hc|].
  destruct (save_persists_once editedA artifactA 2000 Hc) as (A & _ & _ & B & _).
  split.
  - rewrite A. vm_compute. reflexivity.
  - rewrite B. vm_compute. reflexivity.
Defined.

(** ** A push ends the redo branch *)

Lemma push_keeps_prefix h i e k :
  (0 <= i < jsLength h)%Z -> (length h <= 100)%nat -> (i < 99)%Z -> (0 <= k <= i)%Z ->
  jsIndex (pushHistory h i e) k = jsIndex h k.
Proof.
  intros Hi Hl H99 Hk.
  destruct (slice0_in_range h i Hi) as [S1 S2].
  unfold pushHistory. cbn zeta.
  assert (L : jsLength (slice0 h (i + 1) ++ [e]) = (i + 2)%Z).
  { unfold jsLength. rewrite length_app, S2. cbn. lia. }
  rewrite L. destruct (100 <? i + 2)%Z eqn:C; [apply Z.ltb_lt in C; lia|].
  unfold jsIndex. destruct (k <? 0)%Z eqn:K; [apply Z.ltb_lt in K; lia|].
  rewrite nth_error_app1 by (rewrite S2; lia).
  rewrite S1, nth_error_firstn.
  destruct (Z.to_nat k <? S (Z.to_nat i))%nat eqn:D; [reflexivity|].
  apply Nat.ltb_ge in D. lia.
Qed.

(** X4.  In every state a run reaches, when the pending snapshot timer
    passes its guard, its callback leaves the index on the last entry of
    the history: redo is no longer available and undo is, the entry at the
    index is the buffer, and below the capacity every entry up to the old
    index is kept. *)
Theorem push_ends_redo es s t :
  run es mount = Some s -> snapshotTimer s = Some t -> snapshotGuard t = true ->
  let r := fireSnapshot t s in
  redoAvailable r = false /\ undoAvailable r = true
  /\ jsIndex (history r) (historyIndex r) = Some (editableCode s)
  /\ jsLength (history r) = (historyIndex r + 1)%Z
  /\ ((historyIndex s < 99)%Z ->
      historyIndex r = (historyIndex s + 1)%Z
      /\ forall k, (0 <= k <= historyIndex s)%Z ->
                   jsIndex (history r) k = jsIndex (history s) k).
Proof.
  intros Hrun Ht G r. subst r.
  destruct (run_inv es mount Inv_mount) as (s0 & Hrun0 & HI & HT).
  rewrite Hrun in Hrun0. injection Hrun0 as <-.
  destruct (HT t Ht) as (T1 & T2 & T3).
  pose proof (fireSnapshot_spec t s) as F. cbn zeta in F. rewrite G in F.
  destruct F as (F1 & F2 & _). rewrite T2, T3 in F1.
  pose proof G as G'. apply snapshotGuard_true_iff in G'. destruct G' as (_ & Gh & _).
  rewrite T1 in Gh.
  destruct HI as (Hl & Hr & Hn).
  assert (Hi : (0 <= historyIndex s < jsLength (history s))%Z).
  { destruct Hr as [[E _]|Hr]; [contradiction | exact Hr]. }
  assert (Hpos : (0 < jsLength (history s))%Z) by lia.
  pose proof (pushHistory_length (history s) (historyIndex s) (editableCode s) Hi Hl) as L.
  unfold redoAvailable, undoAvailable. rewrite F1, F2.
  unfold jsLength at 1 2. rewrite L. unfold pushIndex.
  split; [|split; [|split; [|split]]].
  - apply negb_false_iff. apply Z.leb_le. lia.
  - apply negb_true_iff. apply Z.leb_gt. lia.
  - apply push_lookup; [repeat split; assumption | exact Hpos].
  - lia.
  - intros H99. split; [lia|]. intros k Hk. apply push_keeps_prefix; assumption.
Qed.

Lemma push_ends_redo_witness :
  run [SetCreation (Some artifactA); Edit "AB"] mount = Some editedA
  /\ snapshotTimer editedA = Some editedATimer
  /\ snapshotGuard editedATimer = true
  /\ redoAvailable (fireSnapshot editedATimer editedA) = false
  /\ jsIndex (history (fireSnapshot editedATimer editedA))
             (historyIndex (fireSnapshot editedATimer editedA))
     = Some (editableCode editedA).
Proof.
  assert (Hrun : run [SetCreation (Some artifactA); Edit "AB"] mount = Some editedA)
    by (vm_compute; reflexivity).
  assert (Ht : snapshotTimer editedA = Some editedATimer) by (vm_compute; reflexivity).
  assert (G : snapshotGuard editedATimer = true) by (vm_compute; reflexivity).
  split; [exact Hrun|]. split; [exact Ht|]. split; [exact G|].
  destruct (push_ends_redo _ editedA editedATimer Hrun Ht G) as (A & _ & B & _).
  split; [exact A | exact B].
Defined.

(** ** Walking the history *)

Lemma undos_spec k : forall s,
  (Z.of_nat k <= historyIndex s)%Z -> (historyIndex s < jsLength (history s))%Z ->
  exists r, undos k s = Some r
            /\ historyIndex r = (historyIndex s - Z.of_nat k)%Z
            /\ history r = history s
            /\ historyPushes r = historyPushes s /\ onUpdateCalls r = onUpdateCalls s
            /\ (0 < k -> jsIndex (history s) (historyIndex r) = Some (editableCode r)).
Proof.
  induction k as [|k IH]; intros s Hk Hl.
  - exists s. cbn [undos]. repeat split; try reflexivity; try lia.
  - destruct (jsIndex_Some (history s) (historyIndex s - 1)) as [e He]; [lia|].
    destruct (handleUndo_spec s e) as (s1 & U & U1 & U2 & U3 & _ & _ & U4 & U5); [lia | exact He|].
    destruct (IH s1) as (r & R & R1 & R2 & R3 & R4 & R5); [lia | rewrite U2, U3; lia|].
    exists r. cbn [undos]. rewrite U, R.
    split; [reflexivity|]. split; [lia|]. split; [congruence|].
    split; [congruence|]. split; [congruence|]. intros _.
    destruct k as [|k'].
    + cbn [undos] in R. injection R as <-. rewrite U2, U1. exact He.
    + rewrite <- U3. apply R5. lia.
Qed.

Lemma redos_spec k : forall s,
  (0 <= historyIndex s)%Z -> (historyIndex s + Z.of_nat k < jsLength (history s))%Z ->
  exists r, redos k s = Some r
            /\ historyIndex r = (historyIndex s + Z.of_nat k)%Z
            /\ history r = history s
            /\ historyPushes r = historyPushes s /\ onUpdateCalls r = onUpdateCalls s
            /\ (0 < k -> jsIndex (history s) (historyIndex r) = Some (editableCode r)).
Proof.
  induction k as [|k IH]; intros s Hk Hl.
  - exists s. cbn [redos]. repeat split; try reflexivity; try lia.
  - destruct (jsIndex_Some (history s) (historyIndex s + 1)) as [e He]; [lia|].
    destruct (handleRedo_spec s e) as (s1 & U & U1 & U2 & U3 & _ & _ & U4 & U5); [lia | exact He|].
    destruct (IH s1) as (r & R & R1 & R2 & R3 & R4 & R5); [lia | rewrite U2, U3; lia|].
    exists r. cbn [redos]. rewrite U, R.
    split; [reflexivity|]. split; [lia|]. split; [congruence|].
    split; [congruence|]. split; [congruence|]. intros _.
    destruct k as [|k'].
    + cbn [redos] in R. injection R as <-. rewrite U2, U1. exact He.
    + rewrite <- U3. apply R5. lia.
Qed.

(** X5.  In every state a run reaches, [k] undos (for [k] up to the index)
    never fail and walk the index back by [k] over an unchanged history,
    the buffer becoming the entry there; [k] redos then walk it forward
    again to the index it had, the buffer becoming the entry at that index.
    Neither pushes a snapshot nor calls [onUpdate]. *)
Theorem undos_then_redos es s k :
  run es mount = Some s -> 0 < k -> (Z.of_nat k <= historyIndex s)%Z ->
  exists m r,
    undos k s = Some m /\ redos k m = Some r
    /\ historyIndex m = (historyIndex s - Z.of_nat k)%Z
    /\ jsIndex (history s) (historyIndex s - Z.of_nat k) = Some (editableCode m)
    /\ historyIndex r = historyIndex s
    /\ jsIndex (history s) (historyIndex s) = Some (editableCode r)
    /\ history m = history s /\ history r = history s
    /\ historyPushes r = historyPushes s /\ onUpdateCalls r = onUpdateCalls s.
Proof.
  intros Hrun Hk Hi.
  destruct (run_inv es mount Inv_mount) as (s0 & Hrun0 & (_ & Hr & _) & _).
  rewrite Hrun in Hrun0. injection Hrun0 as <-.
  assert (Hl : (historyIndex s < jsLength (history s))%Z).
  { destruct Hr as [[_ E]|Hr]; lia. }
  destruct (undos_spec k s Hi Hl) as (m & M & M1 & M2 & M3 & M4 & M5).
  destruct (redos_spec k m) as (r & R & R1 & R2 & R3 & R4 & R5);
    [lia | rewrite M1, M2; lia|].
  exists m, r. split; [exact M|]. split; [exact R|]. split; [exact M1|].
  split; [rewrite <- M1; apply M5, Hk|]. split; [lia|].
  split.
  - assert (E : historyIndex r = historyIndex s) by lia.
    rewrite <- E, <- M2. apply R5, Hk.
  - split; [exact M2|]. split; [congruence|]. split; congruence.
Qed.

Lemma undos_then_redos_witness :
  run scenarioRun mount = Some afterEdit
  /\ (Z.of_nat 1 <= historyIndex afterEdit)%Z
  /\ exists m r,
       undos 1 afterEdit = Some m /\ redos 1 m = Some r
       /\ editableCode m = "A" /\ editableCode r = "AB".
Proof.
  assert (Hrun : run scenarioRun mount = Some afterEdit) by (vm_compute; reflexivity).
  assert (Hi : (Z.of_nat 1 <= historyIndex afterEdit)%Z) by (vm_compute; discriminate).
  split; [exact Hrun|]. split; [exact Hi|].
  destruct (undos_then_redos scenarioRun afterEdit 1 Hrun (Nat.lt_0_succ 0) Hi)
    as (m & r & M & R & _ & A & _ & B & _).
  exists m, r. split; [exact M|]. split; [exact R|].
  assert (E0 : jsIndex (history afterEdit) (historyIndex afterEdit - Z.of_nat 1) = Some "A")
    by (vm_compute; reflexivity).
  assert (E1 : jsIndex (history afterEdit) (historyIndex afterEdit) = Some "AB")
    by (vm_compute; reflexivity).
  rewrite E0 in A. rewrite E1 in B. split; congruence.
Defined.

(** ** Switching and closing artifacts while an edit is pending *)

Lemma load_spent c s :
  html c <> "" -> prevCreationId s <> Some (id c) ->
  SnapshotSpent (setCreation (Some c) s).
Proof.
  intros Hh Hp. unfold SnapshotSpent, setCreation.
  assert (D : idDiffers (Some c) (prevCreationId s) = true).
  { unfold idDiffers. destruct (prevCreationId s) as [q|]; [|reflexivity].
    apply strNeq_true. congruence. }
  rewrite (commit_reset _ _ (html c)).
  2:{ reflexivity. }
  2:{ unfold queuedReset. cbn. rewrite D. apply truthy_true_iff in Hh. rewrite Hh.
      reflexivity. }
  cbn zeta. unfold effectsResult at 1. cbn [snapshotTimer].
  unfold snapshotRuns. cbn [changed dEditable dHistory dIndex].
  rewrite orb_true_r. cbn [orb].
  match goal with |- context [if ?b then None else _] => destruct b end;
    intros t Ht; [discriminate Ht|].
  injection Ht as <-. unfold snapshotGuard. cbn [sCode sHistory sIndex].
  rewrite !paint_eq. unfold applyReset. cbn [editableCode history historyIndex set_srcDocs
    set_lastSaved set_historyIndex set_history set_debouncedCode set_editableCode].
  unfold jsIndex. cbn. rewrite strNeq_refl. apply andb_false_r.
Qed.

(** X6.  Loading another artifact whose content is not empty cancels what
    was pending for the previous one: whatever the state before (an
    unsettled edit, both timers armed) and however long one waits
    afterwards, nothing is persisted and nothing is pushed; buffer and
    debounced copy stay the new content and the history stays its single
    seed entry. *)
Theorem switch_cancels_pending_work s c ms :
  html c <> "" -> prevCreationId s <> Some (id c) ->
  let r := elapse ms (setCreation (Some c) s) in
  onUpdateCalls r = onUpdateCalls s /\ historyPushes r = historyPushes s
  /\ creation r = Some c /\ editableCode r = html c /\ debouncedCode r = html c
  /\ history r = [html c] /\ historyIndex r = 0%Z.
Proof.
  intros Hh Hp r. subst r.
  pose proof (load_fields c s Hh Hp) as F. cbn zeta in F.
  destruct F as ((F1 & F2 & F3 & F4 & F5 & _) & _ & _ & Ft & Fu & Fp & _).
  destruct (elapse_spent ms (setCreation (Some c) s) Ft (load_spent c s Hh Hp))
    as ((S1 & S2 & S3 & S4 & _) & (U1 & U2 & _ & U4 & _)).
  rewrite U2, S4, U1, S1, U4, S2, S3. auto 10.
Qed.

Lemma switch_cancels_pending_work_witness :
  previewTimer editedA <> None /\ snapshotTimer editedA <> None
  /\ html artifactCD <> "" /\ prevCreationId editedA <> Some (id artifactCD)
  /\ onUpdateCalls (elapse 2000 (setCreation (Some artifactCD) editedA)) = []
  /\ historyPushes (elapse 2000 (setCreation (Some artifactCD) editedA)) = []
  /\ history (elapse 2000 (setCreation (Some artifactCD) editedA)) = ["CD"].
Proof.
  assert (Hh : html artifactCD <> "") by discriminate.
  assert (Hp : prevCreationId editedA <> Some (id artifactCD)) by (vm_compute; discriminate).
  split; [vm_compute; discriminate|]. split; [vm_compute; discriminate|].
  split; [exact Hh|]. split; [exact Hp|].
  destruct (switch_cancels_pending_work editedA artifactCD 2000 Hh Hp)
    as (A & B & _ & _ & _ & C & _).
  assert (E1 : onUpdateCalls editedA = []) by (vm_compute; reflexivity).
  assert (E2 : historyPushes editedA = []) by (vm_compute; reflexivity).
  rewrite E1 in A. rewrite E2 in B. auto.
Defined.

Lemma close_fields s :
  let r := setCreation None s in
  creation r = None /\ prevCreationId r = None
  /\ onUpdateCalls r = onUpdateCalls s /\ editableCode r = editableCode s
  /\ now r = now s
  /\ previewTimer r =
     (if inSync s then None
      else Some (mkPreviewTimer (now s + 800) (nextStamp s) (editableCode s) None)).
Proof.
  intros r. subst r. unfold setCreation.
  set (s' := set_creation None s). set (d := changed s s' true false).
  pose proof (commit_view d s') as V. cbn zeta in V.
  assert (Q : queuedReset s' = None).
  { unfold queuedReset, s'. cbn. destruct (idDiffers None (prevCreationId s)); reflexivity. }
  cbn [dCreation d changed] in V. rewrite Q in V.
  destruct V as (Vn & Vc & Vu & _ & Ve & _ & Vp & _ & _ & _ & Vq & _).
  rewrite Vn, Vc, Vu, Ve, Vp, Vq.
  unfold previewTimerAfter, previewRuns, inSync, idDiffers, idOrNull, d, s'. cbn.
  rewrite orb_true_r. auto 10.
Qed.

(** X7.  Closing the artifact ([App] hands [null]) drops an edit that the
    preview timer had not persisted yet: whatever the state before and
    however long one waits, [onUpdate] is never called, and opening an
    artifact again shows the content it carries, not the lost buffer. *)
Theorem close_drops_pending_edit s c ms :
  html c <> "" ->
  let r := elapse ms (setCreation None s) in
  onUpdateCalls r = onUpdateCalls s /\ creation r = None
  /\ editableCode (setCreation (Some c) r) = html c
  /\ debouncedCode (setCreation (Some c) r) = html c
  /\ onUpdateCalls (setCreation (Some c) r) = onUpdateCalls s.
Proof.
  intros Hh r. subst r.
  pose proof (close_fields s) as F. cbn zeta in F.
  destruct F as (Fc & Fq & Fu & Fe & Fn & Fp).
  set (a := setCreation None s) in *.
  assert (K : onUpdateCalls (elapse ms a) = onUpdateCalls a
              /\ creation (elapse ms a) = creation a
              /\ prevCreationId (elapse ms a) = prevCreationId a).
  { destruct (inSync s).
    - pose proof (elapse_unarmed ms a Fp) as (U1 & U2 & _ & _ & _ & _ & U7 & _). auto.
    - destruct (le_lt_dec 800 ms) as [L|L].
      + pose proof (elapse_fire _ a 799 ms Fp) as E. cbn zeta in E.
        cbn [pDue pCode previewPersists pCreation persistedBy] in E.
        unfold persistedBy, previewPersists in E. cbn [pCreation] in E.
        destruct E as (_ & _ & _ & E4 & E5 & E6); [lia | congruence | lia |].
        cbn [app] in E4. auto.
      + pose proof (elapse_untouched ms a) as [U _].
        { intros p Hp. rewrite Fp in Hp. injection Hp as <-. cbn [pDue]. lia. }
        destruct U as (U1 & U2 & _ & _ & _ & _ & U7 & _). auto. }
  destruct K as (K1 & K2 & K3).
  rewrite K1, K2, Fu, Fc. split; [reflexivity|]. split; [reflexivity|].
  pose proof (load_fields c (elapse ms a) Hh) as L. cbn zeta in L.
  destruct L as ((_ & L2 & L3 & _) & _ & _ & _ & L5 & _).
  { rewrite K3, Fq. discriminate. }
  rewrite L2, L3, L5, K1, Fu. auto.
Qed.

Lemma close_drops_pending_edit_witness :
  editableCode editedA = "AB" /\ html artifactA <> ""
  /\ onUpdateCalls (elapse 2000 (setCreation None editedA)) = []
  /\ editableCode (setCreation (Some artifactA) (elapse 2000 (setCreation None editedA)))
     = "A".
Proof.
  assert (Hh : html artifactA <> "") by discriminate.
  split; [vm_compute; reflexivity|]. split; [exact Hh|].
  destruct (close_drops_pending_edit editedA artifactA 2000 Hh) as (A & _ & B & _).
  assert (E1 : onUpdateCalls editedA = []) by (vm_compute; reflexivity).
  rewrite E1 in A. auto.
Defined.

(** X8.  Loading an artifact whose content is empty resets nothing, so an
    unsettled buffer of the previous artifact survives the switch and the
    re-armed preview timer closes over the new artifact: 800 ms later the
    old buffer is handed to [onUpdate] as the content of the new one. *)
Theorem pending_edit_lands_in_empty_artifact s b ms :
  html b = "" -> editableCode s <> debouncedCode s -> editableCode s <> "" -> 800 <= ms ->
  let r := elapse ms (setCreation (Some b) s) in
  onUpdateCalls r = updated b (editableCode s) (now s + 800) :: onUpdateCalls s
  /\ creation r = Some (updated b (editableCode s) (now s + 800))
  /\ debouncedCode r = editableCode s.
Proof.
  intros Hb Hne Hn Hms r. subst r. unfold setCreation.
  set (s' := set_creation (Some b) s). set (d := changed s s' true false).
  pose proof (commit_view d s') as V. cbn zeta in V.
  assert (Q : queuedReset s' = None).
  { unfold queuedReset, s'. cbn. rewrite Hb.
    destruct (idDiffers (Some b) (prevCreationId s)); reflexivity. }
  cbn [dCreation d changed] in V. rewrite Q in V.
  destruct V as (Vn & _ & Vu & _ & Ve & _ & Vp & _).
  set (a := commit d s') in *.
  assert (I : inSync s' = false).
  { unfold inSync, s'. cbn. apply String.eqb_neq. exact Hne. }
  unfold previewTimerAfter, previewRuns in Vp. rewrite I in Vp.
  cbn [d changed dCreation dEditable dDebounced] in Vp. rewrite orb_true_r in Vp.
  pose proof (elapse_fire _ a 799 ms Vp) as E. cbn zeta in E.
  cbn [pDue pCode] in E. unfold persistedBy, previewPersists in E.
  cbn [pCreation pCode] in E.
  assert (T : strNeq (editableCode s') (html b) = true).
  { apply strNeq_true. unfold s'. cbn. rewrite Hb. exact Hn. }
  change (creation s') with (Some b) in E. cbn iota in E. rewrite T in E.
  change (editableCode s') with (editableCode s) in E.
  change (now s') with (now s) in E. cbn iota in E.
  change (now s') with (now s) in Vn. change (editableCode s') with (editableCode s) in Ve.
  change (onUpdateCalls s') with (onUpdateCalls s) in Vu.
  destruct E as (_ & E2 & _ & E4 & E5 & _); [rewrite Vn; lia | rewrite Ve; reflexivity | lia |].
  rewrite E4, E5, E2, Ve, Vu. auto.
Qed.

Lemma pending_edit_lands_in_empty_artifact_witness :
  html emptyArtifact = "" /\ editableCode editedA <> debouncedCode editedA
  /\ editableCode editedA <> ""
  /\ onUpdateCalls (elapse 800 (setCreation (Some emptyArtifact) editedA))
     = [updated emptyArtifact "AB" 800].
Proof.
  assert (H1 : editableCode editedA <> debouncedCode editedA) by (vm_compute; discriminate).
  assert (H2 : editableCode editedA <> "") by (vm_compute; discriminate).
  split; [reflexivity|]. split; [exact H1|]. split; [exact H2|].
  destruct (pending_edit_lands_in_empty_artifact editedA emptyArtifact 800 eq_refl H1 H2
              (le_n 800)) as (A & _).
  rewrite A. vm_compute. reflexivity.
Defined.

(** ** Clearing the buffer *)

Lemma cleared_step e s s' :
  Cleared s -> isSetCreation e = false -> offered e s = true -> step e s = Some s' ->
  Cleared s'.
Proof.
  intros (Kp & Ke & c & Kc & Kh) He Ho Hs.
  assert (Hid : contentShown s = false).
  { unfold contentShown. rewrite Kc, Kh. reflexivity. }
  destruct e as [x|text| | | |]; cbn [isSetCreation offered step] in *;
    try discriminate He; try (rewrite Hid in Ho; discriminate Ho).
  - injection Hs as <-.
    pose proof (handleSave_view s c Kc) as F. cbn zeta in F.
    destruct F as (_ & F2 & F3 & _ & F5).
    split; [exact F5|]. split; [congruence|].
    eexists. split; [exact F2|]. cbn. exact Ke.
  - injection Hs as <-.
    destruct (tick_untouched s) as [(U1 & _ & U3 & _ & U5 & _) _].
    { intros p Hp. rewrite Kp in Hp. discriminate Hp. }
    split; [congruence|]. split; [congruence|]. exists c. rewrite U1. auto.
Qed.

Lemma cleared_run es : forall s s',
  Cleared s -> forallb (fun e => negb (isSetCreation e)) es = true ->
  runOffered es s = Some s' -> Cleared s'.
Proof.
  induction es as [|e es IH]; intros s s' K Hes Hr; cbn [runOffered forallb] in *.
  - injection Hr as <-. exact K.
  - apply andb_true_iff in Hes. destruct Hes as [He Hes]. apply negb_true_iff in He.
    destruct (offered e s) eqn:O; [|discriminate Hr].
    destruct (step e s) as [m|] eqn:M; [|discriminate Hr].
    apply (IH m s' (cleared_step e s m K He O M) Hes Hr).
Qed.

(** X9.  Clearing the buffer of a shown artifact whose last edit has
    settled (the buffer equals its debounced copy) and letting 800 ms pass
    persists the empty content, and with it the content area, editor
    included, is no longer rendered.  From then on, as long as [App] hands
    no other artifact, no event the rendered tree still offers (save and
    the passing of time; the textarea and the undo and redo buttons are
    gone) brings it back: the buffer stays empty and the content hidden. *)
Theorem cleared_content_stays_hidden s0 c ms :
  creation s0 = Some c -> html c <> "" ->
  editableCode s0 = debouncedCode s0 -> editableCode s0 <> "" -> 800 <= ms ->
  let r := elapse ms (edit "" s0) in
  contentShown s0 = true /\ contentShown r = false
  /\ onUpdateCalls r = updated c "" (now s0 + 800) :: onUpdateCalls s0
  /\ forall es r',
       forallb (fun e => negb (isSetCreation e)) es = true ->
       runOffered es r = Some r' ->
       contentShown r' = false /\ editableCode r' = "".
Proof.
  intros Hc Hh Hs Hn Hms r. subst r. unfold edit.
  set (s' := set_editableCode "" s0). set (d := changed s0 s' false false).
  pose proof (commit_view d s') as V. cbn zeta in V.
  cbn [dCreation d changed] in V.
  destruct V as (Vn & Vc & Vu & _ & Ve & _ & Vp & _).
  set (a := commit d s') in *.
  assert (I : inSync s' = false).
  { unfold inSync, s'. cbn. apply String.eqb_neq. congruence. }
  assert (De : strNeq (editableCode s0) "" = true) by (apply strNeq_true; exact Hn).
  unfold previewTimerAfter, previewRuns in Vp. rewrite I in Vp.
  cbn [d changed dCreation dEditable dDebounced] in Vp.
  change (editableCode s') with "" in Vp, Ve. rewrite De in Vp. cbn [orb] in Vp.
  change (now s') with (now s0) in Vp, Vn. change (creation s') with (creation s0) in Vp, Vc.
  change (onUpdateCalls s') with (onUpdateCalls s0) in Vu.
  change (nextStamp s') with (nextStamp s0) in Vp.
  rewrite Hc in Vp.
  pose proof (elapse_fire _ a 799 ms Vp) as E. cbn zeta in E.
  cbn [pDue pCode] in E. unfold persistedBy, previewPersists in E.
  cbn [pCreation pCode] in E.
  assert (T : strNeq "" (html c) = true) by (apply strNeq_true; congruence).
  rewrite T in E. cbn iota in E.
  destruct E as (E1 & _ & E3 & E4 & E5 & _); [rewrite Vn; lia | rewrite Ve; reflexivity | lia |].
  assert (K : Cleared (elapse ms a)).
  { split; [exact E3|]. split; [congruence|]. eexists. split; [exact E5|]. reflexivity. }
  split.
  { unfold contentShown. rewrite Hc. apply truthy_true_iff. exact Hh. }
  split.
  { unfold contentShown. rewrite E5. reflexivity. }
  split; [rewrite E4, Vu; reflexivity|].
  intros es r' Hes Hr.
  destruct (cleared_run es (elapse ms a) r' K Hes Hr) as (_ & Ke & c' & Kc & Kh).
  split; [|exact Ke]. unfold contentShown. rewrite Kc, Kh. reflexivity.
Qed.

Lemma cleared_content_stays_hidden_witness :
  creation loadedA = Some artifactA /\ html artifactA <> ""
  /\ editableCode loadedA = debouncedCode loadedA /\ editableCode loadedA <> ""
  /\ contentShown loadedA = true
  /\ contentShown (elapse 800 (edit "" loadedA)) = false
  /\ runOffered [Edit "A"] (elapse 800 (edit "" loadedA)) = None
  /\ forall r', runOffered [Save; Tick] (elapse 800 (edit "" loadedA)) = Some r' ->
                contentShown r' = false /\ editableCode r' = "".
Proof.
  assert (H1 : creation loadedA = Some artifactA) by (vm_compute; reflexivity).
  assert (H2 : html artifactA <> "") by discriminate.
  assert (H3 : editableCode loadedA = debouncedCode loadedA) by (vm_compute; reflexivity).
  assert (H4 : editableCode loadedA <> "") by (vm_compute; discriminate).
  destruct (cleared_content_stays_hidden loadedA artifactA 800 H1 H2 H3 H4 (le_n 800))
    as (A & B & _ & C).
  split; [exact H1|]. split; [exact H2|]. split; [exact H3|]. split; [exact H4|].
  split; [exact A|]. split; [exact B|]. split.
  - cbn [runOffered offered]. rewrite B. reflexivity.
  - intros r'. apply C. reflexivity.
Defined.

(** ** What [onUpdate] is called with *)

(** X10.  In every state a run reaches, one more event makes at most one
    [onUpdate] call, only a manual save or the passing of time makes one,
    and the call carries the creation that is loaded at that moment with
    another content and timestamp (same id, name and reference image); the
    object handed over is the creation of the next state. *)
Theorem onUpdate_targets_loaded_creation es s e s' :
  run es mount = Some s -> step e s = Some s' ->
  onUpdateCalls s' = onUpdateCalls s
  \/ exists c code t,
       creation s = Some c
       /\ onUpdateCalls s' = updated c code t :: onUpdateCalls s
       /\ creation s' = Some (updated c code t)
       /\ (e = Save \/ e = Tick).
Proof.
  intros Hrun Hstep.
  pose proof (run_sync es mount s SyncInv_mount Hrun) as [H1 H2].
  assert (K : forall d x, onUpdateCalls x = onUpdateCalls s ->
                          onUpdateCalls (commit d x) = onUpdateCalls s).
  { intros d x Hx. rewrite <- Hx. apply (commit_view d x). }
  destruct e as [c|text| | | |]; cbn [step] in Hstep.
  - injection Hstep as <-. left. apply K. reflexivity.
  - injection Hstep as <-. left. apply K. reflexivity.
  - left. unfold handleUndo in Hstep.
    destruct (0 <? historyIndex s)%Z; [|injection Hstep as <-; reflexivity].
    destruct (jsIndex (history s) (historyIndex s - 1)); [|discriminate Hstep].
    injection Hstep as <-. apply K. reflexivity.
  - left. unfold handleRedo in Hstep.
    destruct (historyIndex s <? jsLength (history s) - 1)%Z;
      [|injection Hstep as <-; reflexivity].
    destruct (jsIndex (history s) (historyIndex s + 1)); [|discriminate Hstep].
    injection Hstep as <-. apply K. reflexivity.
  - injection Hstep as <-. destruct (creation s) as [c|] eqn:Hc.
    + right. pose proof (handleSave_view s c Hc) as F. cbn zeta in F.
      destruct F as (F1 & F2 & _).
      exists c, (editableCode s), (now s). auto.
    + left. unfold handleSave. rewrite Hc. reflexivity.
  - injection Hstep as <-. destruct (inSync s) eqn:I.
    + left. destruct (tick_untouched s) as [(_ & U & _) _]; [|exact U].
      intros p Hp. rewrite (H1 eq_refl) in Hp. discriminate Hp.
    + destruct (H2 eq_refl) as (_ & p & Hp & Ha & Hb & Hc & Hr).
      destruct (N.le_gt_cases (pDue p) (N.succ (now s))) as [D|D].
      * pose proof (tick_fire p s Hp D Hc) as F. cbn zeta in F.
        destruct F as (_ & _ & _ & _ & Fu & Fc & _).
        unfold persistedBy in Fu. unfold previewPersists in Fu, Fc. rewrite Hr in Fu, Fc.
        destruct (creation s) as [c|]; [|left; exact Fu].
        destruct (strNeq (pCode p) (html c)); [|left; exact Fu].
        right. exists c, (pCode p), (N.succ (now s)). auto.
      * left. destruct (tick_untouched s) as [(_ & U & _) _]; [|exact U].
        intros q Hq. rewrite Hp in Hq. injection Hq as <-. exact D.
Qed.

Lemma onUpdate_targets_loaded_creation_witness :
  run [SetCreation (Some artifactA); Edit "AB"] mount = Some editedA
  /\ step Save editedA = Some (handleSave editedA)
  /\ exists c code t,
       creation editedA = Some c
       /\ onUpdateCalls (handleSave editedA) = updated c code t :: onUpdateCalls editedA.
Proof.
  assert (Hrun : run [SetCreation (Some artifactA); Edit "AB"] mount = Some editedA)
    by (vm_compute; reflexivity).
  split; [exact Hrun|]. split; [reflexivity|].
  destruct (onUpdate_targets_loaded_creation _ editedA Save (handleSave editedA) Hrun eq_refl)
    as [H|(c & code & t & A & B & _)].
  - exfalso. vm_compute in H. discriminate H.
  - exists c, code, t. auto.
Defined.

(** ** Strings *)

Lemma append_nil_r s : s ++ "" = s.
Proof. induction s as [|c s IH]; cbn; [reflexivity | rewrite IH; reflexivity]. Qed.

Lemma append_assoc a b c : (a ++ b) ++ c = a ++ (b ++ c).
Proof. induction a as [|x a IH]; cbn; [reflexivity | rewrite IH; reflexivity]. Qed.

Lemma length_append a b : String.length (a ++ b) = String.length a + String.length b.
Proof. induction a as [|x a IH]; cbn; [reflexivity | rewrite IH; reflexivity]. Qed.

Lemma stripPrefix_append p s : Js.stripPrefix p (p ++ s) = Some s.
Proof.
  induction p as [|c p IH]; cbn; [reflexivity|]. rewrite Ascii.eqb_refl. exact IH.
Qed.

Lemma stripPrefix_Some p : forall s r, Js.stripPrefix p s = Some r -> s = p ++ r.
Proof.
  induction p as [|c p IH]; intros s r H; cbn in H.
  - injection H as <-. reflexivity.
  - destruct s as [|b s]; [discriminate H|].
    destruct (Ascii.eqb c b) eqn:E; [|discriminate H].
    apply Ascii.eqb_eq in E. subst b. cbn. rewrite (IH s r H). reflexivity.
Qed.

Lemma trimStart_blank ws s : Js.blank ws = true -> Js.trimStart (ws ++ s) = Js.trimStart s.
Proof.
  induction ws as [|c ws IH]; cbn; intros H; [reflexivity|].
  apply andb_true_iff in H. destruct H as [H1 H2]. rewrite H1. apply IH, H2.
Qed.

Lemma replaceFinal_append p b : Js.replaceFinal p (b ++ p) = b.
Proof.
  induction b as [|c b IH].
  - cbn [append]. destruct p; cbn; rewrite ?String.eqb_refl; reflexivity.
  - cbn [append]. assert (E : String.eqb (String c (b ++ p)) p = false).
    { apply String.eqb_neq. intros H. apply (f_equal String.length) in H.
      cbn in H. rewrite length_append in H. lia. }
    cbn [Js.replaceFinal]. rewrite E, IH. reflexivity.
Qed.

Lemma replaceFinal_keeps p s : (forall b, s <> b ++ p) -> Js.replaceFinal p s = s.
Proof.
  induction s as [|c s IH]; intros H.
  - cbn. destruct (String.eqb "" p); reflexivity.
  - assert (E : String.eqb (String c s) p = false).
    { apply String.eqb_neq. intros E. apply (H ""). cbn. exact E. }
    cbn [Js.replaceFinal]. rewrite E, IH; [reflexivity|].
    intros b Hb. apply (H (String c b)). cbn. rewrite Hb. reflexivity.
Qed.

Lemma last_char x : forall b w a, x ++ String w "" = b ++ String a "" -> w = a.
Proof.
  induction x as [|c x IH]; intros b w a H; destruct b as [|d b]; cbn in H.
  - injection H as ->. reflexivity.
  - injection H as _ H. destruct b; discriminate H.
  - injection H as _ H. destruct x; discriminate H.
  - injection H as _ H. apply (IH b w a H).
Qed.

Lemma whitespace_not c a : Js.isWhiteSpace c = true -> Js.isWhiteSpace a = false -> c <> a.
Proof. intros H1 H2 E. subst a. rewrite H1 in H2. discriminate H2. Qed.

(** ** The fences around the model's answer *)

Lemma replaceLeading_fence fence ws body c rest :
  body = String c rest -> Js.isWhiteSpace c = false -> Js.blank ws = true ->
  Js.replaceLeading fence (fence ++ ws ++ body) = body.
Proof.
  intros -> Hc Hw. unfold Js.replaceLeading. rewrite stripPrefix_append.
  rewrite (trimStart_blank ws _ Hw). cbn. rewrite Hc. reflexivity.
Qed.

(** X11.  The cleanup of [bringToLife] removes the markdown fences around
    an answer: for a page that starts with a character other than
    whitespace and the backtick, an opening fence with the word html, or a
    bare one followed by whitespace, goes with the whitespace after it, and
    the closing fence at the very end of the text goes too; a text of that
    kind with no fence at its end is returned as it is. *)
Theorem cleanup_strips_fences ws c rest :
  Js.isWhiteSpace c = false -> c <> backtick -> Js.blank ws = true ->
  let body := String c rest in
  Gemini.cleanup ("```html" ++ ws ++ body ++ "```") = body
  /\ (ws <> "" -> Gemini.cleanup ("```" ++ ws ++ body ++ "```") = body)
  /\ ((forall b, body <> b ++ "```") -> Gemini.cleanup body = body).
Proof.
  intros Hc Hb Hw body.
  assert (N3 : forall r, Js.replaceLeading "```" (String c r) = String c r).
  { intros r. unfold Js.replaceLeading. cbn [Js.stripPrefix].
    destruct (Ascii.eqb _ c) eqn:E; [|reflexivity].
    apply Ascii.eqb_eq in E. exfalso. apply Hb. symmetry. exact E. }
  assert (N7 : forall r, Js.replaceLeading "```html" (String c r) = String c r).
  { intros r. unfold Js.replaceLeading. cbn [Js.stripPrefix].
    destruct (Ascii.eqb _ c) eqn:E; [|reflexivity].
    apply Ascii.eqb_eq in E. exfalso. apply Hb. symmetry. exact E. }
  split; [|split].
  - unfold Gemini.cleanup.
    rewrite (replaceLeading_fence "```html" ws (body ++ "```") c (rest ++ "```"));
      [| reflexivity | exact Hc | exact Hw].
    unfold body. cbn [append]. rewrite N3.
    apply (replaceFinal_append "```" (String c rest)).
  - intros Hne. unfold Gemini.cleanup.
    destruct ws as [|w ws']; [contradiction Hne; reflexivity|].
    cbn [Js.blank] in Hw. apply andb_true_iff in Hw. destruct Hw as [Hw1 Hw2].
    assert (E1 : Js.replaceLeading "```html" ("```" ++ String w ws' ++ body ++ "```")
                 = "```" ++ String w ws' ++ body ++ "```").
    { unfold Js.replaceLeading. cbn [Js.stripPrefix append]. rewrite !Ascii.eqb_refl.
      destruct (Ascii.eqb _ w) eqn:E; [|reflexivity].
      apply Ascii.eqb_eq in E. subst w. discriminate Hw1. }
    rewrite E1.
    rewrite (replaceLeading_fence "```" (String w ws') (body ++ "```") c (rest ++ "```"));
      [| reflexivity | exact Hc | cbn [Js.blank]; rewrite Hw1, Hw2; reflexivity].
    apply (replaceFinal_append "```" (String c rest)).
  - intros Hno. unfold Gemini.cleanup, body. rewrite N7, N3.
    apply replaceFinal_keeps. exact Hno.
Qed.

Lemma cleanup_strips_fences_witness :
  Gemini.cleanup ("```html" ++ newline ++ samplePage ++ "```") = samplePage
  /\ Gemini.cleanup ("```" ++ newline ++ samplePage ++ "```") = samplePage.
Proof.
  assert (Hc : Js.isWhiteSpace lessThan = false) by reflexivity.
  assert (Hb : lessThan <> backtick) by discriminate.
  assert (Hw : Js.blank newline = true) by reflexivity.
  destruct (cleanup_strips_fences newline lessThan "!DOCTYPE html><p>hi</p>" Hc Hb Hw)
    as (A & B & _).
  split; [exact A | apply B; discriminate].
Defined.

(** X12.  The closing fence is removed only at the very end of the text:
    when the answer ends with whitespace after the fence (a final line
    feed), the opening fence is removed and the closing fence stays in the
    content. *)
Theorem cleanup_keeps_fence_before_whitespace ws c rest w :
  Js.isWhiteSpace c = false -> c <> backtick -> Js.blank ws = true ->
  Js.isWhiteSpace w = true ->
  let body := String c rest in
  Gemini.cleanup ("```html" ++ ws ++ body ++ "```" ++ String w "")
  = body ++ "```" ++ String w "".
Proof.
  intros Hc Hb Hw Hw' body. unfold Gemini.cleanup.
  rewrite (replaceLeading_fence "```html" ws (body ++ "```" ++ String w "") c
             (rest ++ "```" ++ String w "")); [| reflexivity | exact Hc | exact Hw].
  assert (N3 : forall r, Js.replaceLeading "```" (String c r) = String c r).
  { intros r. unfold Js.replaceLeading. cbn [Js.stripPrefix].
    destruct (Ascii.eqb _ c) eqn:E; [|reflexivity].
    apply Ascii.eqb_eq in E. exfalso. apply Hb. symmetry. exact E. }
  unfold body. cbn [append]. rewrite N3.
  apply (replaceFinal_keeps "```" (String c (rest ++ "```" ++ String w ""))).
  intros b E.
  assert (E' : String c (rest ++ "```") ++ String w "" = (b ++ "``") ++ String backtick "").
  { rewrite (append_assoc b). cbn [append]. rewrite append_assoc. exact E. }
  apply last_char in E'. subst w. discriminate Hw'.
Qed.

Lemma cleanup_keeps_fence_before_whitespace_witness :
  Gemini.cleanup ("```html" ++ newline ++ samplePage ++ "```" ++ newline)
  = samplePage ++ "```" ++ newline.
Proof.
  apply (cleanup_keeps_fence_before_whitespace newline lessThan "!DOCTYPE html><p>hi</p>"
           (Ascii.ascii_of_N 10)); [reflexivity | discriminate | reflexivity | reflexivity].
Defined.

(** ** [App]: the stored artifacts *)

Lemma update_ids u h :
  map id (map (fun c => if String.eqb (id c) (id u) then u else c) h) = map id h.
Proof.
  induction h as [|c h IH]; cbn [map]; [reflexivity|]. rewrite IH. f_equal.
  destruct (String.eqb (id c) (id u)) eqn:E; [|reflexivity].
  apply String.eqb_eq in E. symmetry. exact E.
Qed.

Lemma update_find_same u h :
  In (id u) (map id h) ->
  find (fun c => String.eqb (id c) (id u))
       (map (fun c => if String.eqb (id c) (id u) then u else c) h) = Some u.
Proof.
  induction h as [|c h IH]; cbn [map find In]; [contradiction|].
  intros H. destruct (String.eqb (id c) (id u)) eqn:E.
  - rewrite String.eqb_refl. reflexivity.
  - rewrite E. apply IH. destruct H as [H|H]; [|exact H].
    apply String.eqb_neq in E. contradiction.
Qed.

Lemma update_find_other u i h :
  i <> id u ->
  find (fun c => String.eqb (id c) i)
       (map (fun c => if String.eqb (id c) (id u) then u else c) h)
  = find (fun c => String.eqb (id c) i) h.
Proof.
  intros Hi. induction h as [|c h IH]; cbn [map find]; [reflexivity|].
  destruct (String.eqb (id c) (id u)) eqn:E.
  - apply String.eqb_eq in E.
    assert (E1 : String.eqb (id u) i = false) by (apply String.eqb_neq; congruence).
    assert (E2 : String.eqb (id c) i = false) by (apply String.eqb_neq; congruence).
    rewrite E1, E2. exact IH.
  - destruct (String.eqb (id c) i); [reflexivity | exact IH].
Qed.

Lemma update_absent u h :
  ~ In (id u) (map id h) ->
  map (fun c => if String.eqb (id c) (id u) then u else c) h = h.
Proof.
  induction h as [|c h IH]; cbn [map In]; intros H; [reflexivity|].
  rewrite IH by tauto.
  destruct (String.eqb (id c) (id u)) eqn:E; [|reflexivity].
  apply String.eqb_eq in E. tauto.
Qed.

(** X13.  [handleUpdateCreation] replaces stored artifacts by id and in
    place: the sequence of stored ids is unchanged (nothing is added,
    dropped or reordered); looking up the updated id gives the update when
    that id is stored; every other id gives what it gave before; and an
    update for an id that is not stored leaves the stored list as it is,
    while the update becomes the active artifact all the same. *)
Theorem update_replaces_by_id u st :
  let st' := App.handleUpdateCreation u st in
  App.ids st' = App.ids st
  /\ App.activeCreation st' = Some u
  /\ (In (id u) (App.ids st) -> App.stored (id u) st' = Some u)
  /\ (forall i, i <> id u -> App.stored i st' = App.stored i st)
  /\ (~ In (id u) (App.ids st) -> App.history st' = App.history st).
Proof.
  unfold App.handleUpdateCreation, App.ids, App.stored. cbn.
  split; [apply update_ids|]. split; [reflexivity|].
  split; [apply update_find_same|]. split; [intros i; apply update_find_other|].
  apply update_absent.
Qed.

Lemma existsb_id_In i h :
  existsb (fun c => String.eqb (id c) i) h = true <-> In i (map id h).
Proof.
  rewrite existsb_exists, in_map_iff. split; intros (c & A & B).
  - exists c. apply String.eqb_eq in B. auto.
  - exists c. split; [exact B | apply String.eqb_eq; exact A].
Qed.

Lemma given_Some o : Gemini.given o = true -> exists x, o = Some x /\ x <> "".
Proof.
  destruct o as [x|]; cbn; [|discriminate]. intros H. exists x.
  split; [reflexivity | apply truthy_true_iff; exact H].
Qed.

Lemma imported_id parsed uuid t :
  uuid <> "" -> id (App.importedCreation parsed uuid t) <> "".
Proof.
  intros Hu. unfold App.importedCreation. cbn [id].
  destruct (Gemini.given (App.pId parsed)) eqn:G; [|exact Hu].
  destruct (given_Some _ G) as (x & -> & Hx). exact Hx.
Qed.

Lemma app_step_inv e st : App.valid e st -> App.Inv st -> App.Inv (App.step e st).
Proof.
  intros V (N & E & A). destruct e as [|g p f uuid t|u| |c|content uuid t]; cbn [App.step].
  - destruct (App.isLimitReached st); [repeat split; assumption|].
    unfold App.Inv, App.beginGenerate, App.ids. cbn.
    repeat split; try assumption. intros c Hc. discriminate Hc.
  - destruct V as [Vu Vf]. unfold App.endGenerate.
    assert (F : App.Inv (App.failGenerate st)) by (repeat split; assumption).
    destruct (match f with
              | Some f0 => match App.fileToBase64 f0 with
                           | Some base64 => Some (base64, Some (Js.toLowerCase (File.type f0)))
                           | None => None
                           end
              | None => Some (None, None)
              end) as [[b m]|]; [|exact F].
    destruct (Gemini.bringToLife g p b m) as [res|]; [|exact F].
    destruct (truthy (Gemini.html res)).
    + unfold App.Inv, App.ids. cbn [App.history App.activeCreation map].
      unfold App.newCreation at 1 2. cbn [id].
      split; [constructor; assumption|]. split.
      * intros [H|H]; [exact (Vu H) | exact (E H)].
      * intros c Hc. injection Hc as <-. left. reflexivity.
    + repeat split; assumption.
  - destruct V as (c & Hc & Hid).
    unfold App.Inv, App.handleUpdateCreation, App.ids.
    cbn [App.history App.activeCreation]. rewrite update_ids.
    split; [exact N|]. split; [exact E|]. intros c' Hc'.
    injection Hc' as <-. rewrite Hid. apply A, Hc.
  - unfold App.Inv, App.handleReset, App.ids. cbn.
    repeat split; try assumption. intros c Hc. discriminate Hc.
  - unfold App.Inv, App.handleSelectCreation, App.ids. cbn.
    split; [exact N|]. split; [exact E|]. intros c' Hc'. injection Hc' as <-.
    apply in_map. exact V.
  - destruct V as [Vu Vf]. unfold App.handleImportFile.
    destruct content as [parsed|]; [|repeat split; assumption].
    destruct (Gemini.given (App.pHtml parsed) && Gemini.given (App.pName parsed));
      [|repeat split; assumption].
    set (imp := App.importedCreation parsed uuid t).
    destruct (existsb (fun c => String.eqb (id c) (id imp)) (App.history st)) eqn:X.
    + unfold App.Inv, App.ids. cbn [App.history App.activeCreation].
      split; [exact N|]. split; [exact E|]. intros c Hc. injection Hc as <-.
      apply existsb_id_In. exact X.
    + unfold App.Inv, App.ids. cbn [App.history App.activeCreation map].
      assert (Hn : ~ In (id imp) (map id (App.history st))).
      { intros H. apply existsb_id_In in H. rewrite H in X. discriminate X. }
      split; [constructor; assumption|]. split.
      * intros [H|H]; [exact (imported_id parsed uuid t Vu H) | exact (E H)].
      * intros c Hc. injection Hc as <-. left. reflexivity.
Qed.

(** X14.  Over every run of [App]'s handlers (generations that begin and
    end in any interleaving, updates from [LivePreview] for the artifact it
    holds, resets, selections from the list, imports), with fresh non-empty
    UUIDs: if the stored artifacts have pairwise distinct, non-empty ids
    and the active artifact is a stored one by id, this stays so. *)
Theorem app_ids_stay_distinct st st' :
  App.Runs st st' -> App.Inv st -> App.Inv st'.
Proof.
  intros R. induction R as [st|st e st' V R IH]; intros I; [exact I|].
  apply IH. apply app_step_inv; assumption.
Qed.

Lemma app_ids_stay_distinct_witness :
  App.Runs emptyApp sampleUpdated /\ App.Inv emptyApp
  /\ App.ids sampleUpdated = ["id-1"]
  /\ NoDup (App.ids sampleUpdated)
  /\ App.stored "id-1" sampleUpdated = Some (updated sampleCreation "<p>bye</p>" 9).
Proof.
  assert (R : App.Runs emptyApp sampleUpdated).
  { apply (App.RunsStep _ App.BeginGenerate); [exact I|].
    apply (App.RunsStep _ (App.EndGenerate sampleModel "a clock" None "id-1" 5)).
    { split; [discriminate | intros H; exact H]. }
    apply (App.RunsStep _ (App.Update (updated sampleCreation "<p>bye</p>" 9))).
    { exists sampleCreation. split; reflexivity. }
    apply App.RunsNil. }
  assert (I0 : App.Inv emptyApp).
  { split; [constructor|]. split; [intros H; exact H|]. intros c Hc. discriminate Hc. }
  split; [exact R|]. split; [exact I0|].
  destruct (app_ids_stay_distinct _ _ R I0) as (N & _).
  split; [reflexivity|]. split; [exact N | reflexivity].
Defined.

(** ** Export and import *)

(** X15.  Exporting an artifact and importing the file: when the buffer
    and the artifact's name are not empty (and its id is not), the import
    activates an artifact with the same id, name, reference image and
    timestamp whose content is the exported buffer, alerts nothing, and
    stores it unless its id is stored already (then the stored list is
    left as it is).  When the buffer or the name is empty the import
    refuses the file the export wrote: an alert, and nothing else
    changes. *)
Theorem export_then_import s c uuid t st :
  creation s = Some c -> id c <> "" ->
  exists file,
    handleExport s = Some (exportName c, file)
    /\ let st' := App.handleImportFile (Some file) uuid t st in
       let back := mkCreation (id c) (name c) (editableCode s) (originalImage c)
                              (timestamp c) in
       (editableCode s <> "" -> name c <> "" ->
        App.activeCreation st' = Some back /\ App.alerts st' = App.alerts st
        /\ (In (id c) (App.ids st) -> App.history st' = App.history st)
        /\ (~ In (id c) (App.ids st) -> App.history st' = back :: App.history st))
       /\ (editableCode s = "" \/ name c = "" ->
           App.activeCreation st' = App.activeCreation st
           /\ App.history st' = App.history st
           /\ App.alerts st' = "Invalid creation file format." :: App.alerts st).
Proof.
  intros Hc Hid. unfold handleExport. rewrite Hc. eexists. split; [reflexivity|].
  cbn zeta. unfold App.handleImportFile, App.importedCreation.
  cbn [App.pId App.pName App.pHtml App.pOriginalImage App.pTimestamp Gemini.given App.orEmpty].
  assert (Ti : truthy (id c) = true) by (apply truthy_true_iff; exact Hid).
  rewrite Ti. split.
  - intros He Hn.
    assert (Te : truthy (editableCode s) = true) by (apply truthy_true_iff; exact He).
    assert (Tn : truthy (name c) = true) by (apply truthy_true_iff; exact Hn).
    rewrite Te, Tn. cbn [andb App.activeCreation App.alerts App.history id].
    split; [reflexivity|]. split; [reflexivity|]. split.
    + intros H. apply existsb_id_In in H. rewrite H. reflexivity.
    + intros H.
      destruct (existsb (fun c0 => String.eqb (id c0) (id c)) (App.history st)) eqn:X;
        [|reflexivity].
      apply existsb_id_In in X. contradiction.
  - intros [He|Hn].
    + rewrite He. cbn. auto.
    + rewrite Hn. replace (truthy "") with false by reflexivity.
      rewrite andb_false_r. cbn. auto.
Qed.

Lemma export_then_import_witness :
  creation editedA = Some artifactA /\ id artifactA <> ""
  /\ exists file,
       handleExport editedA = Some ("demo_artifact.json", file)
       /\ App.activeCreation (App.handleImportFile (Some file) "id-2" 7 emptyApp)
          = Some (mkCreation "c1" "demo" "AB" None 0).
Proof.
  assert (Hc : creation editedA = Some artifactA) by (vm_compute; reflexivity).
  assert (Hid : id artifactA <> "") by discriminate.
  split; [exact Hc|]. split; [exact Hid|].
  destruct (export_then_import editedA artifactA "id-2" 7 emptyApp Hc Hid)
    as (file & E & A & _).
  exists file. split; [exact E|].
  assert (Eb : editableCode editedA = "AB") by (vm_compute; reflexivity).
  destruct A as (A & _); [rewrite Eb; discriminate | discriminate |].
  rewrite Eb in A. exact A.
Defined.

(** ** A generation, from the form to the stored artifact *)

Lemma cleanup_failedContent : Gemini.cleanup Gemini.failedContent = Gemini.failedContent.
Proof. vm_compute. reflexivity. Qed.

(** X16.  At the token limit [handleGenerate] does nothing.  Otherwise,
    however a generation ends, whatever happened since it began and
    whatever was chosen as input, when the file (if any) could be read:
    [isGenerating] is cleared; a request that fails alerts and stores
    nothing; an answer without text does not fail, it is stored and
    activated as an artifact whose content is the placeholder comment; and
    in every case the stored list is left as it was or gets one artifact in
    front, with the fresh id and content that is not empty. *)
Theorem generation_ends model p file uuid t st :
  match file with Some f => File.dataURL f <> None | None => True end ->
  let st' := App.endGenerate model p file uuid t st in
  App.handleGenerate model p file uuid t st
  = (if App.isLimitReached st then st
     else App.endGenerate model p file uuid t (App.beginGenerate st))
  /\ App.isGenerating st' = false
  /\ ((forall request, model request = None) ->
      App.history st' = App.history st /\ App.activeCreation st' = App.activeCreation st
      /\ App.sessionTokens st' = App.sessionTokens st
      /\ App.alerts st' = App.failedMessage :: App.alerts st)
  /\ ((forall request, exists r, model request = Some r /\ Gemini.given (Gemini.text r) = false) ->
      exists c, App.history st' = c :: App.history st /\ App.activeCreation st' = Some c
                /\ id c = uuid /\ html c = Gemini.failedContent
                /\ App.alerts st' = App.alerts st)
  /\ (App.history st' = App.history st
      \/ exists c, App.history st' = c :: App.history st /\ App.activeCreation st' = Some c
                   /\ id c = uuid /\ html c <> "").
Proof.
  intros Hf. cbn zeta. unfold App.endGenerate.
  assert (R : exists b m,
            match file with
            | Some f0 => match App.fileToBase64 f0 with
                         | Some base64 => Some (base64, Some (Js.toLowerCase (File.type f0)))
                         | None => None
                         end
            | None => Some (None, None)
            end = Some (b, m)).
  { destruct file as [f|]; [|eauto]. unfold App.fileToBase64.
    destruct (File.dataURL f) as [u|]; [eauto | contradiction]. }
  split; [reflexivity|].
  destruct R as (b & m & ->). unfold Gemini.bringToLife.
  destruct (model (Gemini.parts p b m)) as [r|] eqn:M.
  - cbn [Gemini.html Gemini.usage].
    set (text := match Gemini.text r with
                 | Some t0 => if truthy t0 then t0 else Gemini.failedContent
                 | None => Gemini.failedContent
                 end).
    destruct (truthy (Gemini.cleanup text)) eqn:T;
      cbn [App.isGenerating App.history App.activeCreation App.sessionTokens App.alerts].
    + split; [reflexivity|]. split.
      { intros H. rewrite H in M. discriminate M. }
      split.
      { intros H. destruct (H (Gemini.parts p b m)) as (r' & Hr & G).
        rewrite M in Hr. injection Hr as <-.
        assert (Et : text = Gemini.failedContent).
        { unfold text. destruct (Gemini.text r) as [x|]; [|reflexivity].
          cbn [Gemini.given] in G. rewrite G. reflexivity. }
        eexists. split; [reflexivity|]. split; [reflexivity|].
        unfold App.newCreation. cbn [id html].
        rewrite Et, cleanup_failedContent. auto. }
      right. eexists. split; [reflexivity|]. split; [reflexivity|].
      unfold App.newCreation. cbn [id html]. split; [reflexivity|].
      apply truthy_true_iff. exact T.
    + split; [reflexivity|]. split.
      { intros H. rewrite H in M. discriminate M. }
      split; [|left; reflexivity].
      intros H. destruct (H (Gemini.parts p b m)) as (r' & Hr & G).
      rewrite M in Hr. injection Hr as <-.
      assert (Et : text = Gemini.failedContent).
      { unfold text. destruct (Gemini.text r) as [x|]; [|reflexivity].
        cbn [Gemini.given] in G. rewrite G. reflexivity. }
      rewrite Et, cleanup_failedContent in T. discriminate T.
  - cbn [App.failGenerate App.isGenerating App.history App.activeCreation
         App.sessionTokens App.alerts].
    split; [reflexivity|]. split; [auto|]. split; [|left; reflexivity].
    intros H. destruct (H (Gemini.parts p b m)) as (r' & Hr & _).
    rewrite M in Hr. discriminate Hr.
Qed.

Lemma generation_ends_witness :
  let silent := fun _ : list Gemini.Part => Some (Gemini.mkResponse None None) in
  let st' := App.endGenerate silent "a clock" None "id-1" 5 (App.beginGenerate emptyApp) in
  App.isGenerating st' = false
  /\ App.history st' = [mkCreation "id-1" "New Creation" Gemini.failedContent None 5].
Proof.
  cbn zeta.
  pose proof (generation_ends (fun _ => Some (Gemini.mkResponse None None)) "a clock" None
                "id-1" 5 (App.beginGenerate emptyApp) I) as G.
  cbn zeta in G. destruct G as (_ & A & _ & B & _).
  split; [exact A|].
  destruct B as (c & B1 & _); [intros request; eexists; split; reflexivity|].
  rewrite B1. vm_compute. vm_compute in B1. injection B1 as <-. reflexivity.
Defined.

Lemma prefix_append p s : String.prefix p (p ++ s) = true.
Proof.
  induction p as [|c p IH]; cbn; [destruct s; reflexivity|].
  destruct (Ascii.ascii_dec c c) as [_|N]; [exact IH | contradiction N; reflexivity].
Qed.

Lemma prefix_split p : forall s, String.prefix p s = true -> exists r, s = p ++ r.
Proof.
  induction p as [|c p IH]; intros s H.
  - exists s. reflexivity.
  - destruct s as [|d s]; cbn in H; [discriminate H|].
    destruct (Ascii.ascii_dec c d) as [->|_]; [|discriminate H].
    destruct (IH s H) as [r ->]. exists r. reflexivity.
Qed.

Lemma toLowerCase_append a b :
  Js.toLowerCase (a ++ b) = Js.toLowerCase a ++ Js.toLowerCase b.
Proof. induction a as [|c a IH]; cbn; [reflexivity | rewrite IH; reflexivity]. Qed.

Lemma lacks_append c a b : Js.lacks c (a ++ b) = Js.lacks c a && Js.lacks c b.
Proof.
  induction a as [|x a IH]; cbn; [reflexivity|]. rewrite IH. apply andb_assoc.
Qed.

Lemma splitFrom_lacks sep a : forall cur,
  Js.lacks sep a = true -> Js.splitFrom sep a cur = [cur ++ a].
Proof.
  induction a as [|x a IH]; intros cur H; cbn in *.
  - rewrite append_nil_r. reflexivity.
  - apply andb_true_iff in H. destruct H as [H1 H2]. apply negb_true_iff in H1.
    rewrite H1, (IH _ H2), append_assoc. reflexivity.
Qed.

Lemma splitFrom_first sep a b : forall cur,
  Js.lacks sep a = true ->
  Js.splitFrom sep (a ++ String sep b) cur = (cur ++ a) :: Js.splitFrom sep b "".
Proof.
  induction a as [|x a IH]; intros cur H; cbn in *.
  - rewrite Ascii.eqb_refl, append_nil_r. reflexivity.
  - apply andb_true_iff in H. destruct H as [H1 H2]. apply negb_true_iff in H1.
    rewrite H1, (IH _ H2), append_assoc. reflexivity.
Qed.

(** What a [FileReader] delivers for a file of the given type and base64
    content. *)
Lemma fileToBase64_dataURL f data :
  File.dataURL f = Some ("data:" ++ File.type f ++ ";base64," ++ data) ->
  Js.lacks Js.comma (File.type f) = true -> Js.lacks Js.comma data = true ->
  App.fileToBase64 f = Some (Some data).
Proof.
  intros Hu Ht Hd. unfold App.fileToBase64, Js.split. rewrite Hu.
  replace ("data:" ++ File.type f ++ ";base64," ++ data)
    with (("data:" ++ File.type f ++ ";base64") ++ String Js.comma data).
  - rewrite splitFrom_first.
    + rewrite (splitFrom_lacks _ _ _ Hd). reflexivity.
    + rewrite !lacks_append, Ht. reflexivity.
  - rewrite !append_assoc. reflexivity.
Qed.

(** X17.  A file the form accepts (an image type or a PDF), read by the
    [FileReader] as a data URL of its type with a base64 content that is
    not empty: [fileToBase64] recovers the content; the model receives the
    prompt and the content as inline data under the lower-cased type; when
    the model answers with a page, the stored artifact is named after the
    file and carries as reference image the data URL with the lower-cased
    type; and [LivePreview] shows that image with the PDF renderer exactly
    when the file's type is the PDF type. *)
Theorem accepted_file_is_sent_and_shown model p f data page tokens uuid t st :
  InputArea.accepts f = true ->
  File.dataURL f = Some ("data:" ++ File.type f ++ ";base64," ++ data) ->
  Js.lacks Js.comma (File.type f) = true -> Js.lacks Js.comma data = true ->
  data <> "" ->
  let mime := Js.toLowerCase (File.type f) in
  let request := [Gemini.Text (Gemini.finalPrompt p (Some data));
                  Gemini.InlineData data mime] in
  let image := "data:" ++ mime ++ ";base64," ++ data in
  App.fileToBase64 f = Some (Some data)
  /\ usesPdfRenderer image = String.eqb (File.type f) "application/pdf"
  /\ (model request = Some (Gemini.mkResponse (Some page) tokens) ->
      page <> "" -> Gemini.cleanup page <> "" ->
      App.activeCreation (App.endGenerate model p (Some f) uuid t st)
      = Some (mkCreation uuid (File.name f) (Gemini.cleanup page) (Some image) t)).
Proof.
  intros Ha Hu Ht Hd Hn mime request image.
  pose proof (fileToBase64_dataURL f data Hu Ht Hd) as B.
  assert (Td : truthy data = true) by (apply truthy_true_iff; exact Hn).
  assert (Hm : (mime = "application/pdf" /\ File.type f = "application/pdf")
               \/ exists r, mime = "image/" ++ Js.toLowerCase r
                            /\ File.type f = "image/" ++ r).
  { unfold InputArea.accepts, Js.startsWith in Ha. apply orb_true_iff in Ha.
    destruct Ha as [Ha|Ha].
    - right. destruct (prefix_split _ _ Ha) as [r Hr]. exists r.
      unfold mime. rewrite Hr, toLowerCase_append. auto.
    - left. apply String.eqb_eq in Ha. unfold mime. rewrite Ha. auto. }
  assert (Tm : truthy mime = true).
  { apply truthy_true_iff. destruct Hm as [[-> _]|(r & -> & _)]; discriminate. }
  split; [exact B|]. split.
  - unfold usesPdfRenderer, Js.startsWith, image.
    destruct Hm as [[-> ->]|(r & -> & ->)].
    + rewrite String.eqb_refl.
      apply (prefix_append "data:application/pdf" (";base64," ++ data)).
    + replace (String.eqb ("image/" ++ r) "application/pdf") with false
        by (symmetry; apply String.eqb_neq; discriminate).
      reflexivity.
  - intros Hr Hp Hc. unfold App.endGenerate. rewrite B. fold mime.
    unfold Gemini.bringToLife, Gemini.parts. rewrite Td, Tm. cbn [andb].
    fold request. rewrite Hr. cbn [Gemini.text Gemini.usageMetadata Gemini.html Gemini.usage].
    apply truthy_true_iff in Hp. rewrite Hp.
    apply truthy_true_iff in Hc. rewrite Hc.
    cbn [App.activeCreation]. unfold App.newCreation. rewrite Td, Tm. reflexivity.
Qed.

Lemma accepted_file_is_sent_and_shown_witness :
  InputArea.accepts samplePdf = true
  /\ App.fileToBase64 samplePdf = Some (Some "JVBERi0=")
  /\ usesPdfRenderer "data:application/pdf;base64,JVBERi0=" = true
  /\ App.activeCreation (App.endGenerate sampleModel "" (Some samplePdf) "id-1" 5 emptyApp)
     = Some (mkCreation "id-1" "spec.pdf" samplePage
                        (Some "data:application/pdf;base64,JVBERi0=") 5).
Proof.
  pose proof (accepted_file_is_sent_and_shown sampleModel "" samplePdf "JVBERi0=" samplePage
                (Some (Tokens.toNumber 1200)) "id-1" 5 emptyApp) as H.
  cbn zeta in H.
  destruct H as (A & B & C); try reflexivity; [discriminate|].
  split; [reflexivity|]. split; [exact A|]. split; [exact B|].
  apply C; [reflexivity | discriminate | vm_compute; discriminate].
Defined.

(** ** The form's submit *)

Lemma trimStart_of_blank s : Js.blank s = true -> Js.trimStart s = "".
Proof.
  induction s as [|c s IH]; cbn; intros H; [reflexivity|].
  apply andb_true_iff in H. destruct H as [H1 H2]. rewrite H1. apply IH, H2.
Qed.

Lemma trimStart_not_blank s :
  Js.blank s = false ->
  exists c r, Js.trimStart s = String c r /\ Js.isWhiteSpace c = false.
Proof.
  induction s as [|c s IH]; cbn; intros H; [discriminate H|].
  destruct (Js.isWhiteSpace c) eqn:W; [apply IH; exact H|].
  exists c, s. auto.
Qed.

Lemma trimEnd_head c r : Js.isWhiteSpace c = false -> Js.trimEnd (String c r) <> "".
Proof.
  intros W. cbn [Js.trimEnd]. rewrite W. destruct (Js.trimEnd r); discriminate.
Qed.

Lemma trim_truthy s : truthy (Js.trim s) = negb (Js.blank s).
Proof.
  unfold Js.trim. destruct (Js.blank s) eqn:B.
  - rewrite (trimStart_of_blank s B). reflexivity.
  - destruct (trimStart_not_blank s B) as (c & r & -> & W).
    apply truthy_true_iff. apply trimEnd_head. exact W.
Qed.

(** X18.  The form calls [onGenerate] exactly when its submit button is
    enabled.  A prompt of whitespace only with no file selected is never
    sent.  What is sent without a file is the prompt as typed, untrimmed,
    it has a character that is not whitespace, and [bringToLife] hands it
    to the model as the only part of the request: the stock prompt for an
    empty one is not used.  And with the props [App] passes, nothing is
    sent while a generation runs, while an artifact is open or once the
    token limit is reached. *)
Theorem submit_sends_what_was_typed props st :
  (InputArea.handleSubmit props st = None <-> InputArea.submitDisabled props st = true)
  /\ (Js.blank (InputArea.prompt st) = true -> InputArea.selectedFile st = None ->
      InputArea.handleSubmit props st = None)
  /\ (forall p, InputArea.handleSubmit props st = Some (p, None) ->
        p = InputArea.prompt st /\ Js.blank p = false
        /\ Gemini.parts p None None = [Gemini.Text p])
  /\ (forall app,
        App.isGenerating app = true \/ App.activeCreation app <> None
        \/ App.isLimitReached app = true ->
        InputArea.handleSubmit (App.inputProps app) st = None).
Proof.
  unfold InputArea.handleSubmit, InputArea.submitDisabled, InputArea.nothingToSend.
  rewrite trim_truthy, negb_involutive.
  split; [|split; [|split]].
  - destruct (InputArea.disabled props), (InputArea.isGenerating props); cbn;
      try (split; reflexivity).
    destruct (Js.blank (InputArea.prompt st) && _); split; intros H;
      try reflexivity; discriminate H.
  - intros B F. rewrite B, F.
    destruct (InputArea.disabled props || InputArea.isGenerating props); reflexivity.
  - intros p H.
    destruct (InputArea.disabled props || InputArea.isGenerating props); [discriminate H|].
    destruct (Js.blank (InputArea.prompt st)) eqn:B; cbn [andb] in H.
    + destruct (InputArea.selectedFile st); [|discriminate H].
      injection H as _ H. discriminate H.
    + injection H as <- _. split; [reflexivity|]. split; [exact B|].
      unfold Gemini.parts, Gemini.finalPrompt. cbn [Gemini.given].
      assert (T : truthy (InputArea.prompt st) = true).
      { apply truthy_true_iff. intros E. rewrite E in B. discriminate B. }
      rewrite T. reflexivity.
  - intros app H. unfold App.inputProps, App.isFocused.
    cbn [InputArea.disabled InputArea.isGenerating].
    destruct (App.activeCreation app) as [c|]; [reflexivity|].
    destruct (App.isGenerating app); [reflexivity|].
    destruct (App.isLimitReached app); [reflexivity|].
    destruct H as [H|[H|H]]; [discriminate H | contradiction H; reflexivity | discriminate H].
Qed.

(** ** The loading view *)

Lemma loadingStep_min n : Loading.loadingStep n = Z.min (Z.of_nat n) 3.
Proof.
  induction n as [|n IH]; [reflexivity|].
  cbn [Loading.loadingStep]. rewrite IH. unfold Loading.advance.
  destruct (Z.min (Z.of_nat n) 3 <? 3)%Z eqn:E.
  - apply Z.ltb_lt in E. lia.
  - apply Z.ltb_ge in E. lia.
Qed.

(** X19.  While a generation loads, [loadingStep] after [n] intervals is
    the smaller of [n] and 3: it never passes the last of the four steps.
    So the guard of [TerminalLog]'s effect always holds, the progress bar
    never exceeds 100 percent, exactly the step at [loadingStep] is active,
    and the fourth step is never shown as completed. *)
Theorem loading_step_saturates n :
  let k := Loading.loadingStep n in
  k = Z.min (Z.of_nat n) 3
  /\ Loading.logsRun k = true
  /\ (25 <= Loading.barWidth k <= 100)%Z
  /\ Loading.completed k 3 = false
  /\ forall j, Loading.active k j = true <-> j = k.
Proof.
  cbn zeta. rewrite loadingStep_min.
  unfold Loading.logsRun, Loading.barWidth, Loading.completed, Loading.active,
    Loading.logPoolLength.
  split; [reflexivity|]. split.
  - apply andb_true_iff. split; [apply Z.leb_le | apply Z.ltb_lt]; lia.
  - split; [lia|]. split; [apply Z.ltb_ge; lia|].
    intros j. rewrite Z.eqb_eq. split; intros H; congruence.
Qed.

Lemma sliceLast_snoc {A} (k : nat) (l : list A) (x : A) :
  (Js.sliceLast k (Js.sliceLast (S k) l) ++ [x])%list = Js.sliceLast (S k) (l ++ [x]).
Proof.
  unfold Js.sliceLast. rewrite length_skipn, length_app. cbn [length].
  rewrite skipn_skipn.
  replace (length l - (length l - S k) - k + (length l - S k)) with (length l + 1 - S k) by lia.
  rewrite skipn_app.
  replace (length l + 1 - S k - length l) with 0 by lia. reflexivity.
Qed.

Lemma sliceLast_app {A} (k : nat) (a b : list A) :
  Js.sliceLast k (Js.sliceLast k a ++ b) = Js.sliceLast k (a ++ b).
Proof.
  unfold Js.sliceLast. rewrite !skipn_app, skipn_skipn, !length_app, !length_skipn.
  f_equal; f_equal; lia.
Qed.

Lemma appendLog_fold lines : forall prev,
  prev = Js.sliceLast 6 prev ->
  fold_left Loading.appendLog lines prev = Js.sliceLast 6 (prev ++ lines).
Proof.
  induction lines as [|x lines IH]; intros prev H; cbn [fold_left].
  - rewrite app_nil_r. exact H.
  - assert (E : Loading.appendLog prev x = Js.sliceLast 6 (prev ++ [x])).
    { unfold Loading.appendLog. rewrite H at 1. apply (sliceLast_snoc 5). }
    rewrite IH.
    + rewrite E, sliceLast_app, <- app_assoc. reflexivity.
    + rewrite E. rewrite <- (app_nil_r (Js.sliceLast 6 (prev ++ [x]))) at 2.
      rewrite sliceLast_app, app_nil_r. reflexivity.
Qed.

(** X20.  The log of the loading view is a window of six lines: after any
    number of lines appended to the empty log, it holds the last six of
    them in order, all of them when there are fewer. *)
Theorem terminal_log_window lines :
  fold_left Loading.appendLog lines [] = Js.sliceLast 6 lines
  /\ length (fold_left Loading.appendLog lines []) = Nat.min (length lines) 6.
Proof.
  assert (E : fold_left Loading.appendLog lines [] = Js.sliceLast 6 lines).
  { rewrite appendLog_fold; reflexivity. }
  split; [exact E|]. rewrite E. unfold Js.sliceLast. rewrite length_skipn. lia.
Qed.

(** ** The name of an exported file *)

Lemma lower_plain c :
  Js.isPlain (Js.lowerChar (if Js.isAlnum c then c else Js.underscore)) = true.
Proof.
  destruct c as [[] [] [] [] [] [] [] []]; vm_compute; reflexivity.
Qed.

Lemma exportStem_plain s :
  Js.all Js.isPlain (Js.toLowerCase (Js.replaceNonAlnum s)) = true
  /\ String.length (Js.toLowerCase (Js.replaceNonAlnum s)) = String.length s.
Proof.
  induction s as [|c s [IH1 IH2]]; [split; reflexivity|].
  cbn [Js.replaceNonAlnum Js.toLowerCase Js.all String.length].
  rewrite lower_plain, IH1, IH2. split; reflexivity.
Qed.

(** X21.  The file name of an export is the artifact's name, character by
    character, with every lower-case ASCII letter and digit kept, every
    upper-case ASCII letter lowered and every other character replaced by
    an underscore, followed by [_artifact.json]: whatever the name, the
    stem has the name's length and consists of lower-case ASCII letters,
    digits and underscores only. *)
Theorem export_name_is_plain c :
  exists stem,
    exportName c = stem ++ "_artifact.json"
    /\ Js.all Js.isPlain stem = true
    /\ String.length stem = String.length (name c).
Proof.
  exists (Js.toLowerCase (Js.replaceNonAlnum (name c))).
  split; [reflexivity | apply exportStem_plain].
Qed.

(** ** The file the form holds *)

Lemma form_step_accepts e st :
  (forall f, InputArea.selectedFile st = Some f -> InputArea.accepts f = true) ->
  forall f, InputArea.selectedFile (InputArea.step e st) = Some f ->
            InputArea.accepts f = true.
Proof.
  intros H f. destruct e as [[g|]|props [g|]|props| |value|transcript|];
    cbn [InputArea.step]; try exact (H f).
  - unfold InputArea.handleFile. destruct (InputArea.accepts g) eqn:A; cbn; [|exact (H f)].
    intros E. injection E as <-. exact A.
  - unfold InputArea.handleDrop.
    destruct (InputArea.disabled props || InputArea.isGenerating props); [exact (H f)|].
    unfold InputArea.handleFile. destruct (InputArea.accepts g) eqn:A; cbn; [|exact (H f)].
    intros E. injection E as <-. exact A.
  - unfold InputArea.handleDrop.
    destruct (InputArea.disabled props || InputArea.isGenerating props); exact (H f).
  - unfold InputArea.handleDragOver.
    destruct (negb (InputArea.disabled props) && negb (InputArea.isGenerating props));
      exact (H f).
  - cbn. discriminate.
Qed.

(** X22.  Whatever is done to the form from its initial state (files
    chosen or dropped, drags, typing, dictation, removal of the file), the
    file it holds, and so the file [handleSubmit] hands to [onGenerate], is
    one the form accepts: its type starts with [image/] or is
    [application/pdf].  A file of another type leaves the selection as it
    was and adds an alert; a drop while the form is disabled or a
    generation runs changes neither. *)
Theorem form_holds_accepted_files_only es :
  let st := InputArea.run es InputArea.initial in
  (forall f, InputArea.selectedFile st = Some f -> InputArea.accepts f = true)
  /\ (forall props p f, InputArea.handleSubmit props st = Some (p, Some f) ->
        InputArea.accepts f = true)
  /\ (forall g, InputArea.accepts g = false ->
        InputArea.selectedFile (InputArea.handleFile g st) = InputArea.selectedFile st
        /\ InputArea.alerts (InputArea.handleFile g st)
           = "Please upload an image or PDF." :: InputArea.alerts st)
  /\ (forall props g,
        InputArea.disabled props || InputArea.isGenerating props = true ->
        InputArea.selectedFile (InputArea.handleDrop props g st) = InputArea.selectedFile st
        /\ InputArea.alerts (InputArea.handleDrop props g st) = InputArea.alerts st
        /\ InputArea.isDragging (InputArea.handleDrop props g st) = false).
Proof.
  cbn zeta.
  assert (A : forall st,
            (forall f, InputArea.selectedFile st = Some f -> InputArea.accepts f = true) ->
            forall f, InputArea.selectedFile (InputArea.run es st) = Some f ->
                      InputArea.accepts f = true).
  { induction es as [|e es IH]; intros st H; [exact H|].
    cbn [InputArea.run fold_left]. apply IH. apply form_step_accepts. exact H. }
  assert (A0 : forall f, InputArea.selectedFile (InputArea.run es InputArea.initial) = Some f ->
                         InputArea.accepts f = true).
  { apply A. intros f Hf. discriminate Hf. }
  split; [exact A0|]. split; [|split].
  - intros props p f H. unfold InputArea.handleSubmit in H.
    destruct (InputArea.disabled props || InputArea.isGenerating props); [discriminate H|].
    destruct (InputArea.nothingToSend _); [discriminate H|].
    injection H as _ H. apply A0. exact H.
  - intros g Hg. unfold InputArea.handleFile. rewrite Hg. split; reflexivity.
  - intros props g H. unfold InputArea.handleDrop. rewrite H. cbn. auto.
Qed.

(** ** The token budget *)

Module TokensFacts.

Import Uint63.
Local Open Scope uint63_scope.

Lemma allBits_spec P d : forall i t,
  TokensCheck.allBits P d i = true ->
  ((to_Z i + 1) * 2 ^ Z.of_nat d <= wB)%Z ->
  (to_Z t / 2 ^ Z.of_nat d)%Z = to_Z i ->
  P t = true.
Proof.
  induction d as [|d IH]; intros i t H B E; cbn [TokensCheck.allBits] in H.
  - change (2 ^ Z.of_nat 0)%Z with 1%Z in E. rewrite Z.div_1_r in E.
    apply to_Z_inj in E. subst t. exact H.
  - apply andb_true_iff in H. destruct H as [H1 H2].
    pose proof (to_Z_bounded i) as Bi.
    assert (P2 : (2 ^ Z.of_nat (S d) = 2 * 2 ^ Z.of_nat d)%Z).
    { rewrite Nat2Z.inj_succ, Z.pow_succ_r by lia. reflexivity. }
    assert (Pd : (0 < 2 ^ Z.of_nat d)%Z) by (apply Z.pow_pos_nonneg; lia).
    rewrite P2 in B, E.
    assert (T2 : to_Z 2 = 2%Z) by reflexivity.
    assert (T1 : to_Z 1 = 1%Z) by reflexivity.
    assert (M : to_Z (2 * i) = (2 * to_Z i)%Z).
    { rewrite mul_spec, T2. apply Z.mod_small. nia. }
    assert (A : to_Z (2 * i + 1) = (2 * to_Z i + 1)%Z).
    { rewrite add_spec, M, T1. apply Z.mod_small. nia. }
    set (q := (to_Z t / 2 ^ Z.of_nat d)%Z).
    assert (Q : (q / 2)%Z = to_Z i).
    { unfold q. rewrite Z.div_div by lia. rewrite (Z.mul_comm (2 ^ Z.of_nat d)). exact E. }
    pose proof (Z.div_mod q 2 ltac:(lia)) as Dm.
    pose proof (Z.mod_pos_bound q 2 ltac:(lia)) as Mb.
    destruct (Z.eq_dec (q mod 2) 0) as [R|R].
    + apply (IH (2 * i) t H1); [rewrite M; nia | fold q; rewrite M; lia].
    + apply (IH (2 * i + 1) t H2); [rewrite A; nia | fold q; rewrite A; lia].
Qed.

Lemma thresholds_checked : TokensCheck.allBits TokensCheck.thresholdsAt 21 0 = true.
Proof. vm_compute. reflexivity. Qed.

Lemma thresholds_below t : (to_Z t < 2 ^ 21)%Z -> TokensCheck.thresholdsAt t = true.
Proof.
  intros H. apply (allBits_spec _ 21 0 t thresholds_checked).
  - vm_compute. discriminate.
  - change (to_Z 0) with 0%Z. apply Z.div_small.
    pose proof (to_Z_bounded t). change (Z.of_nat 21) with 21%Z. lia.
Qed.

Lemma of_Z_small z : (0 <= z < 2 ^ 21)%Z -> to_Z (of_Z z) = z.
Proof.
  intros H. rewrite of_Z_spec. apply Z.mod_small.
  split; [lia|]. apply Z.lt_trans with (2 ^ 21)%Z; [lia | reflexivity].
Qed.

(** The integer comparisons, in [Z]. *)
Lemma leb_Z a t : (0 <= t < 2 ^ 21)%Z -> (a <=? of_Z t) = (to_Z a <=? t)%Z.
Proof.
  intros H. destruct (a <=? of_Z t) eqn:E.
  - apply leb_spec in E. rewrite (of_Z_small t H) in E. symmetry. apply Z.leb_le. exact E.
  - symmetry. apply Z.leb_gt. destruct (Z_lt_le_dec t (to_Z a)) as [L|L]; [exact L|].
    assert (X : (a <=? of_Z t) = true) by (apply leb_spec; rewrite (of_Z_small t H); exact L).
    rewrite X in E. discriminate E.
Qed.

Lemma ltb_Z_r a t : (0 <= t < 2 ^ 21)%Z -> (a <? of_Z t) = (to_Z a <? t)%Z.
Proof.
  intros H. destruct (a <? of_Z t) eqn:E.
  - apply ltb_spec in E. rewrite (of_Z_small t H) in E. symmetry. apply Z.ltb_lt. exact E.
  - symmetry. apply Z.ltb_ge. destruct (Z_lt_le_dec (to_Z a) t) as [L|L]; [|exact L].
    assert (X : (a <? of_Z t) = true) by (apply ltb_spec; rewrite (of_Z_small t H); exact L).
    rewrite X in E. discriminate E.
Qed.

Lemma ltb_Z_l a t : (0 <= t < 2 ^ 21)%Z -> (of_Z t <? a) = (t <? to_Z a)%Z.
Proof.
  intros H. destruct (of_Z t <? a) eqn:E.
  - apply ltb_spec in E. rewrite (of_Z_small t H) in E. symmetry. apply Z.ltb_lt. exact E.
  - symmetry. apply Z.ltb_ge. destruct (Z_lt_le_dec t (to_Z a)) as [L|L]; [|exact L].
    assert (X : (of_Z t <? a) = true) by (apply ltb_spec; rewrite (of_Z_small t H); exact L).
    rewrite X in E. discriminate E.
Qed.

Lemma left_Z t :
  (0 <= t < 2 ^ 21)%Z -> TokensCheck.left (of_Z t) = of_Z (Z.max 0 (2000000 - t)).
Proof.
  intros H. unfold TokensCheck.left. rewrite (ltb_Z_r _ t H).
  change (to_Z 2000000) with 2000000%Z. apply to_Z_inj.
  assert (W : (2 ^ 21 < wB)%Z) by reflexivity.
  destruct (2000000 <? t)%Z eqn:E.
  - apply Z.ltb_lt in E. rewrite Z.max_l by lia. reflexivity.
  - apply Z.ltb_ge in E. rewrite Z.max_r by lia.
    rewrite sub_spec, (of_Z_small t H), of_Z_spec.
    change (to_Z 2000000) with 2000000%Z. reflexivity.
Qed.

End TokensFacts.

(** X23.  The token budget in whole tokens, for every count below 2^21
    (the limit is 2000000), computed as the program does in binary64:
    generation is disabled from 1900000 tokens on; the banner is absent
    below 1600000 tokens, a warning from there and critical from 1900000
    on; the meter's bar turns yellow only above 1600000 and red only above
    1900000 (at exactly 1900000 tokens generation is disabled and the
    banner critical while the bar is still yellow); and the tokens shown as
    remaining are 2000000 less the count, never below zero. *)
Theorem token_thresholds t :
  (0 <= t < 2 ^ 21)%Z ->
  let used := Tokens.toNumber t in
  Tokens.isLimitReached used = (1900000 <=? t)%Z
  /\ Tokens.tokenWarningBanner (Tokens.usagePercentage used)
     = (if (t <? 1600000)%Z then Tokens.NoBanner
        else if (1900000 <=? t)%Z then Tokens.Critical else Tokens.Warning)
  /\ Tokens.barColour used
     = (if (1900000 <? t)%Z then Tokens.Red
        else if (1600000 <? t)%Z then Tokens.Yellow else Tokens.Blue)
  /\ PrimFloat.eqb (Tokens.remaining used) (Tokens.toNumber (Z.max 0 (2000000 - t))) = true.
Proof.
  intros Ht used.
  assert (U : used = PrimFloat.of_uint63 (Uint63.of_Z t)).
  { unfold used, Tokens.toNumber. destruct (t <? 0)%Z eqn:E; [|reflexivity].
    apply Z.ltb_lt in E. lia. }
  assert (L : Tokens.toNumber (Z.max 0 (2000000 - t))
              = PrimFloat.of_uint63 (TokensCheck.left (Uint63.of_Z t))).
  { rewrite (TokensFacts.left_Z t Ht). unfold Tokens.toNumber.
    destruct (Z.max 0 (2000000 - t) <? 0)%Z eqn:E; [|reflexivity].
    apply Z.ltb_lt in E. lia. }
  pose proof (TokensFacts.thresholds_below (Uint63.of_Z t)) as H.
  rewrite (TokensFacts.of_Z_small t Ht) in H. specialize (H (proj2 Ht)).
  unfold TokensCheck.thresholdsAt in H. rewrite <- U, <- L in H.
  apply andb_true_iff in H. destruct H as [H H4].
  apply andb_true_iff in H. destruct H as [H H3].
  apply andb_true_iff in H. destruct H as [H1 H2].
  apply eqb_prop in H1. unfold TokensCheck.bannerAt in H2. unfold TokensCheck.colourAt in H3.
  rewrite (TokensFacts.leb_Z _ t Ht) in H1, H2.
  rewrite (TokensFacts.ltb_Z_l _ t Ht) in H2.
  rewrite !(TokensFacts.ltb_Z_r _ t Ht) in H3.
  split; [exact H1|]. split.
  - destruct (Tokens.tokenWarningBanner _);
      destruct (t <? _)%Z; try destruct (_ <=? t)%Z; try reflexivity; discriminate H2.
  - split; [|exact H4].
    destruct (Tokens.barColour used);
      destruct (_ <? t)%Z; try destruct (_ <? t)%Z; try reflexivity; discriminate H3.
Qed.

Lemma token_thresholds_witness :
  Tokens.isLimitReached (Tokens.toNumber 1900000) = true
  /\ Tokens.tokenWarningBanner (Tokens.usagePercentage (Tokens.toNumber 1900000))
     = Tokens.Critical
  /\ Tokens.barColour (Tokens.toNumber 1900000) = Tokens.Yellow.
Proof.
  assert (Ht : (0 <= 1900000 < 2 ^ 21)%Z) by (split; [discriminate | reflexivity]).
  destruct (token_thresholds 1900000 Ht) as (A & B & C & _).
  split; [exact A|]. split; [exact B | exact C].
Defined.

(** ** A creation with the id that is already loaded *)

(** X24.  The editor ignores the content of a creation whose id is the one
    it has recorded: after such a hand-over the creation is the new object
    while buffer, debounced copy, history and index are what they were and
    nothing is persisted; and when the buffer was settled nothing changes
    however long one waits: the new content is never shown. *)
Theorem same_id_is_not_reloaded s c ms :
  prevCreationId s = Some (id c) ->
  let r := setCreation (Some c) s in
  creation r = Some c
  /\ editableCode r = editableCode s /\ debouncedCode r = debouncedCode s
  /\ history r = history s /\ historyIndex r = historyIndex s
  /\ onUpdateCalls r = onUpdateCalls s
  /\ (editableCode s = debouncedCode s ->
      editableCode (elapse ms r) = editableCode s
      /\ debouncedCode (elapse ms r) = debouncedCode s
      /\ onUpdateCalls (elapse ms r) = onUpdateCalls s
      /\ srcDocs (elapse ms r) = srcDocs s).
Proof.
  intros Hp r. subst r. unfold setCreation.
  set (s' := set_creation (Some c) s). set (d := changed s s' true false).
  pose proof (commit_view d s') as V. cbn zeta in V.
  assert (Q : queuedReset s' = None).
  { unfold queuedReset, s'. cbn. rewrite Hp. unfold idDiffers. rewrite strNeq_refl.
    reflexivity. }
  cbn [dCreation d changed] in V. rewrite Q in V.
  destruct V as (_ & Vc & Vu & _ & Ve & Vd & Vp & _ & Vh & Vi & _ & Vr).
  set (a := commit d s') in *.
  split; [exact Vc|]. split; [exact Ve|]. split; [exact Vd|].
  split; [exact Vh|]. split; [exact Vi|]. split; [exact Vu|].
  intros E.
  assert (I : inSync s' = true).
  { unfold inSync, s'. cbn. rewrite E. apply String.eqb_refl. }
  unfold previewTimerAfter, previewRuns in Vp. rewrite I in Vp.
  cbn [d changed dCreation] in Vp. rewrite orb_true_r in Vp.
  destruct (elapse_unarmed ms a Vp) as (_ & U2 & U3 & U4 & _ & _ & _ & U8).
  rewrite U2, U3, U4, U8, Vu, Ve, Vd, Vr.
  cbn [d changed dDebounced]. unfold s'. cbn. rewrite strNeq_refl. auto.
Qed.

Lemma same_id_is_not_reloaded_witness :
  prevCreationId loadedA = Some (id artifactA')
  /\ html artifactA' = "ZZ"
  /\ creation (setCreation (Some artifactA') loadedA) = Some artifactA'
  /\ editableCode (elapse 2000 (setCreation (Some artifactA') loadedA)) = "A"
  /\ debouncedCode (elapse 2000 (setCreation (Some artifactA') loadedA)) = "A".
Proof.
  assert (Hp : prevCreationId loadedA = Some (id artifactA')) by (vm_compute; reflexivity).
  split; [exact Hp|]. split; [reflexivity|].
  destruct (same_id_is_not_reloaded loadedA artifactA' 2000 Hp) as (A & _ & _ & _ & _ & _ & B).
  split; [exact A|].
  destruct B as (B1 & B2 & _); [vm_compute; reflexivity|].
  rewrite B1, B2. split; vm_compute; reflexivity.
Defined.

(** ** Importing a file twice *)

(** X25.  Importing the same valid file twice: when the file carries an id
    the second import leaves the stored list as the first left it; when it
    carries none, each import takes a UUID of its own and, these being
    fresh, the artifact is stored twice, with the same name and content
    under two ids. *)
Theorem import_twice parsed uuid1 t1 uuid2 t2 st :
  Gemini.given (App.pHtml parsed) = true -> Gemini.given (App.pName parsed) = true ->
  let st1 := App.handleImportFile (Some parsed) uuid1 t1 st in
  let st2 := App.handleImportFile (Some parsed) uuid2 t2 st1 in
  (Gemini.given (App.pId parsed) = true -> App.history st2 = App.history st1)
  /\ (Gemini.given (App.pId parsed) = false ->
      ~ In uuid1 (App.ids st) -> ~ In uuid2 (App.ids st) -> uuid2 <> uuid1 ->
      exists a b,
        App.history st2 = b :: a :: App.history st
        /\ id a = uuid1 /\ id b = uuid2
        /\ name a = name b /\ html a = html b).
Proof.
  intros Hh Hn. cbn zeta. unfold App.handleImportFile. rewrite Hh, Hn. cbn [andb].
  cbn [App.history]. split.
  - intros Hi.
    assert (E : id (App.importedCreation parsed uuid2 t2)
                = id (App.importedCreation parsed uuid1 t1)).
    { unfold App.importedCreation. cbn [id]. rewrite Hi. reflexivity. }
    rewrite E.
    set (imp := App.importedCreation parsed uuid1 t1).
    destruct (existsb (fun c => String.eqb (id c) (id imp)) (App.history st)) eqn:X.
    + rewrite X. reflexivity.
    + cbn [existsb]. rewrite String.eqb_refl. reflexivity.
  - intros Hi H1 H2 Hne.
    assert (E1 : id (App.importedCreation parsed uuid1 t1) = uuid1).
    { unfold App.importedCreation. cbn [id]. rewrite Hi. reflexivity. }
    assert (E2 : id (App.importedCreation parsed uuid2 t2) = uuid2).
    { unfold App.importedCreation. cbn [id]. rewrite Hi. reflexivity. }
    rewrite E1, E2.
    assert (X0 : forall i, ~ In i (App.ids st) ->
                 existsb (fun c => String.eqb (id c) i) (App.history st) = false).
    { intros i Hi'. destruct (existsb (fun c => String.eqb (id c) i) (App.history st)) eqn:X;
        [|reflexivity]. apply existsb_id_In in X. contradiction. }
    pose proof (X0 uuid1 H1) as X1. pose proof (X0 uuid2 H2) as X2.
    rewrite X1. cbn [existsb]. rewrite E1, X2.
    assert (N : String.eqb uuid1 uuid2 = false) by (apply String.eqb_neq; congruence).
    rewrite N. cbn [orb].
    eexists. eexists. split; [reflexivity|].
    split; [exact E1|]. split; [exact E2|]. split; reflexivity.
Qed.

Lemma import_twice_witness :
  let st1 := App.handleImportFile (Some sampleParsed) "id-1" 5 emptyApp in
  let st2 := App.handleImportFile (Some sampleParsed) "id-2" 6 st1 in
  exists a b, App.history st2 = [b; a] /\ id a = "id-1" /\ id b = "id-2"
              /\ html a = html b.
Proof.
  cbn zeta.
  destruct (import_twice sampleParsed "id-1" 5 "id-2" 6 emptyApp eq_refl eq_refl)
    as (_ & H).
  destruct H as (a & b & A & B & C & _ & D);
    [reflexivity | intros F; exact F | intros F; exact F | discriminate |].
  exists a, b. auto.
Defined.

(** ** A file without content *)

(** X26.  A file whose data URL has nothing after the comma is left out of
    the request: [fileToBase64] gives the empty string, the model receives
    one part only, the prompt as typed or, when the prompt is empty, the
    stock prompt for a surprise; and the stored artifact is named after the
    file but has no reference image. *)
Theorem empty_file_is_left_out model p f page tokens uuid t st :
  File.dataURL f = Some ("data:" ++ File.type f ++ ";base64,") ->
  Js.lacks Js.comma (File.type f) = true ->
  let request := [Gemini.Text (if truthy p then p else Gemini.surprise)] in
  App.fileToBase64 f = Some (Some "")
  /\ (model request = Some (Gemini.mkResponse (Some page) tokens) ->
      page <> "" -> Gemini.cleanup page <> "" ->
      App.activeCreation (App.endGenerate model p (Some f) uuid t st)
      = Some (mkCreation uuid (File.name f) (Gemini.cleanup page) None t)).
Proof.
  intros Hu Ht request.
  assert (B : App.fileToBase64 f = Some (Some "")).
  { apply fileToBase64_dataURL; [rewrite append_nil_r; exact Hu | exact Ht | reflexivity]. }
  split; [exact B|].
  intros Hr Hp Hc. unfold App.endGenerate. rewrite B.
  unfold Gemini.bringToLife, Gemini.parts, Gemini.finalPrompt.
  cbn [Gemini.given]. replace (truthy "") with false by reflexivity. cbn [andb].
  fold request. rewrite Hr.
  cbn [Gemini.text Gemini.usageMetadata Gemini.html Gemini.usage].
  apply truthy_true_iff in Hp. rewrite Hp.
  apply truthy_true_iff in Hc. rewrite Hc.
  cbn [App.activeCreation]. unfold App.newCreation.
  replace (truthy "") with false by reflexivity. reflexivity.
Qed.

Lemma empty_file_is_left_out_witness :
  InputArea.accepts emptyFile = true
  /\ App.fileToBase64 emptyFile = Some (Some "")
  /\ App.activeCreation (App.endGenerate sampleModel "" (Some emptyFile) "id-1" 5 emptyApp)
     = Some (mkCreation "id-1" "empty.png" samplePage None 5).
Proof.
  pose proof (empty_file_is_left_out sampleModel "" emptyFile samplePage
                (Some (Tokens.toNumber 1200)) "id-1" 5 emptyApp eq_refl eq_refl) as H.
  cbn zeta in H. destruct H as (A & B).
  split; [reflexivity|]. split; [exact A|].
  apply B; [reflexivity | discriminate | vm_compute; discriminate].
Defined.
